(** * The conference session engine (TwilioVideoConferenceEngine)

    A shallow embedding of the engine closure of the conferencing facade:
    its four module-level variables ([eventCallbacks], [currentRoom],
    [currentConnectOptions], [currentScreenTrack]), the cached [deviceIds],
    the browser's [localStorage] and the shared [defaultConnectOptions]
    object, together with the operations [joinRoom], [leaveRoom],
    [turnOnMyAudio], [turnOnMyVideo], [turnOffMyVideo], [turnOffMyAudio],
    [startScreenShare], [stopScreenShare], the device preference setters
    and the listeners the engine installs on the objects of the
    conferencing SDK.

    The SDK is an external collaborator.  Its objects (rooms, participants,
    publications, tracks) are records; what it answers to a call is taken
    as an argument of the operation that makes the call; every call the
    engine makes into it is appended to the trace of the engine's effects;
    every event it fires is a value of [SdkEvent] handed to [dispatch],
    which runs the listeners the engine installed.

    The modules the engine leans on are embedded after it: the capability
    tests of browser.js ([Browser]) that screenshare.js consults, the
    device selection of selectmedia.js ([Media]) with the engine functions
    that call it, and the URL parameters of browser.js ([Url]). *)

From stdpp Require Import gmap strings list.
From Stdlib Require Import String List Bool.
From Stdlib Require QArith.
Import ListNotations.
Local Open Scope string_scope.

(** ** Data of the SDK

    The objects of the SDK are records.  The sid of a room, of a
    participant or of a publication and the id of a track stand for the
    object itself: this is what a listener is attached to and what a
    notification hands over. *)

(** [MediaType = { Video: "video", Audio: "audio" }] *)
Inductive MediaType := Video | Audio.

Definition MediaType_tag (k : MediaType) : string :=
  match k with Video => "video" | Audio => "audio" end.

Definition MediaType_eqb (a b : MediaType) : bool :=
  match a, b with Video, Video | Audio, Audio => true | _, _ => false end.

(** The argument of [setPriority] and of [publishTrack]'s options. *)
Inductive Priority := low | standard | high.

(** A live track object of the SDK.  Remote tracks carry a [sid]. *)
Record Track := {
  track_id : string;
  track_kind : MediaType;
  track_sid : option string
}.

(** A track publication: [publication.track] is [null] until the track is
    subscribed to. *)
Record Publication := {
  trackSid : string;
  pub_kind : MediaType;
  pub_track : option Track;
  isSubscribed : bool;
  pub_priority : Priority
}.

(** A participant; [participant.tracks] in insertion order. *)
Record Participant := {
  p_sid : string;
  tracks : list Publication
}.

(** [participant.videoTracks] and [participant.audioTracks] are the
    publications of [participant.tracks] of that kind. *)
Definition tracksOfKind (k : MediaType) (p : Participant) : list Publication :=
  List.filter (fun pub => MediaType_eqb (pub_kind pub) k) (tracks p).

Definition videoTracks := tracksOfKind Video.
Definition audioTracks := tracksOfKind Audio.

(** A room; [room.participants] is a [Map] from participant sid to remote
    participant, kept here in its iteration order, the key of an entry
    being [p_sid]. *)
Record Room := {
  room_sid : string;
  localParticipant : Participant;
  participants : list Participant
}.

(** ** Connect options *)

(** [deviceId] is either what the engine writes, [{ exact: id }] with [id]
    possibly [null], or a value supplied by the caller. *)
Inductive DeviceIdValue :=
| DeviceExact (id : option string)
| DevicePlain (id : string).

Definition truthy_string (s : string) : bool :=
  match s with EmptyString => false | _ => true end.

(** JS truthiness of [deviceId]: an object is truthy whatever it holds. *)
Definition truthy_deviceId (d : option DeviceIdValue) : bool :=
  match d with
  | None => false
  | Some (DeviceExact _) => true
  | Some (DevicePlain s) => truthy_string s
  end.

Record MediaOptions := {
  deviceId : option DeviceIdValue;
  width : option nat;
  height : option nat
}.

Record ConnectOptions := {
  name : option string;
  audio : option MediaOptions;
  video : option MediaOptions
}.

Definition set_deviceId (d : DeviceIdValue) (m : MediaOptions) : MediaOptions :=
  {| deviceId := Some d; width := width m; height := height m |}.

Definition set_name (n : string) (o : ConnectOptions) : ConnectOptions :=
  {| name := Some n; audio := audio o; video := video o |}.

Definition set_audio (m : MediaOptions) (o : ConnectOptions) : ConnectOptions :=
  {| name := name o; audio := Some m; video := video o |}.

Definition set_video (m : MediaOptions) (o : ConnectOptions) : ConnectOptions :=
  {| name := name o; audio := audio o; video := Some m |}.

(** [deviceIds = { audio: ..., video: ... }] as read by [fetchDeviceIds]. *)
Record DeviceIds := {
  ids_audio : option string;
  ids_video : option string
}.

(** ** Notifications *)

(** [conferenceEvents] *)
Inductive ConferenceEvent :=
| RoomConnected
| RoomCompleted
| ParticipantConnected
| ParticipantDisconnected
| ParticipantSubscribedTrack
| ParticipantUnsubscribedTrack
| DominantSpeakerChanged
| ExistingParticipantsReportingComplete
| ErrorOccured
| Debug.

Definition event_name (e : ConferenceEvent) : string :=
  match e with
  | RoomConnected => "RoomConnected"
  | RoomCompleted => "RoomCompleted"
  | ParticipantConnected => "ParticipantConnected"
  | ParticipantDisconnected => "ParticipantDisconnected"
  | ParticipantSubscribedTrack => "ParticipantSubscribedTrack"
  | ParticipantUnsubscribedTrack => "ParticipantUnsubscribedTrack"
  | DominantSpeakerChanged => "DominantSpeakerChanged"
  | ExistingParticipantsReportingComplete =>
      "ExistingParticipantsReportingComplete"
  | ErrorOccured => "ErrorOccured"
  | Debug => "Debug"
  end.

Definition ConferenceEvent_eqb (a b : ConferenceEvent) : bool :=
  String.eqb (event_name a) (event_name b).

(** The [track] member of a track notification: the members of the object
    the consumer receives. *)
Record TrackDescriptor := {
  td_kind : option MediaType;
  td_sid : option string;
  td_id : option string
}.

(** A live SDK track handed over as it is. *)
Definition liveTrack (t : Track) : TrackDescriptor :=
  {| td_kind := Some (track_kind t);
     td_sid := track_sid t;
     td_id := Some (track_id t) |}.

(** [{ ...publication.track, sid: publication.trackSid }]: the own members
    of the track when there is one, none when it is [null], and [sid]. *)
Definition spreadTrack (pub : Publication) : TrackDescriptor :=
  {| td_kind := option_map track_kind (pub_track pub);
     td_sid := Some (trackSid pub);
     td_id := option_map track_id (pub_track pub) |}.

(** [{ kind: MediaType.Video }] *)
Definition kindOnly (k : MediaType) : TrackDescriptor :=
  {| td_kind := Some k; td_sid := None; td_id := None |}.

(** The argument of a callback.  Participants and rooms are passed by
    reference, identified here by their sid. *)
Inductive Payload :=
| OfRoom (sid : string)
| OfParticipant (participant : option string)
| OfTrack (track : TrackDescriptor) (participant : option string)
| OfError (message : string)
| OfMessage (text : string).

(** One call of [notifyOfEvent]; [delivered] tells whether a callback was
    registered under [on<eventType>] and was therefore invoked. *)
Record Notification := {
  eventType : ConferenceEvent;
  args : Payload;
  delivered : bool
}.

(** ** Listeners installed on SDK objects *)

(** The object a listener is attached to.  The objects of the SDK have no
    identity here but their sid (their id, for tracks): two records of the
    same sid stand for one and the same object, to which a listener stays
    attached.  The SDK makes a new [Room] object, with new participants,
    at every [Video.connect], even for a room joined before; the answers
    to the connects of one run therefore carry sids that tell these
    objects apart, or come when no listener of an earlier object of that
    sid is left. *)
Inductive Emitter :=
| OnRoom (sid : string)
| OnParticipant (sid : string)
| OnPublication (trackSid : string)
| OnTrack (id : string).

(** A JS value used as a flag.  [participantConnected] receives its
    [isRemote] argument either as a boolean or, from
    [room.participants.forEach(participantConnected)], as the key of the
    map entry, [Map.prototype.forEach] calling back with
    [(value, key, map)]. *)
Inductive JsFlag :=
| JsBool (b : bool)
| JsString (s : string).

Definition truthy (v : JsFlag) : bool :=
  match v with
  | JsBool b => b
  | JsString s => truthy_string s
  end.

(** The function values the engine passes to [on] and [once], each with the
    variables it closes over. *)
Inductive Closure :=
| room_participantConnected
| room_participantDisconnected
| room_trackSubscribed
| room_dominantSpeakerChanged
| room_disconnected
| publication_subscribed (participant : string) (isRemote : JsFlag)
| publication_unsubscribed (participant : string)
| participant_trackSubscribed (participant : string) (isRemote : JsFlag)
| participant_trackUnsubscribed (participant : string)
| participant_trackPublished (participant : string)
| participant_trackUnpublished (participant : string)
| track_disabled (track : Track) (participant : string)
| track_enabled (track : Track) (participant : string).

Record Listener := {
  emitter : Emitter;
  event : string;
  once : bool;
  closure : Closure
}.

(** ** Calls into the SDK and the browser *)

Inductive SdkCall :=
| Call_connect (accessToken : string) (options : ConnectOptions)
| Call_disconnect (room : string)
| Call_createLocalTrack (k : MediaType) (options : MediaOptions)
| Call_publishTrack (t : Track) (priority : option Priority)
| Call_unpublishTrack (t : Track)
| Call_stop (t : Track)
| Call_setPriority (trackSid : string) (p : Priority)
| Call_getDisplayMedia (height width : option nat)
| Call_getUserMedia (height width : option nat).

(** ** Errors *)

(** What the engine throws or rejects with, one constructor per message of
    the source ([message] below gives the text). *)
Inductive EngineError :=
| MissingCredentials
| MissingRoomName
| HandlersNotRegistered
| NoAudioInfo
| NoVideoInfo
| NoAudioDevice
| NoVideoDevice
| TransportError (reason : string)
| RoomIsNull (k : MediaType)
| DeviceIdNotFound (k : MediaType)
| CreateTrackFailed (k : MediaType) (reason : string)
| PublishTrackFailed (k : MediaType) (reason : string)
| RoomInfoMissing (k : MediaType)
| NoLocalTracks (k : MediaType)
| NoLocalTrackInfo (k : MediaType)
| StopTrackFailed (k : MediaType) (reason : string)
| ScreenShareUnsupported
| ScreenShareFailed (reason : string)
| PublishFailed (reason : string)
| StopScreenFailed (reason : string)
| InitWithoutCallbacks
| TypeError (reason : string).

Definition message (e : EngineError) : string :=
  match e with
  | MissingCredentials => "User access token not supplied"
  | MissingRoomName => "Room name is not supplied"
  | HandlersNotRegistered =>
      "Event callbacks not registered, please register and initialize event callbacks"
  | NoAudioInfo => "Sorry no audio info found"
  | NoVideoInfo => "Sorry no video info found"
  | NoAudioDevice => "Sorry, can't access audio - no device id found"
  | NoVideoDevice => "Sorry, can't access video - no device id found"
  | TransportError m => m
  | RoomIsNull k => "Can't turn on " ++ MediaType_tag k ++ " - room is null"
  | DeviceIdNotFound Video => "Can't turn on video - Video device id not found"
  | DeviceIdNotFound Audio => "Can't turn on audio - Audio device id not found"
  | CreateTrackFailed k m =>
      "Can't turn on " ++ MediaType_tag k ++ " - an issue occured when creating local "
        ++ MediaType_tag k ++ " track - " ++ m
  | PublishTrackFailed Video m => "Could not publish video track - " ++ m
  | PublishTrackFailed Audio m => "Could not publish audio track " ++ m
  | RoomInfoMissing k =>
      "Room, local participant or " ++ MediaType_tag k ++ " track info is missing"
  | NoLocalTracks Video => "No video tracks found to unpublish"
  | NoLocalTracks Audio => "No audio track found to unpublish"
  | NoLocalTrackInfo k =>
      "No " ++ MediaType_tag k ++ " track info found to unpublish"
  | StopTrackFailed k m =>
      "An error occured while stopping " ++ MediaType_tag k ++ " track - " ++ m
  | ScreenShareUnsupported => "Screen sharing is not supported"
  | ScreenShareFailed m => "An error occured while starting screen share - " ++ m
  | PublishFailed m => "Could not publish video track " ++ m
  | StopScreenFailed m => "Error when stopping screen track: " ++ m
  | InitWithoutCallbacks => "Init without Event callbacks"
  | TypeError m => m
  end.

(** ** The engine state *)

(** What the engine does to the outside, in the order it does it: a
    callback notification, a listener attached to an SDK object, a call
    into the SDK or the browser. *)
Inductive Effect :=
| Notify (n : Notification)
| Install (l : Listener)
| Call (c : SdkCall).

(** The variables of the engine, [localStorage] and the listeners attached
    so far.  [currentRoom] is [None] while the variable holds [undefined]
    or [null]; [currentRoomDefined] tells the two apart, as
    [typeof currentRoom === "undefined"] does.  [sharesDefaults] tells
    whether [currentConnectOptions] refers to the [defaultConnectOptions]
    object itself, so that a write through either name is seen through
    the other. *)
Record Engine := {
  eventCallbacks : option (list string);
  currentRoom : option Room;
  currentRoomDefined : bool;
  currentConnectOptions : option ConnectOptions;
  sharesDefaults : bool;
  currentScreenTrack : option Track;
  deviceIds : option DeviceIds;
  localStorage : gmap string string;
  defaultConnectOptions : ConnectOptions;
  listeners : list Listener;
  trace : list Effect
}.

Definition set_eventCallbacks v (st : Engine) : Engine :=
  {| eventCallbacks := v; currentRoom := currentRoom st;
     currentRoomDefined := currentRoomDefined st;
     currentConnectOptions := currentConnectOptions st;
     sharesDefaults := sharesDefaults st;
     currentScreenTrack := currentScreenTrack st; deviceIds := deviceIds st;
     localStorage := localStorage st;
     defaultConnectOptions := defaultConnectOptions st; listeners := listeners st;
     trace := trace st |}.

(** [currentRoom = v]: the variable is not [undefined] afterwards. *)
Definition set_currentRoom v (st : Engine) : Engine :=
  {| eventCallbacks := eventCallbacks st; currentRoom := v;
     currentRoomDefined := true; currentConnectOptions := currentConnectOptions st;
     sharesDefaults := sharesDefaults st;
     currentScreenTrack := currentScreenTrack st; deviceIds := deviceIds st;
     localStorage := localStorage st;
     defaultConnectOptions := defaultConnectOptions st; listeners := listeners st;
     trace := trace st |}.

(** [currentConnectOptions = v], [v] being an object of the caller, which
    the engine does not hold under another name. *)
Definition set_currentConnectOptions v (st : Engine) : Engine :=
  {| eventCallbacks := eventCallbacks st; currentRoom := currentRoom st;
     currentRoomDefined := currentRoomDefined st; currentConnectOptions := v;
     sharesDefaults := false; currentScreenTrack := currentScreenTrack st;
     deviceIds := deviceIds st; localStorage := localStorage st;
     defaultConnectOptions := defaultConnectOptions st; listeners := listeners st;
     trace := trace st |}.

Definition set_currentScreenTrack v (st : Engine) : Engine :=
  {| eventCallbacks := eventCallbacks st; currentRoom := currentRoom st;
     currentRoomDefined := currentRoomDefined st;
     currentConnectOptions := currentConnectOptions st;
     sharesDefaults := sharesDefaults st; currentScreenTrack := v;
     deviceIds := deviceIds st; localStorage := localStorage st;
     defaultConnectOptions := defaultConnectOptions st; listeners := listeners st;
     trace := trace st |}.

Definition set_deviceIds v (st : Engine) : Engine :=
  {| eventCallbacks := eventCallbacks st; currentRoom := currentRoom st;
     currentRoomDefined := currentRoomDefined st;
     currentConnectOptions := currentConnectOptions st;
     sharesDefaults := sharesDefaults st;
     currentScreenTrack := currentScreenTrack st; deviceIds := v;
     localStorage := localStorage st;
     defaultConnectOptions := defaultConnectOptions st; listeners := listeners st;
     trace := trace st |}.

Definition set_localStorage v (st : Engine) : Engine :=
  {| eventCallbacks := eventCallbacks st; currentRoom := currentRoom st;
     currentRoomDefined := currentRoomDefined st;
     currentConnectOptions := currentConnectOptions st;
     sharesDefaults := sharesDefaults st;
     currentScreenTrack := currentScreenTrack st; deviceIds := deviceIds st;
     localStorage := v; defaultConnectOptions := defaultConnectOptions st;
     listeners := listeners st; trace := trace st |}.

(** A write to the members of the [defaultConnectOptions] object, which
    holds [v] afterwards. *)
Definition set_defaultConnectOptions v (st : Engine) : Engine :=
  {| eventCallbacks := eventCallbacks st; currentRoom := currentRoom st;
     currentRoomDefined := currentRoomDefined st;
     currentConnectOptions :=
       if sharesDefaults st then Some v else currentConnectOptions st;
     sharesDefaults := sharesDefaults st;
     currentScreenTrack := currentScreenTrack st; deviceIds := deviceIds st;
     localStorage := localStorage st; defaultConnectOptions := v;
     listeners := listeners st; trace := trace st |}.

(** [currentConnectOptions = defaultConnectOptions] *)
Definition share_defaultConnectOptions (st : Engine) : Engine :=
  {| eventCallbacks := eventCallbacks st; currentRoom := currentRoom st;
     currentRoomDefined := currentRoomDefined st;
     currentConnectOptions := Some (defaultConnectOptions st);
     sharesDefaults := true; currentScreenTrack := currentScreenTrack st;
     deviceIds := deviceIds st; localStorage := localStorage st;
     defaultConnectOptions := defaultConnectOptions st; listeners := listeners st;
     trace := trace st |}.

(** A write to the members of the object [currentConnectOptions] refers
    to, which holds [v] afterwards. *)
Definition write_currentConnectOptions v (st : Engine) : Engine :=
  {| eventCallbacks := eventCallbacks st; currentRoom := currentRoom st;
     currentRoomDefined := currentRoomDefined st; currentConnectOptions := Some v;
     sharesDefaults := sharesDefaults st;
     currentScreenTrack := currentScreenTrack st; deviceIds := deviceIds st;
     localStorage := localStorage st;
     defaultConnectOptions :=
       if sharesDefaults st then v else defaultConnectOptions st;
     listeners := listeners st; trace := trace st |}.

Definition set_listeners v (st : Engine) : Engine :=
  {| eventCallbacks := eventCallbacks st; currentRoom := currentRoom st;
     currentRoomDefined := currentRoomDefined st;
     currentConnectOptions := currentConnectOptions st;
     sharesDefaults := sharesDefaults st;
     currentScreenTrack := currentScreenTrack st; deviceIds := deviceIds st;
     localStorage := localStorage st;
     defaultConnectOptions := defaultConnectOptions st; listeners := v;
     trace := trace st |}.

Definition set_trace v (st : Engine) : Engine :=
  {| eventCallbacks := eventCallbacks st; currentRoom := currentRoom st;
     currentRoomDefined := currentRoomDefined st;
     currentConnectOptions := currentConnectOptions st;
     sharesDefaults := sharesDefaults st;
     currentScreenTrack := currentScreenTrack st; deviceIds := deviceIds st;
     localStorage := localStorage st;
     defaultConnectOptions := defaultConnectOptions st; listeners := listeners st;
     trace := v |}.

Definition notification (e : Effect) : option Notification :=
  match e with Notify n => Some n | _ => None end.

Definition call (e : Effect) : option SdkCall :=
  match e with Call c => Some c | _ => None end.

(** The notifications and the SDK calls of a trace, in order. *)
Definition notifications (t : list Effect) : list Notification := omap notification t.
Definition sdkCalls (t : list Effect) : list SdkCall := omap call t.

Definition notified (st : Engine) : list Notification := notifications (trace st).
Definition calls (st : Engine) : list SdkCall := sdkCalls (trace st).

(** ** Statements that may throw: state passing with exceptions

    A thrown exception keeps the effects made before it, as in JS. *)

Inductive Result (A : Type) :=
| Ok (a : A)
| Throw (e : EngineError).
Arguments Ok {A} a.
Arguments Throw {A} e.

Definition M (A : Type) : Type := Engine -> Result A * Engine.

Definition ret {A} (a : A) : M A := fun st => (Ok a, st).

Definition throw {A} (e : EngineError) : M A := fun st => (Throw e, st).

Definition bind {A B} (m : M A) (k : A -> M B) : M B := fun st =>
  match m st with
  | (Ok a, st') => k a st'
  | (Throw e, st') => (Throw e, st')
  end.

Definition get : M Engine := fun st => (Ok st, st).

Definition modify (f : Engine -> Engine) : M unit := fun st => (Ok tt, f st).

Declare Scope engine_scope.
Delimit Scope engine_scope with engine.
Notation "m ;; k" := (bind m (fun _ => k))
  (at level 100, k at level 200, right associativity) : engine_scope.
Notation "'let*' x ':=' m 'in' k" := (bind m (fun x => k))
  (at level 10, x name, m at level 100, k at level 200) : engine_scope.
Local Open Scope engine_scope.

Definition when (b : bool) (m : M unit) : M unit := if b then m else ret tt.

(** [xs.forEach(f)] *)
Fixpoint forEach {A} (xs : list A) (f : A -> M unit) : M unit :=
  match xs with
  | [] => ret tt
  | x :: rest => f x ;; forEach rest f
  end.

(** The state of the promise an operation returns, once its synchronous
    part and the callbacks of the SDK's answers have run.  [Pending]: it
    was neither resolved nor rejected. *)
Inductive Promise (A : Type) :=
| Resolved (a : A)
| Rejected (e : EngineError)
| Pending.
Arguments Resolved {A} a.
Arguments Rejected {A} e.
Arguments Pending {A}.

Definition is_Rejected {A} (p : Promise A) : bool :=
  match p with Rejected _ => true | _ => false end.

Definition record (e : Effect) : M unit :=
  modify (fun st => set_trace (trace st ++ [e]) st).

Definition sdkCall (c : SdkCall) : M unit := record (Call c).

Definition addListener (l : Listener) : M unit :=
  modify (fun st => set_listeners (listeners st ++ [l]) st);;
  record (Install l).

(** [emitter.on(event, listener)] and [emitter.once(event, listener)] *)
Definition on (e : Emitter) (ev : string) (c : Closure) : M unit :=
  addListener {| emitter := e; event := ev; once := false; closure := c |}.

Definition once_ (e : Emitter) (ev : string) (c : Closure) : M unit :=
  addListener {| emitter := e; event := ev; once := true; closure := c |}.

(** ** The engine *)

(** [notifyOfEvent]: looks the callback up under [on<eventType>] and calls
    it when there is one.  The lookup itself throws when [eventCallbacks]
    is [undefined] or [null]. *)
Definition notifyOfEvent (eventType : ConferenceEvent) (args : Payload) : M unit :=
  let* st := get in
  match eventCallbacks st with
  | None => throw (TypeError "Cannot read properties of undefined")
  | Some callbacks =>
      let callback :=
        existsb (String.eqb ("on" ++ event_name eventType)) callbacks in
      record (Notify
        {| eventType := eventType; args := args; delivered := callback |})
  end.

Definition participantDisconnected (participant : Participant) : M unit :=
  notifyOfEvent ParticipantDisconnected (OfParticipant (Some (p_sid participant))).

Definition dominantSpeakerChanged (participant : option Participant) : M unit :=
  notifyOfEvent DominantSpeakerChanged (OfParticipant (option_map p_sid participant)).

Definition trackSubscribed (track : Payload) : M unit :=
  notifyOfEvent ParticipantSubscribedTrack track.

(** [trackUnsubscribed]: its parameter is the object literal
    [{ track, participant }], which has no [on] member, so the branch that
    would attach an "enabled" listener is never taken. *)
Definition trackUnsubscribed (track : Payload) : M unit :=
  notifyOfEvent ParticipantUnsubscribedTrack track.

(** [setupTrackMuteEvents]: every live SDK track is an event emitter, so
    [track && track.on] holds exactly when a track is given. *)
Definition setupTrackMuteEvents (track : option Track) (participant : string) : M unit :=
  match track with
  | Some t =>
      on (OnTrack (track_id t)) "disabled" (track_disabled t participant);;
      on (OnTrack (track_id t)) "enabled" (track_enabled t participant)
  | None => ret tt
  end.

Definition isSome {A} (o : option A) : bool :=
  match o with Some _ => true | None => false end.

Definition participantConnected (participant : Participant) (isRemote : JsFlag) : M unit :=
  let who := p_sid participant in
  notifyOfEvent ParticipantConnected (OfParticipant (Some who));;
  forEach (tracks participant) (fun publication =>
    when (isSubscribed publication || isSome (pub_track publication))
      (when (truthy isRemote && isSome (pub_track publication))
         (setupTrackMuteEvents (pub_track publication) who);;
       trackSubscribed (OfTrack (spreadTrack publication) (Some who)));;
    on (OnPublication (trackSid publication)) "subscribed"
       (publication_subscribed who isRemote);;
    on (OnPublication (trackSid publication)) "unsubscribed"
       (publication_unsubscribed who));;
  on (OnParticipant who) "trackSubscribed" (participant_trackSubscribed who isRemote);;
  on (OnParticipant who) "trackUnsubscribed" (participant_trackUnsubscribed who);;
  on (OnParticipant who) "trackPublished" (participant_trackPublished who);;
  on (OnParticipant who) "trackUnpublished" (participant_trackUnpublished who).

Definition fetchDeviceIds : M unit :=
  modify (fun st => set_deviceIds
    (Some {| ids_audio := localStorage st !! "audioInputDeviceId";
             ids_video := localStorage st !! "videoDeviceId" |}) st).

(** A string argument that passes [typeof x === "undefined" || !x]. *)
Definition supplied (x : option string) : option string :=
  match x with
  | Some s => if truthy_string s then Some s else None
  | None => None
  end.

(** The two blocks that add the device ids to the connect options. *)
Definition addAudioDeviceId (ids : DeviceIds) (o : ConnectOptions) : Result ConnectOptions :=
  match audio o with
  | Some a =>
      if negb (truthy_deviceId (deviceId a))
      then Ok (set_audio (set_deviceId (DeviceExact (ids_audio ids)) a) o)
      else Ok o
  | None => Throw NoAudioInfo
  end.

Definition addVideoDeviceId (ids : DeviceIds) (o : ConnectOptions) : Result ConnectOptions :=
  match video o with
  | Some v =>
      if negb (truthy_deviceId (deviceId v))
      then Ok (set_video (set_deviceId (DeviceExact (ids_video ids)) v) o)
      else Ok o
  | None => Throw NoVideoInfo
  end.

Definition deviceIdOf (m : option MediaOptions) : option DeviceIdValue :=
  match m with Some o => deviceId o | None => None end.

(** The two checks that follow them. *)
Definition checkDeviceIds (o : ConnectOptions) : Result ConnectOptions :=
  if negb (truthy_deviceId (deviceIdOf (audio o))) then Throw NoAudioDevice
  else if negb (truthy_deviceId (deviceIdOf (video o))) then Throw NoVideoDevice
  else Ok o.

(** Writes to the object [connectOptions] refers to: when the caller gave
    no options this is the shared [defaultConnectOptions] object. *)
Definition store (shared : bool) (o : ConnectOptions) : M unit :=
  when shared (modify (set_defaultConnectOptions o)).

Definition lift {A} (shared : bool)
    (r : Result ConnectOptions) (k : ConnectOptions -> M A) : M A :=
  match r with
  | Ok o => store shared o;; k o
  | Throw e => throw e
  end.

(** The body of [joinRoom] up to [currentConnectOptions = connectOptions];
    gives the access token and the options handed to [Video.connect]. *)
Definition prepare (accessToken roomName : option string)
    (connectOptions : option ConnectOptions) : M (string * ConnectOptions) :=
  match supplied accessToken with
  | None => throw MissingCredentials
  | Some token =>
  match supplied roomName with
  | None => throw MissingRoomName
  | Some room =>
  let* st := get in
  match eventCallbacks st with
  | None => throw HandlersNotRegistered
  | Some _ =>
  let shared := negb (isSome connectOptions) in
  let o0 := default (defaultConnectOptions st) connectOptions in
  let o1 := set_name room o0 in
  store shared o1;;
  when (negb (isSome (deviceIds st))) fetchDeviceIds;;
  let* st := get in
  let ids := default {| ids_audio := None; ids_video := None |} (deviceIds st) in
  lift shared (addAudioDeviceId ids o1) (fun o2 =>
  lift shared (addVideoDeviceId ids o2) (fun o3 =>
  lift shared (checkDeviceIds o3) (fun o4 =>
  (if shared then modify share_defaultConnectOptions
   else modify (set_currentConnectOptions (Some o4)));;
  ret (token, o4))))
  end end end.

(** The callback of [Video.connect(...).then]. *)
Definition connected (room : Room) : M unit :=
  let here := OnRoom (room_sid room) in
  notifyOfEvent RoomConnected (OfRoom (room_sid room));;
  modify (set_currentRoom (Some room));;
  participantConnected (localParticipant room) (JsBool false);;
  forEach (participants room)
    (fun participant => participantConnected participant (JsString (p_sid participant)));;
  on here "participantConnected" room_participantConnected;;
  on here "participantDisconnected" room_participantDisconnected;;
  on here "trackSubscribed" room_trackSubscribed;;
  notifyOfEvent ExistingParticipantsReportingComplete (OfRoom (room_sid room));;
  on here "dominantSpeakerChanged" room_dominantSpeakerChanged;;
  once_ here "disconnected" room_disconnected.

(** [joinRoom]; [answer] is what [Video.connect] settles with: a room, or
    the message of the error it rejects with. *)
Definition joinRoom (accessToken roomName : option string)
    (connectOptions : option ConnectOptions) (answer : Room + string)
    (st : Engine) : Promise Room * Engine :=
  match prepare accessToken roomName connectOptions st with
  | (Throw e, st1) => (Rejected e, st1)
  | (Ok (token, options), st1) =>
      let st2 := snd (sdkCall (Call_connect token options) st1) in
      match answer with
      | inr reason => (Rejected (TransportError reason), st2)
      | inl room =>
          match connected room st2 with
          | (Ok _, st3) => (Resolved room, st3)
          | (Throw e, st3) => (Rejected e, st3)
          end
      end
  end.

(** [init]: the argument is [None] for [undefined], [Some None] for
    [null].  (The [Error] it returns when the browser is not supported is
    a return value and changes nothing.) *)
Definition init (event_callbacks : option (option (list string))) : M unit :=
  match event_callbacks with
  | None => throw InitWithoutCallbacks
  | Some callbacks => modify (set_eventCallbacks callbacks)
  end.

(** The keys of the object [registerCallbacks] returns: all ten wrappers
    are there whichever functions were given. *)
Definition registerCallbacks : list string :=
  [ "onRoomConnected"; "onRoomDisconnected"; "onParticipantConnected";
    "onParticipantDisconnected"; "onParticipantSubscribedTrack";
    "onParticipantUnsubscribedTrack"; "onDominantSpeakerChanged";
    "onExistingParticipantsReportingComplete"; "onErrorOccured"; "onDebug" ].

(** ** Events fired by the SDK *)

(** An event with the emitter it is fired on and the arguments the
    listeners receive.  The room of [Ev_disconnected] is the object the
    [once("disconnected")] listener closed over, as it is when the event
    fires; [firstArg] is the first argument of the event, [None] when it is
    absent or falsy. *)
Inductive SdkEvent :=
| Ev_participantConnected (room : string) (participant : Participant)
| Ev_participantDisconnected (room : string) (participant : Participant)
| Ev_roomTrackSubscribed (room : string) (track : Track) (participant : Participant)
| Ev_dominantSpeakerChanged (room : string) (participant : option Participant)
| Ev_disconnected (room : Room) (firstArg : option Payload)
| Ev_subscribed (publication : string) (track : Track)
| Ev_unsubscribed (publication : string) (track : Track)
| Ev_trackSubscribed (participant : string) (track : Track)
| Ev_trackUnsubscribed (participant : string) (track : Track)
| Ev_trackPublished (participant : string) (publication : Publication)
| Ev_trackUnpublished (participant : string) (publication : Publication)
| Ev_disabled (track : string)
| Ev_enabled (track : string).

Definition source (ev : SdkEvent) : Emitter :=
  match ev with
  | Ev_participantConnected r _ | Ev_participantDisconnected r _
  | Ev_roomTrackSubscribed r _ _ | Ev_dominantSpeakerChanged r _ => OnRoom r
  | Ev_disconnected r _ => OnRoom (room_sid r)
  | Ev_subscribed p _ | Ev_unsubscribed p _ => OnPublication p
  | Ev_trackSubscribed p _ | Ev_trackUnsubscribed p _
  | Ev_trackPublished p _ | Ev_trackUnpublished p _ => OnParticipant p
  | Ev_disabled t | Ev_enabled t => OnTrack t
  end.

Definition ev_name (ev : SdkEvent) : string :=
  match ev with
  | Ev_participantConnected _ _ => "participantConnected"
  | Ev_participantDisconnected _ _ => "participantDisconnected"
  | Ev_roomTrackSubscribed _ _ _ => "trackSubscribed"
  | Ev_dominantSpeakerChanged _ _ => "dominantSpeakerChanged"
  | Ev_disconnected _ _ => "disconnected"
  | Ev_subscribed _ _ => "subscribed"
  | Ev_unsubscribed _ _ => "unsubscribed"
  | Ev_trackSubscribed _ _ => "trackSubscribed"
  | Ev_trackUnsubscribed _ _ => "trackUnsubscribed"
  | Ev_trackPublished _ _ => "trackPublished"
  | Ev_trackUnpublished _ _ => "trackUnpublished"
  | Ev_disabled _ => "disabled"
  | Ev_enabled _ => "enabled"
  end.

Definition Emitter_eqb (a b : Emitter) : bool :=
  match a, b with
  | OnRoom x, OnRoom y | OnParticipant x, OnParticipant y
  | OnPublication x, OnPublication y | OnTrack x, OnTrack y => String.eqb x y
  | _, _ => false
  end.

(** The body of each listener, applied to the arguments of the event. *)
Definition invoke (c : Closure) (ev : SdkEvent) : M unit :=
  match c, ev with
  | room_participantConnected, Ev_participantConnected _ participant =>
      participantConnected participant (JsBool true)
  | room_participantDisconnected, Ev_participantDisconnected _ participant =>
      participantDisconnected participant
  | room_trackSubscribed, Ev_roomTrackSubscribed _ track participant =>
      setupTrackMuteEvents (Some track) (p_sid participant)
  | room_dominantSpeakerChanged, Ev_dominantSpeakerChanged _ participant =>
      dominantSpeakerChanged participant
  | room_disconnected, Ev_disconnected room error =>
      participantDisconnected (localParticipant room);;
      forEach (participants room) participantDisconnected;;
      match error with
      | None => notifyOfEvent RoomCompleted (OfRoom (room_sid room))
      | Some error => notifyOfEvent ErrorOccured error
      end
  | publication_subscribed participant isRemote, Ev_subscribed _ track =>
      when (truthy isRemote) (setupTrackMuteEvents (Some track) participant);;
      trackSubscribed (OfTrack (liveTrack track) (Some participant))
  | publication_unsubscribed participant, Ev_unsubscribed _ track =>
      trackUnsubscribed (OfTrack (liveTrack track) (Some participant))
  | participant_trackSubscribed participant isRemote, Ev_trackSubscribed _ track =>
      when (truthy isRemote) (setupTrackMuteEvents (Some track) participant);;
      trackSubscribed (OfTrack (liveTrack track) (Some participant))
  | participant_trackUnsubscribed participant, Ev_trackUnsubscribed _ track =>
      trackUnsubscribed (OfTrack (liveTrack track) (Some participant))
  | participant_trackPublished participant, Ev_trackPublished _ publication =>
      trackSubscribed (OfTrack (spreadTrack publication) (Some participant))
  | participant_trackUnpublished participant, Ev_trackUnpublished _ publication =>
      trackUnsubscribed (OfTrack (spreadTrack publication) (Some participant))
  | track_disabled track participant, Ev_disabled _ =>
      trackUnsubscribed (OfTrack (liveTrack track) (Some participant))
  | track_enabled track participant, Ev_enabled _ =>
      trackSubscribed (OfTrack (liveTrack track) (Some participant))
  | _, _ => ret tt
  end.

(** The listener is attached to the object that emits the event, under
    the name of the event; the object is told by its sid, as said at
    [Emitter]. *)
Definition listensTo (ev : SdkEvent) (l : Listener) : bool :=
  Emitter_eqb (emitter l) (source ev) && String.eqb (event l) (ev_name ev).

(** [emitter.emit(event, ...)]: the listeners registered at that moment run
    in registration order; a [once] listener is removed before it runs. *)
Definition dispatch (ev : SdkEvent) : M unit :=
  let* st := get in
  let fired := List.filter (listensTo ev) (listeners st) in
  modify (set_listeners
    (List.filter (fun l => negb (listensTo ev l && once l)) (listeners st)));;
  forEach fired (fun l => invoke (closure l) ev).

(** ** Local tracks *)

Definition sameTrack (a b : Track) : bool := String.eqb (track_id a) (track_id b).

Definition publishes (t : Track) (pub : Publication) : bool :=
  match pub_track pub with Some t' => sameTrack t t' | None => false end.

(** What [unpublishTrack] does to the local participant: the publication
    of the track leaves its collections. *)
Definition withoutTrack (t : Track) (p : Participant) : Participant :=
  {| p_sid := p_sid p;
     tracks := List.filter (fun pub => negb (publishes t pub)) (tracks p) |}.

Definition with_localParticipant (p : Participant) (r : Room) : Room :=
  {| room_sid := room_sid r; localParticipant := p; participants := participants r |}.

(** What a [publishTrack] that resolves does to the local participant: a
    publication of the track joins its collections. *)
Definition published (sid : string) (t : Track) (p : Priority) (who : Participant)
    : Participant :=
  {| p_sid := p_sid who;
     tracks := tracks who ++
       [{| trackSid := sid; pub_kind := track_kind t; pub_track := Some t;
           isSubscribed := false; pub_priority := p |}] |}.

(** What the SDK answers during one [turnOnMyAudio] or [turnOnMyVideo]:
    [createLocalAudioTrack] or [createLocalVideoTrack] resolves with a
    track (its id) or rejects (the message of the error), and
    [publishTrack] resolves with a publication (its sid) or rejects. *)
Record TurningOn := {
  createLocalTrack_answer : string + string;
  publish_answer : string + string
}.

(** [currentConnectOptions.audio] or [currentConnectOptions.video] *)
Definition section (k : MediaType) (o : ConnectOptions) : option MediaOptions :=
  match k with Video => video o | Audio => audio o end.

Definition set_section (k : MediaType) (m : MediaOptions) (o : ConnectOptions)
    : ConnectOptions :=
  match k with Video => set_video m o | Audio => set_audio m o end.

(** [turnOnMyVideo] ([k = Video]) and [turnOnMyAudio] ([k = Audio]).  The
    first [reject], made while [currentRoom] is still [undefined], does not
    end the executor: the promise stays rejected with that reason and
    everything below still happens.  The device identifier given
    ([givenDeviceId], the parameter [deviceId] of the source) is written
    into the object [currentConnectOptions] refers to.  With
    [currentConnectOptions] still [undefined] the executor throws on its
    member access; with no room the callback of [createLocal...Track]
    throws on [currentRoom.localParticipant], which its [catch] handler
    reports as a failure to create the track. *)
Definition turnOnMy (k : MediaType) (givenDeviceId : option string) (sdk : TurningOn)
    (st : Engine) : Promise unit * Engine :=
  let settle (p : Promise unit) : Promise unit :=
    if currentRoomDefined st then p else Rejected (RoomIsNull k) in
  match currentConnectOptions st with
  | None => (settle (Rejected (TypeError "Cannot read properties of undefined")), st)
  | Some o =>
      let o' :=
        match supplied givenDeviceId, section k o with
        | Some id, Some m => set_section k (set_deviceId (DevicePlain id) m) o
        | _, _ => o
        end in
      let st1 :=
        match supplied givenDeviceId, section k o with
        | Some _, Some _ => write_currentConnectOptions o' st
        | _, _ => st
        end in
      match section k o' with
      | None => (settle (Rejected (DeviceIdNotFound k)), st1)
      | Some m =>
          if negb (truthy_deviceId (deviceId m))
          then (settle (Rejected (DeviceIdNotFound k)), st1)
          else
            let st2 := snd (sdkCall (Call_createLocalTrack k m) st1) in
            match createLocalTrack_answer sdk with
            | inr reason => (settle (Rejected (CreateTrackFailed k reason)), st2)
            | inl id =>
                let track := {| track_id := id; track_kind := k; track_sid := None |} in
                match currentRoom st2 with
                | None =>
                    (settle (Rejected
                       (CreateTrackFailed k "Cannot read properties of null")), st2)
                | Some room =>
                    let st3 := snd (sdkCall (Call_publishTrack track None) st2) in
                    match publish_answer sdk with
                    | inr reason =>
                        (settle (Rejected (PublishTrackFailed k reason)), st3)
                    | inl sid =>
                        (settle (Resolved tt),
                         set_currentRoom
                           (Some (with_localParticipant
                                    (published sid track standard
                                       (localParticipant room)) room)) st3)
                    end
                end
            end
      end
  end.

Definition turnOnMyVideo := turnOnMy Video.
Definition turnOnMyAudio := turnOnMy Audio.

(** What the SDK does when asked to unpublish and to stop a track: [Some m]
    when the call throws an error with message [m]. *)
Record Teardown := {
  unpublishTrack_throws : option string;
  stop_throws : option string
}.

Definition raise (m : option string) : M unit :=
  match m with Some m => throw (TransportError m) | None => ret tt end.

(** The guarded block of [turnOffMyVideo] and [turnOffMyAudio]. *)
Definition unpublishAndStop (k : MediaType) (room : Room) (track : Track)
    (sdk : Teardown) : M unit :=
  sdkCall (Call_unpublishTrack track);;
  raise (unpublishTrack_throws sdk);;
  modify (set_currentRoom
    (Some (with_localParticipant (withoutTrack track (localParticipant room)) room)));;
  sdkCall (Call_stop track);;
  raise (stop_throws sdk);;
  trackUnsubscribed (OfTrack (kindOnly k) (Some (p_sid (localParticipant room)))).

(** [turnOffMyVideo] ([k = Video]) and [turnOffMyAudio] ([k = Audio]).  With
    no room the executor rejects and then throws on [currentRoom.localParticipant],
    which leaves the promise rejected with the first reason. *)
Definition turnOffMy (k : MediaType) (sdk : Teardown) (st : Engine)
    : Promise unit * Engine :=
  match currentRoom st with
  | None => (Rejected (RoomInfoMissing k), st)
  | Some room =>
      match tracksOfKind k (localParticipant room) with
      | [] => (Rejected (NoLocalTracks k), st)
      | publication :: _ =>
          match pub_track publication with
          | None => (Rejected (NoLocalTrackInfo k), st)
          | Some track =>
              match unpublishAndStop k room track sdk st with
              | (Ok _, st') => (Resolved tt, st')
              | (Throw e, st') => (Rejected (StopTrackFailed k (message e)), st')
              end
          end
      end
  end.

Definition turnOffMyVideo := turnOffMy Video.
Definition turnOffMyAudio := turnOffMy Audio.

(** ** Leaving the room *)

(** What the SDK does during [leaveRoom]: how the two unpublish-and-stop
    attempts go, and whether [room.disconnect()] fires the room's
    "disconnected" event before it returns ([Some firstArg]) or not. *)
Record Leaving := {
  video_teardown : Teardown;
  audio_teardown : Teardown;
  disconnect_fires : option (option Payload)
}.

(** A call whose returned promise is dropped. *)
Definition forget {A} (op : Engine -> Promise A * Engine) : M unit :=
  fun st => (Ok tt, snd (op st)).

Definition leaveRoom (roomName : string) (sdk : Leaving) : M unit :=
  forget (turnOffMyVideo (video_teardown sdk));;
  forget (turnOffMyAudio (audio_teardown sdk));;
  let* st := get in
  notifyOfEvent ParticipantDisconnected
    (OfParticipant (option_map (fun r => p_sid (localParticipant r)) (currentRoom st)));;
  match currentRoom st with
  | None => ret tt
  | Some room =>
      forEach (participants room) (fun participant =>
        notifyOfEvent ParticipantDisconnected (OfParticipant (Some (p_sid participant))));;
      notifyOfEvent Debug (OfMessage ("Disconnected from room " ++ roomName));;
      sdkCall (Call_disconnect (room_sid room));;
      match disconnect_fires sdk with
      | Some firstArg => dispatch (Ev_disconnected room firstArg)
      | None => ret tt
      end;;
      modify (set_currentRoom None)
  end.

(** ** Screen share *)

(** The browser and the SDK during one [startScreenShare]: the two
    capability tests of [createScreenTrack], the id of the video track of
    the captured stream ([None] when the capture is refused) and the answer
    of [publishTrack]: the sid of the new publication, or the message of
    the error it rejects with. *)
Record ScreenShare := {
  canScreenshare : bool;
  supportsGetDisplayMedia : bool;
  capture : option string;
  publishTrack_answer : string + string
}.

(** [new Video.LocalVideoTrack(stream.getVideoTracks()[0])] *)
Definition LocalVideoTrack (id : string) : Track :=
  {| track_id := id; track_kind := Video; track_sid := None |}.

(** [createScreenTrack] of screenshare.js *)
Definition createScreenTrack (height width : option nat) (sdk : ScreenShare)
    (st : Engine) : Promise Track * Engine :=
  if negb (canScreenshare sdk) then (Rejected ScreenShareUnsupported, st)
  else
    let call := if supportsGetDisplayMedia sdk
                then Call_getDisplayMedia height width
                else Call_getUserMedia height width in
    let st' := snd (sdkCall call st) in
    match capture sdk with
    | Some id => (Resolved (LocalVideoTrack id), st')
    | None => (Rejected ScreenShareUnsupported, st')
    end.

Definition truthy_nat (n : option nat) : bool :=
  match n with Some (S _) => true | _ => false end.

(** [given || currentConnectOptions.video.member] *)
Definition orVideoOption (given : option nat) (member : MediaOptions -> option nat)
    (st : Engine) : Result (option nat) :=
  if truthy_nat given then Ok given
  else match currentConnectOptions st with
       | None => Throw (TypeError "Cannot read properties of undefined")
       | Some o =>
           match video o with
           | None => Throw (TypeError "Cannot read properties of undefined")
           | Some v => Ok (member v)
           end
       end.

Definition with_priority (p : Priority) (pub : Publication) : Publication :=
  {| trackSid := trackSid pub; pub_kind := pub_kind pub; pub_track := pub_track pub;
     isSubscribed := isSubscribed pub; pub_priority := p |}.

Definition reprioritized (p : Priority) (who : Participant) : Participant :=
  {| p_sid := p_sid who;
     tracks := map (fun pub => if MediaType_eqb (pub_kind pub) Video
                               then with_priority p pub else pub) (tracks who) |}.

(** [currentRoom.localParticipant.videoTracks.forEach(track => track.setPriority(p))]:
    each video publication of the local participant is updated in place. *)
Definition setVideoPriority (p : Priority) : M unit :=
  let* st := get in
  match currentRoom st with
  | None => throw (TypeError "Cannot read properties of undefined")
  | Some room =>
      forEach (videoTracks (localParticipant room))
        (fun pub => sdkCall (Call_setPriority (trackSid pub) p));;
      modify (set_currentRoom
        (Some (with_localParticipant (reprioritized p (localParticipant room)) room)))
  end.

(** The callback of [createScreenTrack(...).then] up to the call of
    [publishTrack]. *)
Definition shareTrack (track : Track) : M Room :=
  modify (set_currentScreenTrack (Some track));;
  setVideoPriority low;;
  let* st := get in
  match currentRoom st with
  | None => throw (TypeError "Cannot read properties of undefined")
  | Some room =>
      sdkCall (Call_publishTrack track (Some high));;
      ret room
  end.

Definition widthOf : MediaOptions -> option nat := width.
Definition heightOf : MediaOptions -> option nat := height.

Definition startScreenShare (height width : option nat) (sdk : ScreenShare)
    (st : Engine) : Promise unit * Engine :=
  match orVideoOption width widthOf st with
  | Throw e => (Rejected e, st)
  | Ok width =>
  match orVideoOption height heightOf st with
  | Throw e => (Rejected e, st)
  | Ok height =>
  match createScreenTrack height width sdk st with
  | (Rejected e, st1) => (Rejected (ScreenShareFailed (message e)), st1)
  | (Pending, st1) => (Pending, st1)
  | (Resolved track, st1) =>
      match shareTrack track st1 with
      | (Throw e, st2) => (Rejected (ScreenShareFailed (message e)), st2)
      | (Ok room, st2) =>
          match publishTrack_answer sdk with
          | inl sid =>
              (Resolved tt,
               set_currentRoom
                 (Some (with_localParticipant
                          (published sid track high (localParticipant room)) room)) st2)
          | inr reason => (Rejected (PublishFailed reason), st2)
          end
      end
  end end end.

(** [stopScreenShare]; [stop_throws] as in [Teardown].  When no screen
    track is held the executor calls neither [resolve] nor [reject]. *)
Definition stopScreenShare (stop_throws : option string) (st : Engine)
    : Promise unit * Engine :=
  match currentScreenTrack st with
  | None => (Pending, st)
  | Some track =>
      match (sdkCall (Call_stop track);;
             raise stop_throws;;
             modify (set_currentScreenTrack None);;
             setVideoPriority high) st with
      | (Ok _, st') => (Resolved tt, st')
      | (Throw e, st') => (Rejected (StopScreenFailed (message e)), st')
      end
  end.

(** ** Device preferences *)

Definition setItem (key value : string) : M unit :=
  modify (fun st => set_localStorage (<[key := value]> (localStorage st)) st).

Definition removeItem (key : string) : M unit :=
  modify (fun st => set_localStorage (delete key (localStorage st)) st).

Definition assignDefaultAudioInputDeviceId (audioInputDeviceId : string) : M unit :=
  setItem "audioInputDeviceId" audioInputDeviceId.

Definition assignDefaultAudioOutputDeviceId (audioOutputDeviceId : string) : M unit :=
  setItem "audioOutputDeviceId" audioOutputDeviceId.

Definition assignDefaultVideoInputDeviceId (videoDeviceId : string) : M unit :=
  setItem "videoDeviceId" videoDeviceId.

Definition clearDefaultAudioInputDeviceId : M unit := removeItem "audioInputDeviceId".
Definition clearDefaultAudioOutputDeviceId : M unit := removeItem "audioOutputDeviceId".
Definition clearDefaultVideoInputDeviceId : M unit := removeItem "videoDeviceId".

Definition clearAllDefaultMediaDeviceIds : M unit :=
  clearDefaultAudioInputDeviceId;;
  clearDefaultAudioOutputDeviceId;;
  clearDefaultVideoInputDeviceId.

(** The engine as [new TwilioVideoConferenceEngine()] leaves it; the
    contents of [localStorage] and of [defaultConnectOptions] come from
    outside. *)
Definition newEngine (storage : gmap string string) (defaults : ConnectOptions) : Engine :=
  {| eventCallbacks := None; currentRoom := None; currentRoomDefined := false;
     currentConnectOptions := None; sharesDefaults := false;
     currentScreenTrack := None; deviceIds := None; localStorage := storage;
     defaultConnectOptions := defaults; listeners := []; trace := [] |}.

(** ** Everything the engine can be asked to do *)

(** A call of the public API with what the SDK answers to it, or an event
    fired by the SDK. *)
Inductive Action :=
| Do_init (event_callbacks : option (option (list string)))
| Do_joinRoom (accessToken roomName : option string)
    (connectOptions : option ConnectOptions) (answer : Room + string)
| Do_leaveRoom (roomName : string) (sdk : Leaving)
| Do_turnOnMyAudio (id : option string) (sdk : TurningOn)
| Do_turnOnMyVideo (id : option string) (sdk : TurningOn)
| Do_turnOffMyVideo (sdk : Teardown)
| Do_turnOffMyAudio (sdk : Teardown)
| Do_startScreenShare (height width : option nat) (sdk : ScreenShare)
| Do_stopScreenShare (stop_throws : option string)
| Do_assignDefaultAudioInputDeviceId (id : string)
| Do_assignDefaultAudioOutputDeviceId (id : string)
| Do_assignDefaultVideoInputDeviceId (id : string)
| Do_clearDefaultAudioInputDeviceId
| Do_clearDefaultAudioOutputDeviceId
| Do_clearDefaultVideoInputDeviceId
| Do_clearAllDefaultMediaDeviceIds
| Sdk_fires (ev : SdkEvent).

(** The state after an action, whatever it returned. *)
Definition perform (a : Action) (st : Engine) : Engine :=
  match a with
  | Do_init cbs => snd (init cbs st)
  | Do_joinRoom accessToken roomName connectOptions answer =>
      snd (joinRoom accessToken roomName connectOptions answer st)
  | Do_leaveRoom roomName sdk => snd (leaveRoom roomName sdk st)
  | Do_turnOnMyAudio id sdk => snd (turnOnMyAudio id sdk st)
  | Do_turnOnMyVideo id sdk => snd (turnOnMyVideo id sdk st)
  | Do_turnOffMyVideo sdk => snd (turnOffMyVideo sdk st)
  | Do_turnOffMyAudio sdk => snd (turnOffMyAudio sdk st)
  | Do_startScreenShare height width sdk => snd (startScreenShare height width sdk st)
  | Do_stopScreenShare stop_throws => snd (stopScreenShare stop_throws st)
  | Do_assignDefaultAudioInputDeviceId id => snd (assignDefaultAudioInputDeviceId id st)
  | Do_assignDefaultAudioOutputDeviceId id => snd (assignDefaultAudioOutputDeviceId id st)
  | Do_assignDefaultVideoInputDeviceId id => snd (assignDefaultVideoInputDeviceId id st)
  | Do_clearDefaultAudioInputDeviceId => snd (clearDefaultAudioInputDeviceId st)
  | Do_clearDefaultAudioOutputDeviceId => snd (clearDefaultAudioOutputDeviceId st)
  | Do_clearDefaultVideoInputDeviceId => snd (clearDefaultVideoInputDeviceId st)
  | Do_clearAllDefaultMediaDeviceIds => snd (clearAllDefaultMediaDeviceIds st)
  | Sdk_fires ev => snd (dispatch ev st)
  end.

Definition run (actions : list Action) (st : Engine) : Engine :=
  fold_left (fun st a => perform a st) actions st.

(** * Vocabulary of the properties *)

Local Open Scope list_scope.

(** ** Traces *)

(** The listener an effect attaches, if any. *)
Definition install (e : Effect) : option Listener :=
  match e with Install l => Some l | _ => None end.

(** The listeners a trace attaches, in order. *)
Definition installs (t : list Effect) : list Listener := omap install t.

(** The state after the effects [t]: they are appended to the trace and
    the listeners among them to the registry. *)
Definition grow (t : list Effect) (st : Engine) : Engine :=
  set_listeners (listeners st ++ installs t) (set_trace (trace st ++ t) st).

(** [m] returns [a] and has exactly the effects [t], whenever callbacks
    [cbs] are registered. *)
Definition emits (cbs : list string) {A} (m : M A) (a : A) (t : list Effect) : Prop :=
  forall st, eventCallbacks st = Some cbs -> m st = (Ok a, grow t st).

(** The entry [notifyOfEvent] leaves in the trace. *)
Definition notice (cbs : list string) (e : ConferenceEvent) (p : Payload) : Effect :=
  Notify {| eventType := e; args := p;
            delivered := existsb (String.eqb ("on" ++ event_name e)) cbs |}.

(** The entry [on] leaves in the trace. *)
Definition listener (e : Emitter) (ev : string) (c : Closure) : Effect :=
  Install {| emitter := e; event := ev; once := false; closure := c |}.

(** The statement [m] leaves the view [f] of the state as it is. *)
Definition preserves {X : Type} (f : Engine -> X) {A} (m : M A) : Prop :=
  forall st, f (snd (m st)) = f st.

(** The statement [m] only adds effects satisfying [P] to the trace. *)
Definition adds (P : Effect -> Prop) {A} (m : M A) : Prop :=
  forall st, exists t, trace (snd (m st)) = trace st ++ t /\ Forall P t.

(** Functions on the state that only add effects satisfying [P]. *)
Definition extends (P : Effect -> Prop) (f : Engine -> Engine) : Prop :=
  forall st, exists t, trace (f st) = trace st ++ t /\ Forall P t.

(** What the promise returned by an operation settles with. *)
Definition outcome {A} (r : Promise A * Engine) : Promise A := fst r.

(** ** The effects of [joinRoom] *)

(** The effects of [setupTrackMuteEvents(track, participant)]. *)
Definition muteListeners (track : option Track) (who : string) : list Effect :=
  match track with
  | Some t => [ listener (OnTrack (track_id t)) "disabled" (track_disabled t who);
                listener (OnTrack (track_id t)) "enabled" (track_enabled t who) ]
  | None => []
  end.

(** The effects of the body of the loop over [participant.tracks]. *)
Definition reportPublication (cbs : list string) (who : string) (isRemote : JsFlag)
    (pub : Publication) : list Effect :=
  (if isSubscribed pub || isSome (pub_track pub)
   then (if truthy isRemote && isSome (pub_track pub)
         then muteListeners (pub_track pub) who else []) ++
        [notice cbs ParticipantSubscribedTrack (OfTrack (spreadTrack pub) (Some who))]
   else []) ++
  [ listener (OnPublication (trackSid pub)) "subscribed" (publication_subscribed who isRemote);
    listener (OnPublication (trackSid pub)) "unsubscribed" (publication_unsubscribed who) ].

(** The effects of [participantConnected(participant, isRemote)]. *)
Definition wrapping (cbs : list string) (participant : Participant) (isRemote : JsFlag)
    : list Effect :=
  let who := p_sid participant in
  [notice cbs ParticipantConnected (OfParticipant (Some who))] ++
  flat_map (reportPublication cbs who isRemote) (tracks participant) ++
  [ listener (OnParticipant who) "trackSubscribed" (participant_trackSubscribed who isRemote);
    listener (OnParticipant who) "trackUnsubscribed" (participant_trackUnsubscribed who);
    listener (OnParticipant who) "trackPublished" (participant_trackPublished who);
    listener (OnParticipant who) "trackUnpublished" (participant_trackUnpublished who) ].

(** The effects of the callback of [Video.connect(...).then]. *)
Definition reporting (cbs : list string) (room : Room) : list Effect :=
  let here := OnRoom (room_sid room) in
  [notice cbs RoomConnected (OfRoom (room_sid room))] ++
  wrapping cbs (localParticipant room) (JsBool false) ++
  flat_map (fun p => wrapping cbs p (JsString (p_sid p))) (participants room) ++
  [ listener here "participantConnected" room_participantConnected;
    listener here "participantDisconnected" room_participantDisconnected;
    listener here "trackSubscribed" room_trackSubscribed;
    notice cbs ExistingParticipantsReportingComplete (OfRoom (room_sid room));
    listener here "dominantSpeakerChanged" room_dominantSpeakerChanged;
    Install {| emitter := here; event := "disconnected"; once := true;
               closure := room_disconnected |} ].

(** The part of the state [prepare] leaves alone. *)
Definition surroundings (st : Engine) :=
  (eventCallbacks st, currentRoom st, currentScreenTrack st, localStorage st,
   listeners st, trace st).

(** A notification of the initial roster: a participant or one of its
    tracks. *)
Definition rosterEvent (n : Notification) : Prop :=
  eventType n = ParticipantConnected \/ eventType n = ParticipantSubscribedTrack.

(** The error of the first of the three checks that fails. *)
Definition missingInput (accessToken roomName : option string) : EngineError :=
  if negb (isSome (supplied accessToken)) then MissingCredentials
  else if negb (isSome (supplied roomName)) then MissingRoomName
  else HandlersNotRegistered.

(** ** The effects of [leaveRoom] *)

(** A [ParticipantDisconnected] notification. *)
Definition isDisconnection (n : Notification) : bool :=
  ConferenceEvent_eqb (eventType n) ParticipantDisconnected.

(** The arguments of the [ParticipantDisconnected] notifications of a
    trace, in order. *)
Definition disconnections (t : list Effect) : list Payload :=
  map args (List.filter isDisconnection (notifications t)).

(** The local participant, then the remote participants in the order of
    [room.participants]. *)
Definition leavers (room : Room) : list Payload :=
  OfParticipant (Some (p_sid (localParticipant room))) ::
  map (fun p => OfParticipant (Some (p_sid p))) (participants room).

(** The closure [joinRoom] passes to [room.once("disconnected", ...)]. *)
Definition isRoomDisconnected (c : Closure) : bool :=
  match c with room_disconnected => true | _ => false end.

(** The [once("disconnected")] listeners of [joinRoom] still attached to
    the room. *)
Definition disconnectListeners (st : Engine) (room : Room) : list Listener :=
  List.filter (fun l => isRoomDisconnected (closure l))
    (List.filter (listensTo (Ev_disconnected room None)) (listeners st)).

(** The Room object is new: nothing listens to its "disconnected" event
    yet.  Every [Video.connect] resolves with such a room. *)
Definition newRoom (st : Engine) (room : Room) : Prop :=
  List.filter (listensTo (Ev_disconnected room None)) (listeners st) = [].

(** The listener [joinRoom] attaches with [room.once("disconnected", ...)]. *)
Definition disconnectedOnce (room : Room) : Listener :=
  {| emitter := OnRoom (room_sid room); event := "disconnected"; once := true;
     closure := room_disconnected |}.

(** The listeners of a participant, of its publications and of their
    tracks: those attached to no room. *)
Definition offRoom (l : Listener) : bool :=
  match emitter l with OnRoom _ => false | _ => true end.

(** What identifies the session: the room, its local participant and its
    remote participants. *)
Definition session (st : Engine) :=
  option_map (fun r => (room_sid r, p_sid (localParticipant r), participants r))
             (currentRoom st).

(** The effects of the [once("disconnected")] listener. *)
Definition roomCompletion (cbs : list string) (room : Room) (error : option Payload)
    : list Effect :=
  map (notice cbs ParticipantDisconnected) (leavers room) ++
  [ match error with
    | None => notice cbs RoomCompleted (OfRoom (room_sid room))
    | Some error => notice cbs ErrorOccured error
    end ].

(** The effects of a listener called with the "disconnected" event. *)
Definition echo (cbs : list string) (room : Room) (error : option Payload)
    (l : Listener) : list Effect :=
  if isRoomDisconnected (closure l) then roomCompletion cbs room error else [].

(** The effects of [leaveRoom] itself, between the teardown of the local
    tracks and the event the SDK may fire from [room.disconnect()]. *)
Definition leaving (cbs : list string) (room : Room) (roomName : string) : list Effect :=
  map (notice cbs ParticipantDisconnected) (leavers room) ++
  [ notice cbs Debug (OfMessage ("Disconnected from room " ++ roomName)%string);
    Call (Call_disconnect (room_sid room)) ].

(** [leaveRoom] after the two [turnOffMy] calls. *)
Definition leaveRoom_rest (roomName : string) (fires : option (option Payload)) : M unit :=
  let* st0 := get in
  notifyOfEvent ParticipantDisconnected
    (OfParticipant (option_map (fun r => p_sid (localParticipant r)) (currentRoom st0)));;
  match currentRoom st0 with
  | None => ret tt
  | Some room =>
      forEach (participants room) (fun participant =>
        notifyOfEvent ParticipantDisconnected (OfParticipant (Some (p_sid participant))));;
      notifyOfEvent Debug (OfMessage ("Disconnected from room " ++ roomName)%string);;
      sdkCall (Call_disconnect (room_sid room));;
      match fires with
      | Some firstArg => dispatch (Ev_disconnected room firstArg)
      | None => ret tt
      end;;
      modify (set_currentRoom None)
  end.

(** ** Screen share and priorities *)

(** The SDK calls of a successful [startScreenShare]. *)
Definition sharing (height width : option nat) (sdk : ScreenShare) (id : string)
    (room : Room) : list SdkCall :=
  [ if supportsGetDisplayMedia sdk then Call_getDisplayMedia height width
    else Call_getUserMedia height width ] ++
  map (fun pub => Call_setPriority (trackSid pub) low) (videoTracks (localParticipant room)) ++
  [ Call_publishTrack (LocalVideoTrack id) (Some high) ].

(** [given || fallback] *)
Definition orElse (given fallback : option nat) : option nat :=
  if truthy_nat given then given else fallback.

(** A call of [track.stop()]. *)
Definition isStop (c : SdkCall) : bool :=
  match c with Call_stop _ => true | _ => false end.

(** The tracks [stop()] has been called on, in order. *)
Definition stops (st : Engine) : list SdkCall := List.filter isStop (calls st).

(** The video publications of the local participant of the current room. *)
Definition localVideo (st : Engine) : list Publication :=
  match currentRoom st with
  | Some room => videoTracks (localParticipant room)
  | None => []
  end.

(** The publication of a shared screen track. *)
Definition screenPublication (sid id : string) (p : Priority) : Publication :=
  {| trackSid := sid; pub_kind := Video; pub_track := Some (LocalVideoTrack id);
     isSubscribed := false; pub_priority := p |}.

(** The screen capture is granted and the track gets published. *)
Definition granted (sdk : ScreenShare) (id sid : string) : Prop :=
  canScreenshare sdk = true /\ capture sdk = Some id /\ publishTrack_answer sdk = inl sid.

(** ** Track notifications *)

(** What the descriptor of a track notification is made from: a live SDK
    track, a publication, or a media kind alone. *)
Inductive Origin :=
| FromTrack (t : Track)
| FromPublication (pub : Publication)
| Forced (k : MediaType).

Definition descriptorOf (o : Origin) : TrackDescriptor :=
  match o with
  | FromTrack t => liveTrack t
  | FromPublication pub => spreadTrack pub
  | Forced k => kindOnly k
  end.

(** The media kind each of them gives the descriptor: a publication gives
    the kind of the track it holds, and none when it holds no track. *)
Definition kindOf (o : Origin) : option MediaType :=
  match o with
  | FromTrack t => Some (track_kind t)
  | FromPublication pub => option_map track_kind (pub_track pub)
  | Forced k => Some k
  end.

(** The publications [participantConnected] reports as subscribed tracks. *)
Definition reported (participant : Participant) (pub : Publication) : Prop :=
  In pub (tracks participant) /\
  (isSubscribed pub || isSome (pub_track pub)) = true.

(** What the listeners of an SDK event make their track notifications
    from: the track or the publication the event carries; for a mute
    event, which carries none, the track its listener was installed on. *)
Definition fromEvent (ev : SdkEvent) (o : Origin) : Prop :=
  match ev with
  | Ev_participantConnected _ participant =>
      match o with FromPublication pub => reported participant pub | _ => False end
  | Ev_subscribed _ track | Ev_unsubscribed _ track
  | Ev_trackSubscribed _ track | Ev_trackUnsubscribed _ track =>
      match o with FromTrack t => t = track | _ => False end
  | Ev_trackPublished _ publication | Ev_trackUnpublished _ publication =>
      match o with FromPublication pub => pub = publication | _ => False end
  | Ev_disabled _ | Ev_enabled _ =>
      match o with FromTrack _ => True | _ => False end
  | _ => False
  end.

(** What an action makes its track notifications from. *)
Definition origin (a : Action) (o : Origin) : Prop :=
  match a with
  | Do_joinRoom _ _ _ (inl room) =>
      match o with
      | FromPublication pub =>
          exists participant,
            In participant (localParticipant room :: participants room) /\
            reported participant pub
      | _ => False
      end
  | Do_turnOffMyVideo _ => o = Forced Video
  | Do_turnOffMyAudio _ => o = Forced Audio
  | Do_leaveRoom _ _ => match o with Forced _ => True | _ => False end
  | Sdk_fires ev => fromEvent ev o
  | _ => False
  end.

(** A track notification carries a participant and a descriptor made from
    an origin of one of the actions done. *)
Definition sourced (actions : list Action) (n : Notification) : Prop :=
  match eventType n with
  | ParticipantSubscribedTrack | ParticipantUnsubscribedTrack =>
      exists a o who,
        In a actions /\ origin a o /\
        args n = OfTrack (descriptorOf o) (Some who) /\
        td_kind (descriptorOf o) = kindOf o
  | _ => True
  end.

(** ** Device identifiers *)

(** The object [connectOptions] refers to after
    [connectOptions = connectOptions || defaultConnectOptions]. *)
Definition effective (st : Engine) (connectOptions : option ConnectOptions) : ConnectOptions :=
  default (defaultConnectOptions st) connectOptions.

(** What [deviceIds] holds once [joinRoom] has passed its three checks. *)
Definition identifiers (st : Engine) : DeviceIds :=
  match deviceIds st with
  | Some ids => ids
  | None => {| ids_audio := localStorage st !! "audioInputDeviceId";
               ids_video := localStorage st !! "videoDeviceId" |}
  end.

(** The device identifier a media section ends up with. *)
Definition resolved (m : MediaOptions) (stored : option string) : option DeviceIdValue :=
  if truthy_deviceId (deviceId m) then deviceId m else Some (DeviceExact stored).

(** The device identifiers and the connect options once [prepare] is
    through. *)
Definition resolution (st : Engine) := (deviceIds st, currentConnectOptions st).

(** ** A concrete session

    A room with the local participant publishing a microphone and a camera
    track and one remote participant who publishes a subscribed video
    track and an audio track not subscribed to yet. *)
Module Sample.

Definition mic : Track :=
  {| track_id := "mic"; track_kind := Audio; track_sid := None |}.
Definition cam : Track :=
  {| track_id := "cam"; track_kind := Video; track_sid := None |}.
Definition bobCam : Track :=
  {| track_id := "bob-cam"; track_kind := Video; track_sid := Some "MT3" |}.

Definition localPublication (sid : string) (t : Track) : Publication :=
  {| trackSid := sid; pub_kind := track_kind t; pub_track := Some t;
     isSubscribed := false; pub_priority := standard |}.

Definition bobAudio : Publication :=
  {| trackSid := "MT4"; pub_kind := Audio; pub_track := None;
     isSubscribed := false; pub_priority := standard |}.

Definition me : Participant :=
  {| p_sid := "PA-me";
     tracks := [localPublication "MT1" mic; localPublication "MT2" cam] |}.

Definition bob : Participant :=
  {| p_sid := "PA-bob";
     tracks := [ {| trackSid := "MT3"; pub_kind := Video; pub_track := Some bobCam;
                    isSubscribed := true; pub_priority := standard |};
                 bobAudio ] |}.

Definition room : Room :=
  {| room_sid := "RM1"; localParticipant := me; participants := [bob] |}.

Definition otherRoom : Room :=
  {| room_sid := "RM2"; localParticipant := me; participants := [] |}.

Definition noDevice : MediaOptions :=
  {| deviceId := None; width := Some 640; height := Some 480 |}.

Definition options : ConnectOptions :=
  {| name := None; audio := Some noDevice; video := Some noDevice |}.

(** An engine on which [init(registerCallbacks(...))] has been called. *)
Definition fresh : Engine :=
  set_eventCallbacks (Some registerCallbacks) (newEngine ∅ options).

(** The same engine once it has joined [room]. *)
Definition joined : Engine :=
  snd (joinRoom (Some "token") (Some "daily") (Some options) (inl room) fresh).

End Sample.

(** The SDK when nothing throws. *)
Definition smoothly : Teardown :=
  {| unpublishTrack_throws := None; stop_throws := None |}.

(** The SDK during [leaveRoom]: nothing throws, and [room.disconnect()]
    fires the room's "disconnected" event, as the SDK documents
    ([Room#disconnect] fires [Room#disconnected]).  The SDK emits the
    event with the room and then the error; the listener of [joinRoom]
    names one parameter, so what it receives as [error] is the room. *)
Definition firing : Leaving :=
  {| video_teardown := smoothly; audio_teardown := smoothly;
     disconnect_fires := Some (Some (OfRoom "RM1")) |}.

(** The SDK during a [turnOnMyVideo] that goes through: the camera gives
    a track, which is published. *)
Definition republishing : TurningOn :=
  {| createLocalTrack_answer := inl "cam-new"; publish_answer := inl "MT7" |}.

(** Two granted screen captures. *)
Definition firstShare : ScreenShare :=
  {| canScreenshare := true; supportsGetDisplayMedia := true;
     capture := Some "screen-1"; publishTrack_answer := inl "MT5" |}.

Definition secondShare : ScreenShare :=
  {| canScreenshare := true; supportsGetDisplayMedia := true;
     capture := Some "screen-2"; publishTrack_answer := inl "MT6" |}.

(** The sample session after two [startScreenShare] calls in succession. *)
Definition sharedTwice : Engine :=
  snd (startScreenShare None None secondShare
         (snd (startScreenShare None None firstShare Sample.joined))).

(** An engine whose [localStorage] already holds a camera preference. *)
Definition stored : Engine :=
  set_localStorage (<["videoDeviceId" := "cam-0"]> ∅) Sample.fresh.

(** Switching the camera, leaving the room, then changing the
    preferences. *)
Definition meanwhile : list Action :=
  [ Do_turnOnMyVideo (Some "cam-9") republishing;
    Do_leaveRoom "daily" firing;
    Do_assignDefaultVideoInputDeviceId "cam-1";
    Do_clearDefaultAudioInputDeviceId ].

(** * Vocabulary of the further properties *)

(** ** Delivery of notifications *)

(** The [delivered] mark of a notification is the one the callbacks [cbs]
    give it. *)
Definition faithful (cbs : list string) (e : Effect) : Prop :=
  match e with
  | Notify n =>
      delivered n = existsb (String.eqb ("on" ++ event_name (eventType n))) cbs
  | _ => True
  end.

(** With [cbs] registered, the statement [m] keeps them registered and
    adds only effects marked as [cbs] has it. *)
Definition notes (cbs : list string) {A} (m : M A) : Prop :=
  forall st, eventCallbacks st = Some cbs ->
    eventCallbacks (snd (m st)) = Some cbs /\
    exists t, trace (snd (m st)) = trace st ++ t /\ Forall (faithful cbs) t.

(** The same, for a function on the state. *)
Definition keepsNoting (cbs : list string) (f : Engine -> Engine) : Prop :=
  forall st, eventCallbacks st = Some cbs ->
    eventCallbacks (f st) = Some cbs /\
    exists t, trace (f st) = trace st ++ t /\ Forall (faithful cbs) t.

Definition isInit (a : Action) : bool :=
  match a with Do_init _ => true | _ => false end.

(** An engine on which [init(registerCallbacks(...))] was called. *)
Definition initialized (storage : gmap string string) (defaults : ConnectOptions)
    : Engine :=
  snd (init (Some (Some registerCallbacks)) (newEngine storage defaults)).

(** ** Failures *)

(** An error other than the two of the device checks. *)
Definition notDeviceMissing (e : EngineError) : Prop :=
  e <> NoAudioDevice /\ e <> NoVideoDevice.

Definition silent (e : Effect) : Prop :=
  match e with Call _ => False | _ => True end.

(** The sizes [startScreenShare] asks for are known: both are given, or the
    connect options of a [joinRoom] have a video section. *)
Definition sized (height width : option nat) (st : Engine) : Prop :=
  (truthy_nat height = true /\ truthy_nat width = true) \/
  (exists o v, currentConnectOptions st = Some o /\ video o = Some v).


(** ** Listeners and mute bridges *)

(** Every listener of [st] that was attached with [on] is still attached
    in [st']. *)
Definition attachedStill (st st' : Engine) : Prop :=
  forall l, In l (listeners st) -> once l = false -> In l (listeners st').

(** The statement [m] detaches no listener attached with [on]. *)
Definition retains {A} (m : M A) : Prop := forall st, attachedStill st (snd (m st)).

(** What a listener does when it is called with an event, callbacks [cbs]
    being registered. *)
Definition reaction (cbs : list string) (ev : SdkEvent) (l : Listener) : list Effect :=
  match closure l, ev with
  | room_participantConnected, Ev_participantConnected _ participant =>
      wrapping cbs participant (JsBool true)
  | room_participantDisconnected, Ev_participantDisconnected _ participant =>
      [notice cbs ParticipantDisconnected (OfParticipant (Some (p_sid participant)))]
  | room_trackSubscribed, Ev_roomTrackSubscribed _ track participant =>
      muteListeners (Some track) (p_sid participant)
  | room_dominantSpeakerChanged, Ev_dominantSpeakerChanged _ participant =>
      [notice cbs DominantSpeakerChanged (OfParticipant (option_map p_sid participant))]
  | room_disconnected, Ev_disconnected room error => roomCompletion cbs room error
  | publication_subscribed who isRemote, Ev_subscribed _ track
  | participant_trackSubscribed who isRemote, Ev_trackSubscribed _ track =>
      (if truthy isRemote then muteListeners (Some track) who else []) ++
      [notice cbs ParticipantSubscribedTrack (OfTrack (liveTrack track) (Some who))]
  | publication_unsubscribed who, Ev_unsubscribed _ track
  | participant_trackUnsubscribed who, Ev_trackUnsubscribed _ track =>
      [notice cbs ParticipantUnsubscribedTrack (OfTrack (liveTrack track) (Some who))]
  | participant_trackPublished who, Ev_trackPublished _ publication =>
      [notice cbs ParticipantSubscribedTrack (OfTrack (spreadTrack publication) (Some who))]
  | participant_trackUnpublished who, Ev_trackUnpublished _ publication =>
      [notice cbs ParticipantUnsubscribedTrack (OfTrack (spreadTrack publication) (Some who))]
  | track_disabled track who, Ev_disabled _ =>
      [notice cbs ParticipantUnsubscribedTrack (OfTrack (liveTrack track) (Some who))]
  | track_enabled track who, Ev_enabled _ =>
      [notice cbs ParticipantSubscribedTrack (OfTrack (liveTrack track) (Some who))]
  | _, _ => []
  end.

(** The event a track emits when it is muted ([muted = true]) or unmuted. *)
Definition muteEvent (muted : bool) (track : string) : SdkEvent :=
  if muted then Ev_disabled track else Ev_enabled track.

(** A mute bridge: a listener [setupTrackMuteEvents] has attached to the
    track with identifier [id], with the track and the participant it
    captured. *)
Definition bridge (muted : bool) (id : string) (l : Listener) : option (Track * string) :=
  if listensTo (muteEvent muted id) l
  then match closure l, muted with
       | track_disabled t who, true | track_enabled t who, false => Some (t, who)
       | _, _ => None
       end
  else None.

Definition bridges (muted : bool) (id : string) (st : Engine) : list (Track * string) :=
  omap (bridge muted id) (listeners st).

(** What a bridge tells the consumer. *)
Definition muteReport (cbs : list string) (muted : bool) (b : Track * string)
    : Notification :=
  {| eventType := if muted then ParticipantUnsubscribedTrack
                  else ParticipantSubscribedTrack;
     args := OfTrack (liveTrack (fst b)) (Some (snd b));
     delivered :=
       existsb (String.eqb
                  ("on" ++ event_name (if muted then ParticipantUnsubscribedTrack
                                       else ParticipantSubscribedTrack))%string) cbs |}.

(** The track a subscription event is about. *)
Definition subscribedTrack (ev : SdkEvent) : option Track :=
  match ev with
  | Ev_roomTrackSubscribed _ track _ | Ev_subscribed _ track
  | Ev_trackSubscribed _ track => Some track
  | _ => None
  end.

(** The participant under which a listener bridges the track of a
    subscription event it is called with: the room's listener always does,
    those of a participant and of its publications when [isRemote] is
    truthy. *)
Definition bridging (ev : SdkEvent) (l : Listener) : option string :=
  if listensTo ev l
  then match closure l, ev with
       | room_trackSubscribed, Ev_roomTrackSubscribed _ _ participant =>
           Some (p_sid participant)
       | publication_subscribed who isRemote, Ev_subscribed _ _
       | participant_trackSubscribed who isRemote, Ev_trackSubscribed _ _ =>
           if truthy isRemote then Some who else None
       | _, _ => None
       end
  else None.

(** * browser.js: what the browser can do *)

Module Browser.

(** The characters [\d] matches. *)
Definition isDigit (c : Ascii.ascii) : bool :=
  (48 <=? Ascii.N_of_ascii c)%N && (Ascii.N_of_ascii c <=? 57)%N.

(** The longest run of digits a string starts with: what [(\d+)] captures
    when it matches there. *)
Fixpoint digits (s : string) : string :=
  match s with
  | String c s' => if isDigit c then String c (digits s') else EmptyString
  | EmptyString => EmptyString
  end.

(** [parseInt(s, 10)] and [parseFloat(s)] of a string of digits.  The
    number is kept exact; the code only compares it with small constants,
    for which the rounding of large values to a double makes no
    difference. *)
Fixpoint parseDigits (acc : N) (s : string) : N :=
  match s with
  | String c s' => parseDigits (10 * acc + (Ascii.N_of_ascii c - 48))%N s'
  | EmptyString => acc
  end.

Definition parseInt (s : string) : N := parseDigits 0 s.

(** What is left of [s] after the prefix [p], when [s] starts with it. *)
Fixpoint after (p s : string) : option string :=
  match p, s with
  | EmptyString, _ => Some s
  | String a p', String b s' => if Ascii.eqb a b then after p' s' else None
  | String _ _, EmptyString => None
  end.

(** [s.includes(p)] *)
Fixpoint includes (p s : string) : bool :=
  match after p s with
  | Some _ => true
  | None => match s with
            | String _ s' => includes p s'
            | EmptyString => false
            end
  end.

(** [s.match(/<p>(\d+)/)]: the digits captured at the first place where
    [p] is followed by a digit, [None] for [null]. *)
Fixpoint matchVersion (p s : string) : option string :=
  match match after p s with
        | Some rest => match digits rest with
                       | EmptyString => None
                       | ds => Some ds
                       end
        | None => None
        end
  with
  | Some ds => Some ds
  | None => match s with
            | String _ s' => matchVersion p s'
            | EmptyString => None
            end
  end.

(** [navigator.mediaDevices].  [getSupportedConstraints] is [None] when
    the object has no such member, so that calling it throws; otherwise it
    tells whether the constraints the call returns report [mediaSource].
    [getDisplayMedia] tells whether there is a member of that name. *)
Record MediaDevices := {
  getSupportedConstraints : option bool;
  getDisplayMedia : bool
}.

(** [navigator]; [mediaDevices] is [None] where the browser does not
    provide it. *)
Record Navigator := {
  userAgent : string;
  mediaDevices : option MediaDevices
}.

(** The page: the constant [isMobile], computed when the module is
    loaded, and [navigator]. *)
Record Page := {
  isMobile : bool;
  navigator : Navigator
}.

(** The version a match stands for, 0 when there is no match. *)
Definition versionOr0 (matchData : option string) : N :=
  match matchData with Some ds => parseInt ds | None => 0%N end.

Definition isValidFirefoxForScreenshare (n : Navigator) : Result bool :=
  match mediaDevices n with
  | None => Throw (TypeError "Cannot read properties of undefined")
  | Some md =>
      match getSupportedConstraints md with
      | None =>
          Throw (TypeError
            "navigator.mediaDevices.getSupportedConstraints is not a function")
      | Some mediaSourceSupport =>
          let firefoxVersion := versionOr0 (matchVersion "Firefox/" (userAgent n)) in
          Ok (mediaSourceSupport && (52 <=? firefoxVersion)%N)
      end
  end.

(** [getFirefoxVersion]: [None] for [null]. *)
Definition getFirefoxVersion (n : Navigator) : option N :=
  option_map parseInt (matchVersion "Firefox/" (userAgent n)).

Definition isValidChromeForScreenshare (n : Navigator) : bool :=
  (71 <=? versionOr0 (matchVersion "Chrome/" (userAgent n)))%N.

(** [safariVersion >= 12.2], the version being a whole number. *)
Definition isValidSafariForScreenshare (n : Navigator) : bool :=
  if includes "Safari" (userAgent n)
  then let safariVersion := versionOr0 (matchVersion "Version/" (userAgent n)) in
       QArith_base.Qle_bool (QArith_base.Qmake 122 10)
                            (QArith_base.inject_Z (Z.of_N safariVersion))
  else false.

(** [canScreenshare]: the three tests are made in turn, each only when
    the ones before have failed. *)
Definition canScreenshare (w : Page) : Result bool :=
  if isMobile w then Ok false
  else if isValidChromeForScreenshare (navigator w) then Ok true
  else match isValidFirefoxForScreenshare (navigator w) with
       | Throw e => Throw e
       | Ok true => Ok true
       | Ok false => Ok (isValidSafariForScreenshare (navigator w))
       end.

(** [supportsGetDisplayMedia], as the truth value [createScreenTrack]
    tests. *)
Definition supportsGetDisplayMedia (w : Page) : Result bool :=
  let firefoxVersion := getFirefoxVersion (navigator w) in
  match canScreenshare w with
  | Throw e => Throw e
  | Ok false => Ok false
  | Ok true =>
      if match firefoxVersion with None => true | Some v => (66 <=? v)%N end
      then match mediaDevices (navigator w) with
           | Some md => Ok (getDisplayMedia md)
           | None => Ok false
           end
      else Ok false
  end.

End Browser.

(** What [createScreenTrack] finds out about the browser of page [w],
    together with the answers to the capture and to [publishTrack]. *)
Definition screenShareIn (w : Browser.Page) (capture : option string)
    (publishTrack_answer : string + string) : Result ScreenShare :=
  match Browser.canScreenshare w with
  | Throw e => Throw e
  | Ok false =>
      Ok {| canScreenshare := false; supportsGetDisplayMedia := false;
            capture := capture; publishTrack_answer := publishTrack_answer |}
  | Ok true =>
      match Browser.supportsGetDisplayMedia w with
      | Throw e => Throw e
      | Ok s => Ok {| canScreenshare := true; supportsGetDisplayMedia := s;
                      capture := capture; publishTrack_answer := publishTrack_answer |}
      end
  end.

(** User agents of the kind browsers send. *)
Definition safari12 : string :=
  "Mozilla/5.0 (Macintosh; Intel Mac OS X 10_14_6) AppleWebKit/605.1.15 (KHTML, like Gecko) Version/12.1.2 Safari/605.1.15".

Definition firefox60 : string :=
  "Mozilla/5.0 (X11; Linux x86_64; rv:60.0) Gecko/20100101 Firefox/60.0".

(** * selectmedia.js: the local input devices *)

Module Media.

(** [MediaDeviceInfo.kind] *)
Inductive DeviceKind := audioinput | videoinput | audiooutput.

Definition DeviceKind_eqb (a b : DeviceKind) : bool :=
  match a, b with
  | audioinput, audioinput | videoinput, videoinput | audiooutput, audiooutput => true
  | _, _ => false
  end.

(** [`${kind}input`] *)
Definition inputOf (k : MediaType) : DeviceKind :=
  match k with Audio => audioinput | Video => videoinput end.

Record MediaDeviceInfo := {
  kind : DeviceKind;
  deviceId : string;
  label : string
}.

(** What the module asks of the browser, of the SDK and of the caller's
    [render], in order. *)
Inductive Step :=
| GetUserMedia
| EnumerateDevices
| CreateLocalTracks (k : MediaType) (deviceId : string)
| Stop (k : MediaType) (track : Track)
| Render (k : MediaType) (track : Track).

(** The object [localTracks] and the steps made so far. *)
Record State := {
  audioTrack : option Track;
  videoTrack : option Track;
  log : list Step
}.

Definition initial : State := {| audioTrack := None; videoTrack := None; log := [] |}.

(** [localTracks[kind]] *)
Definition localTracks (s : State) (k : MediaType) : option Track :=
  match k with Audio => audioTrack s | Video => videoTrack s end.

Definition set_localTrack (k : MediaType) (t : option Track) (s : State) : State :=
  match k with
  | Audio => {| audioTrack := t; videoTrack := videoTrack s; log := log s |}
  | Video => {| audioTrack := audioTrack s; videoTrack := t; log := log s |}
  end.

Definition note (e : Step) (s : State) : State :=
  {| audioTrack := audioTrack s; videoTrack := videoTrack s; log := log s ++ [e] |}.

(** How the browser answers [getInputDevices]: [getUserMedia] is refused,
    [enumerateDevices] fails, or the devices are listed. *)
Inductive Enumeration :=
| PermissionDenied
| EnumerationFailed
| Enumerated (devices : list MediaDeviceInfo).

(** [getInputDevices]: the promise always resolves, with [null] ([None])
    when something went wrong. *)
Definition getInputDevices (k : MediaType) (answer : Enumeration) (s : State)
    : option (list MediaDeviceInfo) * State :=
  match answer with
  | PermissionDenied => (None, note GetUserMedia s)
  | EnumerationFailed => (None, note EnumerateDevices (note GetUserMedia s))
  | Enumerated devices =>
      (Some (List.filter (fun device => DeviceKind_eqb (kind device) (inputOf k)) devices),
       note EnumerateDevices (note GetUserMedia s))
  end.

(** [applyInputDevice]; [created] is the answer of [createLocalTracks]:
    the new track, or the message of the error it rejects with.  The
    caller's [render] is taken to return. *)
Definition applyInputDevice (k : MediaType) (id : string) (created : Track + string)
    (s : State) : Promise unit * State :=
  let s1 := note (CreateLocalTracks k id) s in
  match created with
  | inr reason => (Rejected (TransportError reason), s1)
  | inl track =>
      let s2 := match localTracks s1 k with
                | Some previous => note (Stop k previous) s1
                | None => s1
                end in
      (Resolved tt, note (Render k track) (set_localTrack k (Some track) s2))
  end.

(** The answers during one [selectDefaultMedia]: to the first enumeration,
    to [createLocalTracks] and to the second enumeration, made when the
    first one came without identifiers or labels. *)
Record Selecting := {
  first : Enumeration;
  created : Track + string;
  second : Enumeration
}.

(** [devices.every(({ deviceId, label }) => !deviceId || !label)] *)
Definition unlabelled (devices : list MediaDeviceInfo) : bool :=
  forallb (fun device => negb (truthy_string (deviceId device)) ||
                         negb (truthy_string (label device))) devices.

(** [selectDefaultMedia]: reading [devices[0].deviceId] throws when the
    enumeration gave [null] or no device of the kind. *)
Definition selectDefaultMedia (k : MediaType) (sdk : Selecting) (s : State)
    (storage : gmap string string) : Promise string * State * gmap string string :=
  match getInputDevices k (first sdk) s with
  | (None, s1) | (Some [], s1) =>
      (Rejected (TypeError "Cannot read properties of undefined"), s1, storage)
  | (Some (device :: others), s1) =>
      match applyInputDevice k (deviceId device) (created sdk) s1 with
      | (Rejected e, s2) => (Rejected e, s2, storage)
      | (Pending, s2) => (Pending, s2, storage)
      | (Resolved _, s2) =>
          match (if unlabelled (device :: others)
                 then getInputDevices k (second sdk) s2
                 else (Some (device :: others), s2)) with
          | (None, s3) | (Some [], s3) =>
              (Rejected (TypeError "Cannot read properties of undefined"), s3, storage)
          | (Some (device' :: _), s3) =>
              (Resolved (deviceId device'), s3,
               <[(MediaType_tag k ++ "DeviceId")%string := deviceId device']> storage)
          end
      end
  end.

(** The tracks of kind [k] handed to [render], and those stopped, in
    order. *)
Definition rendered (k : MediaType) (steps : list Step) : list Track :=
  omap (fun e => match e with
                 | Render k' t => if MediaType_eqb k' k then Some t else None
                 | _ => None
                 end) steps.

Definition stopped (k : MediaType) (steps : list Step) : list Track :=
  omap (fun e => match e with
                 | Stop k' t => if MediaType_eqb k' k then Some t else None
                 | _ => None
                 end) steps.

(** Every track that was rendered has been stopped, except the current
    one. *)
Definition tidy (s : State) : Prop :=
  forall k, rendered k (log s) = stopped k (log s) ++ option_list (localTracks s k).

End Media.

(** ** The engine and the media module side by side *)

Record World := {
  engine : Engine;
  media : Media.State
}.

(** [selectDefaultVideoSource] and [selectDefaultAudioSource]: the promise
    of [selectDefaultMedia] is dropped; the state is the one reached when
    it has settled. *)
Definition selectDefaultSource (k : MediaType) (sdk : Media.Selecting) (w : World) : World :=
  match Media.selectDefaultMedia k sdk (media w) (localStorage (engine w)) with
  | (_, s, storage) => {| engine := set_localStorage storage (engine w); media := s |}
  end.

Definition selectDefaultVideoSource := selectDefaultSource Video.
Definition selectDefaultAudioSource := selectDefaultSource Audio.

(** [changeVideoSource] and [changeAudioSource] *)
Definition changeSource (k : MediaType) (id : string) (created : Track + string)
    (w : World) : World :=
  {| engine := engine w; media := snd (Media.applyInputDevice k id created (media w)) |}.

Definition changeVideoSource := changeSource Video.
Definition changeAudioSource := changeSource Audio.

(** The members of selectmedia.js the engine can reach: those of
    [module.exports]. *)
Definition Media_exports : list string :=
  ["getInputDevices"; "selectDefaultMedia"; "applyInputDevice"].

(** [await Media.<member>(...)] in an [async] function, for a member whose
    call would give [result]: calling what is not exported throws, which
    rejects the promise of the function. *)
Definition callMedia {A} (member : string) (result : Promise A) : Promise A :=
  if existsb (String.eqb member) Media_exports then result
  else Rejected (TypeError ("Media." ++ member ++ " is not a function")).

(** [listAllAudioOutputDevices]; [result] is what [Media.getOutputDevices]
    would answer. *)
Definition listAllAudioOutputDevices (result : Promise (list Media.MediaDeviceInfo))
    (st : Engine) : Promise (list Media.MediaDeviceInfo) * Engine :=
  (callMedia "getOutputDevices" result, st).

(** [onMediaDevicesListChange]; [callback] tells whether one was given,
    [result] what [Media.registerOnMediaDevicesListChangeHandler] would
    answer. *)
Definition onMediaDevicesListChange (callback : bool) (result : Promise unit)
    (st : Engine) : Promise unit * Engine :=
  match when (negb callback)
          (notifyOfEvent ErrorOccured
             (OfMessage "onMediaDevicesListChange - callback was not supplied, no change handler will be registered"))
          st with
  | (Throw e, st') => (Rejected e, st')
  | (Ok _, st') => (callMedia "registerOnMediaDevicesListChangeHandler" result, st')
  end.

(** What is asked of the two modules, with the answers from outside. *)
Inductive Request :=
| Ask_selectDefaultSource (k : MediaType) (sdk : Media.Selecting)
| Ask_changeSource (k : MediaType) (id : string) (created : Track + string)
| Ask_engine (a : Action).

Definition serve (r : Request) (w : World) : World :=
  match r with
  | Ask_selectDefaultSource k sdk => selectDefaultSource k sdk w
  | Ask_changeSource k id created => changeSource k id created w
  | Ask_engine a => {| engine := perform a (engine w); media := media w |}
  end.

Definition serveAll (requests : list Request) (w : World) : World :=
  fold_left (fun w r => serve r w) requests w.

(** The world before anything was asked. *)
Definition newWorld (storage : gmap string string) (defaults : ConnectOptions) : World :=
  {| engine := newEngine storage defaults; media := Media.initial |}.

(** A laptop with a camera and a microphone, and a selection that goes
    well at once. *)
Definition webcam : Media.MediaDeviceInfo :=
  {| Media.kind := Media.videoinput; Media.deviceId := "cam-0";
     Media.label := "Integrated Webcam" |}.

Definition microphone : Media.MediaDeviceInfo :=
  {| Media.kind := Media.audioinput; Media.deviceId := "mic-0";
     Media.label := "Internal Microphone" |}.

Definition granting (track : Track) : Media.Selecting :=
  {| Media.first := Media.Enumerated [microphone; webcam];
     Media.created := inl track;
     Media.second := Media.Enumerated [microphone; webcam] |}.

Definition studio : World :=
  {| engine := Sample.fresh; media := Media.initial |}.

(** A camera enumerated before the permission was given, and a selection
    during which the second enumeration is refused. *)
Definition anonymousCamera : Media.MediaDeviceInfo :=
  {| Media.kind := Media.videoinput; Media.deviceId := ""; Media.label := "" |}.

Definition refusedLater : Media.Selecting :=
  {| Media.first := Media.Enumerated [anonymousCamera];
     Media.created := inl Sample.cam;
     Media.second := Media.PermissionDenied |}.

(** * browser.js: the parameters in the URL *)

Module Url.
Import Stdlib.Strings.Ascii.

(** [s.split(c)] for a separator of one character: the pieces between the
    separators, at least one. *)
Fixpoint split (c : Ascii.ascii) (s : string) : list string :=
  match s with
  | EmptyString => [EmptyString]
  | String a s' =>
      if Ascii.eqb a c then EmptyString :: split c s'
      else match split c s' with
           | piece :: pieces => String a piece :: pieces
           | [] => [String a EmptyString]
           end
  end.

(** [pieces.join(sep)] *)
Fixpoint join (sep : string) (pieces : list string) : string :=
  match pieces with
  | [] => EmptyString
  | [piece] => piece
  | piece :: pieces => (piece ++ sep ++ join sep pieces)%string
  end.

(** The character [c] does not occur in [s]. *)
Fixpoint free (c : Ascii.ascii) (s : string) : bool :=
  match s with
  | EmptyString => true
  | String a s' => negb (Ascii.eqb a c) && free c s'
  end.

Arguments split c%_char s%_string.
Arguments free c%_char s%_string.

(** A string in which none of "?", "&" and "=" occurs. *)
Definition plain (s : string) : bool :=
  free "?"%char s && free "&"%char s && free "="%char s.

(** The characters the URL parser of the browser leaves as they are in a
    query string: the printable ASCII characters other than the space, the
    double quote, "#", "<", ">" and the apostrophe.  The parser writes the
    others as percent escapes or drops them, and "#" ends the query. *)
Definition keptChar (c : Ascii.ascii) : bool :=
  let n := Ascii.N_of_ascii c in
  (33 <=? n)%N && (n <=? 126)%N &&
  negb (n =? 34)%N && negb (n =? 35)%N && negb (n =? 39)%N &&
  negb (n =? 60)%N && negb (n =? 62)%N.

Fixpoint kept (s : string) : bool :=
  match s with
  | EmptyString => true
  | String a s' => keptChar a && kept s'
  end.

(** The part of [s] before the first [c], and the part from the first [c]
    on. *)
Fixpoint before (c : Ascii.ascii) (s : string) : string :=
  match s with
  | EmptyString => EmptyString
  | String a s' => if Ascii.eqb a c then EmptyString else String a (before c s')
  end.

Fixpoint since (c : Ascii.ascii) (s : string) : string :=
  match s with
  | EmptyString => EmptyString
  | String a s' => if Ascii.eqb a c then s else since c s'
  end.

(** [location.search] for a URL in which the parser has nothing to
    rewrite: what stands from the first "?" up to the first "#", and the
    empty string when that is the "?" alone. *)
Definition searchOf (url : string) : string :=
  let query := before "#"%char (since "?"%char url) in
  if String.eqb query "?" then EmptyString else query.

(** [object[name] = value] on an object created by [{}], whose members are
    strings: the assignment to "__proto__" goes to the setter inherited
    from [Object.prototype], which ignores a string. *)
Definition assign (name value : string) (object : gmap string string)
    : gmap string string :=
  if String.eqb name "__proto__" then object else <[name := value]> object.

(** [Object.assign(target, source)], the own enumerable members of
    [source] being given in their order. *)
Definition Object_assign (target : gmap string string) (source : list (string * string))
    : gmap string string :=
  fold_left (fun object '(name, value) => assign name value object) source target.

(** What [getUrlParams] returns: no member "__proto__", and names in
    which no separator occurs. *)
Definition parsed (object : gmap string string) : Prop :=
  object !! "__proto__" = None /\
  forall name value, object !! name = Some value -> plain name = true.

(** The names of an object are made of characters the URL parser keeps. *)
Definition keptNames (object : gmap string string) : Prop :=
  forall name value, object !! name = Some value -> kept name = true.

Section Uri.
(** [decodeURIComponent], [None] when it throws a [URIError], and
    [encodeURIComponent] on well-formed strings. *)
Variable decodeURIComponent : string -> option string.
Variable encodeURIComponent : string -> string.
(** [Object.entries]: the members in the order of enumeration. *)
Variable Object_entries : gmap string string -> list (string * string).

(** The body of the [reduce] in [getUrlParams]: a pair without "=" has
    the value [undefined], which [decodeURIComponent] reads as the string
    "undefined". *)
Definition addPair (params : option (gmap string string)) (nvpair : string)
    : option (gmap string string) :=
  match params with
  | None => None
  | Some params =>
      let pieces := split "="%char nvpair in
      let name := List.hd EmptyString pieces in
      let value := List.nth_error pieces 1 in
      match decodeURIComponent (default "undefined" value) with
      | Some decoded => Some (assign name decoded params)
      | None => None
      end
  end.

(** [getUrlParams], applied to [location.search]; [None] when it throws. *)
Definition getUrlParams (search : string) : option (gmap string string) :=
  let serializedParams := List.nth_error (split "?"%char search) 1 in
  let nvpairs :=
    match serializedParams with
    | Some s => if truthy_string s then split "&"%char s else []
    | None => []
    end in
  fold_left addPair nvpairs (Some ∅).

(** The text of one member in the query string. *)
Definition written (member : string * string) : string :=
  (fst member ++ "=" ++ encodeURIComponent (snd member))%string.

(** The query string [addUrlParams] builds from the members. *)
Definition serialize (entries : list (string * string)) : string :=
  join "&" (map (fun '(name, value) => (name ++ "=" ++ encodeURIComponent value)%string)
                entries).

(** [addUrlParams]: the URL handed to [history.pushState], [None] when
    [getUrlParams] throws. *)
Definition addUrlParams (search pathname : string) (params : list (string * string))
    : option string :=
  match getUrlParams search with
  | None => None
  | Some current =>
      let combinedParams := Object_assign current params in
      Some (pathname ++ "?" ++ serialize (Object_entries combinedParams))%string
  end.

End Uri.

(** A part of [encodeURIComponent] and [decodeURIComponent] that is
    enough to run the functions on an example: the three separators and
    the percent sign are written "%3F", "%26", "%3D" and "%25", and read
    back. *)
Fixpoint encodeSeparators (s : string) : string :=
  match s with
  | EmptyString => EmptyString
  | String a s' =>
      if Ascii.eqb a "?"%char then ("%3F" ++ encodeSeparators s')%string
      else if Ascii.eqb a "&"%char then ("%26" ++ encodeSeparators s')%string
      else if Ascii.eqb a "="%char then ("%3D" ++ encodeSeparators s')%string
      else if Ascii.eqb a "%"%char then ("%25" ++ encodeSeparators s')%string
      else String a (encodeSeparators s')
  end.

Fixpoint decodeSeparators (s : string) : string :=
  match s with
  | String a s' =>
      if Ascii.eqb a "%"%char
      then match s' with
           | String b (String c s'') =>
               if Ascii.eqb b "3"%char && Ascii.eqb c "F"%char
               then String "?"%char (decodeSeparators s'')
               else if Ascii.eqb b "2"%char && Ascii.eqb c "6"%char
               then String "&"%char (decodeSeparators s'')
               else if Ascii.eqb b "3"%char && Ascii.eqb c "D"%char
               then String "="%char (decodeSeparators s'')
               else if Ascii.eqb b "2"%char && Ascii.eqb c "5"%char
               then String "%"%char (decodeSeparators s'')
               else String a (decodeSeparators s')
           | _ => String a (decodeSeparators s')
           end
      else String a (decodeSeparators s')
  | EmptyString => EmptyString
  end.

End Url.

(** * Properties *)

(** ** Running a statement: what it adds to the trace *)

Lemma installs_app t1 t2 : installs (t1 ++ t2) = installs t1 ++ installs t2.
Proof. apply omap_app. Qed.

Lemma grow_nil st : grow [] st = st.
Proof. destruct st; unfold grow; simpl. by rewrite !app_nil_r. Qed.

Lemma grow_grow t1 t2 st : grow t2 (grow t1 st) = grow (t1 ++ t2) st.
Proof.
  unfold grow; simpl. rewrite installs_app, !app_assoc. reflexivity.
Qed.

Lemma bind_run {A B} (m : M A) (k : A -> M B) st a st' :
  m st = (Ok a, st') -> bind m k st = k a st'.
Proof. intros H. unfold bind. by rewrite H. Qed.

Section Emits.
Variable cbs : list string.

Lemma emits_ret {A} (a : A) : emits cbs (ret a) a [].
Proof. intros st _. unfold ret. by rewrite grow_nil. Qed.

Lemma emits_bind {A B} (m : M A) (k : A -> M B) a b t1 t2 :
  emits cbs m a t1 -> emits cbs (k a) b t2 -> emits cbs (bind m k) b (t1 ++ t2).
Proof.
  intros Hm Hk st Hst.
  rewrite (bind_run _ _ _ _ _ (Hm st Hst)).
  rewrite Hk by exact Hst. by rewrite grow_grow.
Qed.

Lemma emits_notify e p : emits cbs (notifyOfEvent e p) tt [notice cbs e p].
Proof.
  intros st Hst. unfold notifyOfEvent, bind, get. rewrite Hst.
  unfold record, modify, grow, notice; simpl. by rewrite app_nil_r.
Qed.

Lemma emits_addListener l : emits cbs (addListener l) tt [Install l].
Proof. intros st _. reflexivity. Qed.

Lemma emits_on e ev c : emits cbs (on e ev c) tt [listener e ev c].
Proof. apply emits_addListener. Qed.

Lemma emits_sdkCall c : emits cbs (sdkCall c) tt [Call c].
Proof.
  intros st _. unfold sdkCall, record, modify, grow; simpl.
  by rewrite app_nil_r.
Qed.

Lemma emits_when (b : bool) m t :
  emits cbs m tt t -> emits cbs (when b m) tt (if b then t else []).
Proof. unfold when. destruct b; [auto | intros _; apply emits_ret]. Qed.

Lemma emits_forEach {A} (xs : list A) (f : A -> M unit) (g : A -> list Effect) :
  (forall x, emits cbs (f x) tt (g x)) ->
  emits cbs (forEach xs f) tt (flat_map g xs).
Proof.
  intros Hf. induction xs as [|x xs IH]; simpl.
  - apply emits_ret.
  - apply emits_bind with (a := tt); [apply Hf | exact IH].
Qed.
End Emits.

(** ** What [participantConnected] does *)

Lemma emits_setupTrackMuteEvents cbs track who :
  emits cbs (setupTrackMuteEvents track who) tt (muteListeners track who).
Proof.
  destruct track as [t|]; simpl; [| apply emits_ret].
  apply (emits_bind cbs _ _ tt tt [_] [_]); apply emits_on.
Qed.

Lemma emits_participantConnected cbs participant isRemote :
  emits cbs (participantConnected participant isRemote) tt
        (wrapping cbs participant isRemote).
Proof.
  unfold participantConnected, wrapping.
  apply emits_bind with (a := tt); [apply emits_notify |].
  apply emits_bind with (a := tt).
  - apply emits_forEach. intros pub. unfold reportPublication.
    apply emits_bind with (a := tt).
    + apply emits_when. unfold trackSubscribed.
      apply emits_bind with (a := tt); [| apply emits_notify].
      apply emits_when, emits_setupTrackMuteEvents.
    + apply (emits_bind cbs _ _ tt tt [_] [_]); apply emits_on.
  - apply (emits_bind cbs _ _ tt tt [_] [_; _; _]); [apply emits_on |].
    apply (emits_bind cbs _ _ tt tt [_] [_; _]); [apply emits_on |].
    apply (emits_bind cbs _ _ tt tt [_] [_]); apply emits_on.
Qed.

(** ** What [joinRoom] does *)

Lemma connected_run cbs room st :
  eventCallbacks st = Some cbs ->
  connected room st = (Ok tt, set_currentRoom (Some room) (grow (reporting cbs room) st)).
Proof.
  intros Hst. unfold connected.
  rewrite (bind_run _ _ _ _ _ (emits_notify cbs _ _ st Hst)).
  unfold bind at 1, modify at 1.
  set (st1 := set_currentRoom _ _).
  assert (Hrest : emits cbs
    (participantConnected (localParticipant room) (JsBool false);;
     forEach (participants room)
       (fun participant => participantConnected participant (JsString (p_sid participant)));;
     on (OnRoom (room_sid room)) "participantConnected" room_participantConnected;;
     on (OnRoom (room_sid room)) "participantDisconnected" room_participantDisconnected;;
     on (OnRoom (room_sid room)) "trackSubscribed" room_trackSubscribed;;
     notifyOfEvent ExistingParticipantsReportingComplete (OfRoom (room_sid room));;
     on (OnRoom (room_sid room)) "dominantSpeakerChanged" room_dominantSpeakerChanged;;
     once_ (OnRoom (room_sid room)) "disconnected" room_disconnected) tt
    (wrapping cbs (localParticipant room) (JsBool false) ++
     flat_map (fun p => wrapping cbs p (JsString (p_sid p))) (participants room) ++
     [ listener (OnRoom (room_sid room)) "participantConnected" room_participantConnected ] ++
     [ listener (OnRoom (room_sid room)) "participantDisconnected" room_participantDisconnected ] ++
     [ listener (OnRoom (room_sid room)) "trackSubscribed" room_trackSubscribed ] ++
     [ notice cbs ExistingParticipantsReportingComplete (OfRoom (room_sid room)) ] ++
     [ listener (OnRoom (room_sid room)) "dominantSpeakerChanged" room_dominantSpeakerChanged ] ++
     [ Install {| emitter := OnRoom (room_sid room); event := "disconnected";
                  once := true; closure := room_disconnected |} ])).
  { apply emits_bind with (a := tt); [apply emits_participantConnected |].
    apply emits_bind with (a := tt).
    { apply emits_forEach. intros p. apply emits_participantConnected. }
    apply emits_bind with (a := tt); [apply emits_on |].
    apply emits_bind with (a := tt); [apply emits_on |].
    apply emits_bind with (a := tt); [apply emits_on |].
    apply emits_bind with (a := tt); [apply emits_notify |].
    apply emits_bind with (a := tt); [apply emits_on |].
    apply emits_addListener. }
  rewrite (Hrest st1) by exact Hst.
  subst st1. unfold reporting, grow; simpl.
  rewrite !installs_app, !app_nil_r.
  repeat rewrite <- app_assoc. reflexivity.
Qed.

(** Statements that leave a view [f] of the state as it is. *)
Section Preserves.
Context {X : Type} (f : Engine -> X).

Lemma preserves_ret {A} (a : A) : preserves f (ret a).
Proof. intros st; reflexivity. Qed.

Lemma preserves_throw {A} e : preserves f (@throw A e).
Proof. intros st; reflexivity. Qed.

Lemma preserves_get : preserves f get.
Proof. intros st; reflexivity. Qed.

Lemma preserves_bind {A B} (m : M A) (k : A -> M B) :
  preserves f m -> (forall a, preserves f (k a)) -> preserves f (bind m k).
Proof.
  intros Hm Hk st. unfold bind. specialize (Hm st).
  destruct (m st) as [[a|e] st']; simpl in *; [| exact Hm].
  rewrite Hk. exact Hm.
Qed.

Lemma preserves_modify g : (forall st, f (g st) = f st) -> preserves f (modify g).
Proof. intros Hg st; apply Hg. Qed.

Lemma preserves_when b m : preserves f m -> preserves f (when b m).
Proof. destruct b; [auto | intros _; apply preserves_ret]. Qed.

Lemma preserves_forEach {A} (xs : list A) (k : A -> M unit) :
  (forall x, preserves f (k x)) -> preserves f (forEach xs k).
Proof.
  intros Hk. induction xs; simpl; [apply preserves_ret |].
  apply preserves_bind; auto.
Qed.
End Preserves.

Ltac preserving :=
  repeat match goal with
    | |- preserves _ (ret _) => apply preserves_ret
    | |- preserves _ (throw _) => apply preserves_throw
    | |- preserves _ get => apply preserves_get
    | |- preserves _ (bind _ _) => apply preserves_bind
    | |- preserves _ (when _ _) => apply preserves_when
    | |- preserves _ (forEach _ _) => apply preserves_forEach
    | |- preserves _ (modify _) => apply preserves_modify; intros; reflexivity
    | |- preserves _ (let _ := _ in _) => cbv zeta
    | |- preserves _ (match ?x with _ => _ end) => destruct x
    | |- forall _, _ => intro
    end.

Lemma prepare_surroundings accessToken roomName connectOptions :
  preserves surroundings (prepare accessToken roomName connectOptions).
Proof.
  unfold prepare, lift, store, fetchDeviceIds. preserving.
Qed.

Lemma prepare_registered accessToken roomName connectOptions st x st1 :
  prepare accessToken roomName connectOptions st = (Ok x, st1) ->
  exists cbs, eventCallbacks st = Some cbs.
Proof.
  unfold prepare.
  destruct (supplied accessToken); [| discriminate].
  destruct (supplied roomName); [| discriminate].
  unfold bind at 1, get at 1.
  destruct (eventCallbacks st); [eauto | discriminate].
Qed.

Lemma notifications_app t1 t2 :
  notifications (t1 ++ t2) = notifications t1 ++ notifications t2.
Proof. apply omap_app. Qed.

Lemma sdkCalls_app t1 t2 : sdkCalls (t1 ++ t2) = sdkCalls t1 ++ sdkCalls t2.
Proof. apply omap_app. Qed.

Lemma muteListeners_silent track who : notifications (muteListeners track who) = [].
Proof. by destruct track. Qed.

Lemma reportPublication_roster cbs who isRemote pub :
  Forall rosterEvent (notifications (reportPublication cbs who isRemote pub)).
Proof.
  unfold reportPublication. rewrite notifications_app. apply Forall_app; split.
  - destruct (isSubscribed pub || isSome (pub_track pub)); [| constructor].
    rewrite notifications_app. apply Forall_app; split.
    + destruct (truthy isRemote && isSome (pub_track pub)); [| constructor].
      rewrite muteListeners_silent. constructor.
    + constructor; [red; simpl; tauto | constructor].
  - constructor.
Qed.

Lemma flat_map_roster {A} (g : A -> list Effect) xs :
  (forall x, Forall rosterEvent (notifications (g x))) ->
  Forall rosterEvent (notifications (flat_map g xs)).
Proof.
  intros Hg. induction xs as [|x xs IH]; [constructor |].
  cbn [flat_map]. rewrite notifications_app. apply Forall_app; split; auto.
Qed.

Lemma wrapping_roster cbs participant isRemote :
  Forall rosterEvent (notifications (wrapping cbs participant isRemote)).
Proof.
  unfold wrapping. rewrite !notifications_app.
  apply Forall_app; split; [constructor; [red; simpl; tauto | constructor] |].
  apply Forall_app; split; [| constructor].
  apply flat_map_roster. intros pub. apply reportPublication_roster.
Qed.

Lemma joinRoom_resolved accessToken roomName connectOptions answer st room st' :
  joinRoom accessToken roomName connectOptions answer st = (Resolved room, st') ->
  exists cbs token options st1,
    prepare accessToken roomName connectOptions st = (Ok (token, options), st1) /\
    eventCallbacks st = Some cbs /\
    answer = inl room /\
    st' = set_currentRoom (Some room)
            (grow (Call (Call_connect token options) :: reporting cbs room) st1).
Proof.
  unfold joinRoom. intros H.
  destruct (prepare accessToken roomName connectOptions st)
    as [[[token options]|e] st1] eqn:Hp; [| discriminate].
  destruct (prepare_registered _ _ _ _ _ _ Hp) as [cbs Hcbs].
  pose proof (prepare_surroundings accessToken roomName connectOptions st) as Hs.
  rewrite Hp in Hs. simpl in Hs.
  assert (Hcbs1 : eventCallbacks st1 = Some cbs).
  { unfold surroundings in Hs. inversion Hs. congruence. }
  destruct answer as [room'|reason]; [| discriminate].
  set (st2 := snd (sdkCall (Call_connect token options) st1)) in H.
  rewrite (connected_run cbs room' st2) in H by exact Hcbs1.
  inversion H; subst room'.
  exists cbs, token, options, st1. repeat split; try done.
  subst st2. unfold sdkCall, record, modify, grow; simpl.
  rewrite <- !app_assoc. reflexivity.
Qed.

(** C1.  A successful [joinRoom] first notifies [RoomConnected], then runs
    [participantConnected] on the local participant with [isRemote = false]
    and on each participant already in the room with a truthy [isRemote]
    (the key under which [room.participants] holds it, participant sids
    being non-empty), and only then notifies
    [ExistingParticipantsReportingComplete]; between the two notifications
    there are only those of the roster. *)
Theorem joinRoom_roster_between_connected_and_complete
    accessToken roomName connectOptions answer st room st' :
  joinRoom accessToken roomName connectOptions answer st = (Resolved room, st') ->
  Forall (fun p => p_sid p <> "") (participants room) ->
  exists cbs token options roster,
    let here := OnRoom (room_sid room) in
    let remote p := JsString (p_sid p) in
    trace st' =
      trace st ++
      [ Call (Call_connect token options);
        notice cbs RoomConnected (OfRoom (room_sid room)) ] ++
      wrapping cbs (localParticipant room) (JsBool false) ++
      flat_map (fun p => wrapping cbs p (remote p)) (participants room) ++
      [ listener here "participantConnected" room_participantConnected;
        listener here "participantDisconnected" room_participantDisconnected;
        listener here "trackSubscribed" room_trackSubscribed;
        notice cbs ExistingParticipantsReportingComplete (OfRoom (room_sid room));
        listener here "dominantSpeakerChanged" room_dominantSpeakerChanged;
        Install {| emitter := here; event := "disconnected"; once := true;
                   closure := room_disconnected |} ] /\
    truthy (JsBool false) = false /\
    Forall (fun p => truthy (remote p) = true) (participants room) /\
    map eventType (notified st') =
      map eventType (notified st) ++
      [RoomConnected] ++ map eventType roster ++ [ExistingParticipantsReportingComplete] /\
    Forall rosterEvent roster.
Proof.
  intros H Hsids.
  destruct (joinRoom_resolved _ _ _ _ _ _ _ H) as (cbs & token & options & st1 & Hp & _ & _ & ->).
  pose proof (prepare_surroundings accessToken roomName connectOptions st) as Hs.
  rewrite Hp in Hs. simpl in Hs. unfold surroundings in Hs.
  assert (Htr : trace st1 = trace st) by (inversion Hs; congruence).
  exists cbs, token, options,
    (notifications (wrapping cbs (localParticipant room) (JsBool false) ++
       flat_map (fun p => wrapping cbs p (JsString (p_sid p))) (participants room))).
  cbn zeta. repeat split.
  - simpl. rewrite Htr. unfold reporting. simpl. reflexivity.
  - eapply List.Forall_impl; [| exact Hsids]. intros p. simpl.
    destruct (p_sid p); [congruence | reflexivity].
  - unfold notified; simpl. rewrite Htr. unfold reporting.
    rewrite !notifications_app, !map_app. simpl.
    rewrite !notifications_app, !map_app. simpl.
    rewrite <- !app_assoc. reflexivity.
  - rewrite notifications_app. apply Forall_app; split.
    + apply wrapping_roster.
    + apply flat_map_roster. intros p. apply wrapping_roster.
Qed.

Lemma joinRoom_roster_between_connected_and_complete_witness :
  joinRoom (Some "token") (Some "daily") (Some Sample.options) (inl Sample.room)
    Sample.fresh = (Resolved Sample.room, Sample.joined) /\
  Forall (fun p => p_sid p <> "") (participants Sample.room) /\
  exists roster,
    map eventType (notified Sample.joined) =
      map eventType (notified Sample.fresh) ++
      [RoomConnected] ++ map eventType roster ++ [ExistingParticipantsReportingComplete] /\
    Forall rosterEvent roster.
Proof.
  assert (H1 : joinRoom (Some "token") (Some "daily") (Some Sample.options)
                 (inl Sample.room) Sample.fresh = (Resolved Sample.room, Sample.joined))
    by (vm_compute; reflexivity).
  assert (H2 : Forall (fun p => p_sid p <> "") (participants Sample.room))
    by (repeat constructor; discriminate).
  split; [exact H1 |]. split; [exact H2 |].
  destruct (joinRoom_roster_between_connected_and_complete _ _ _ _ _ _ _ H1 H2)
    as (cbs & token & options & roster & _ & _ & _ & Hn & Hr).
  exists roster. split; [exact Hn | exact Hr].
Defined.

(** ** What [leaveRoom] does *)

Lemma disconnections_app t1 t2 :
  disconnections (t1 ++ t2) = disconnections t1 ++ disconnections t2.
Proof.
  unfold disconnections. by rewrite notifications_app, List.filter_app, map_app.
Qed.

(** Turning a local track off keeps the session and notifies nobody's
    disconnection. *)
Lemma turnOffMy_session k sdk st :
  let st1 := snd (turnOffMy k sdk st) in
  session st1 = session st /\ eventCallbacks st1 = eventCallbacks st /\
  listeners st1 = listeners st /\
  exists t, trace st1 = trace st ++ t /\ disconnections t = [].
Proof.
  assert (Hnil : forall s, session s = session s /\ eventCallbacks s = eventCallbacks s /\
            listeners s = listeners s /\
            exists t, trace s = trace s ++ t /\ disconnections t = []).
  { intros s. repeat split. exists []. by rewrite app_nil_r. }
  unfold turnOffMy.
  destruct (currentRoom st) as [room|] eqn:Hroom; [| apply Hnil].
  destruct (tracksOfKind k (localParticipant room)) as [|pub pubs]; [apply Hnil |].
  destruct (pub_track pub) as [track|]; [| apply Hnil].
  unfold unpublishAndStop, trackUnsubscribed, notifyOfEvent, sdkCall, record, raise,
    bind, modify, get, throw, ret, session.
  destruct (unpublishTrack_throws sdk), (stop_throws sdk), (eventCallbacks st) eqn:Hcb;
    simpl; rewrite ?Hroom, ?Hcb; simpl; repeat split; try assumption;
    try (eexists; split; [reflexivity | reflexivity]);
    try (eexists; split; [rewrite <- !app_assoc; reflexivity | reflexivity]).
Qed.

Lemma flat_map_singleton {A B} (f : A -> B) xs :
  flat_map (fun x => [f x]) xs = map f xs.
Proof. induction xs; simpl; congruence. Qed.

Lemma emits_invoke_disconnected cbs room error l :
  emits cbs (invoke (closure l) (Ev_disconnected room error)) tt (echo cbs room error l).
Proof.
  unfold echo. destruct (closure l); simpl; try apply emits_ret.
  unfold roomCompletion, leavers. cbn [map].
  apply (emits_bind cbs _ _ tt tt [_]); [apply emits_notify |].
  apply emits_bind with (a := tt).
  - rewrite map_map, <- flat_map_singleton.
    apply emits_forEach. intros p. apply emits_notify.
  - destruct error; apply emits_notify.
Qed.

Lemma dispatch_disconnected cbs room error st :
  eventCallbacks st = Some cbs ->
  dispatch (Ev_disconnected room error) st =
    (Ok tt,
     grow (flat_map (echo cbs room error)
             (List.filter (listensTo (Ev_disconnected room error)) (listeners st)))
          (set_listeners
             (List.filter (fun l => negb (listensTo (Ev_disconnected room error) l && once l))
                (listeners st)) st)).
Proof.
  intros Hst. unfold dispatch, bind at 1, get at 1, bind at 1, modify at 1.
  apply (emits_forEach cbs _ _ (echo cbs room error)); [| exact Hst].
  intros l. apply emits_invoke_disconnected.
Qed.

Lemma isDisconnection_notice cbs p :
  notification (notice cbs ParticipantDisconnected p) =
    Some {| eventType := ParticipantDisconnected; args := p;
            delivered := existsb (String.eqb "onParticipantDisconnected") cbs |}.
Proof. reflexivity. Qed.

Lemma disconnections_leavers cbs xs :
  disconnections (map (notice cbs ParticipantDisconnected) xs) = xs.
Proof.
  unfold disconnections. induction xs as [|x xs IH]; [reflexivity |].
  cbn [map]. change (notifications (?a :: ?t)) with (omap notification (a :: t)).
  cbn [omap list_omap]. rewrite isDisconnection_notice.
  cbn [List.filter]. change (isDisconnection _) with true. cbn [map args].
  f_equal. exact IH.
Qed.

Lemma installs_notices cbs e xs : installs (map (notice cbs e) xs) = [].
Proof. induction xs; [reflexivity | exact IHxs]. Qed.

Lemma disconnections_roomCompletion cbs room error :
  disconnections (roomCompletion cbs room error) = leavers room.
Proof.
  unfold roomCompletion. rewrite disconnections_app, disconnections_leavers.
  destruct error; apply app_nil_r.
Qed.

Lemma installs_roomCompletion cbs room error : installs (roomCompletion cbs room error) = [].
Proof.
  unfold roomCompletion. rewrite installs_app, installs_notices. by destruct error.
Qed.

Lemma disconnections_echo cbs room error ls :
  disconnections (flat_map (echo cbs room error) ls) =
  flat_map (fun _ => leavers room)
    (List.filter (fun l => isRoomDisconnected (closure l)) ls).
Proof.
  induction ls as [|l ls IH]; [reflexivity |].
  cbn [flat_map List.filter]. rewrite disconnections_app, IH. unfold echo.
  destruct (isRoomDisconnected (closure l)); [| reflexivity].
  cbn [flat_map]. by rewrite disconnections_roomCompletion.
Qed.

Lemma listensTo_disconnected room room' error error' l :
  room_sid room = room_sid room' ->
  listensTo (Ev_disconnected room error) l = listensTo (Ev_disconnected room' error') l.
Proof. intros H. unfold listensTo; simpl. by rewrite H. Qed.

Lemma leaveRoom_unfold roomName sdk st :
  leaveRoom roomName sdk st =
  leaveRoom_rest roomName (disconnect_fires sdk)
    (snd (turnOffMy Audio (audio_teardown sdk)
       (snd (turnOffMy Video (video_teardown sdk) st)))).
Proof. reflexivity. Qed.

Lemma leaveRoom_tail cbs room roomName fires st :
  eventCallbacks st = Some cbs ->
  currentRoom st = Some room ->
  exists echoes,
    leaveRoom_rest roomName fires st =
    (Ok tt, set_currentRoom None
      (grow echoes
        (set_listeners
           (match fires with
            | Some _ => List.filter
                (fun l => negb (listensTo (Ev_disconnected room None) l && once l))
                (listeners st)
            | None => listeners st
            end)
           (grow (leaving cbs room roomName) st)))) /\
    installs echoes = [] /\
    disconnections echoes =
      match fires with
      | Some _ => flat_map (fun _ => leavers room) (disconnectListeners st room)
      | None => []
      end.
Proof.
  intros Hcb Hroom.
  assert (Hhead : emits cbs
    (notifyOfEvent ParticipantDisconnected
       (OfParticipant (Some (p_sid (localParticipant room))));;
     forEach (participants room) (fun participant =>
       notifyOfEvent ParticipantDisconnected (OfParticipant (Some (p_sid participant))));;
     notifyOfEvent Debug (OfMessage ("Disconnected from room " ++ roomName)%string);;
     sdkCall (Call_disconnect (room_sid room))) tt (leaving cbs room roomName)).
  { unfold leaving, leavers. cbn [map].
    apply (emits_bind cbs _ _ tt tt [_]); [apply emits_notify |].
    apply emits_bind with (a := tt).
    - rewrite map_map, <- flat_map_singleton.
      apply emits_forEach. intros p. apply emits_notify.
    - apply (emits_bind cbs _ _ tt tt [_] [_]); [apply emits_notify | apply emits_sdkCall]. }
  pose proof (Hhead st Hcb) as Hrun.
  assert (Hinst : installs (leaving cbs room roomName) = []).
  { unfold leaving. rewrite installs_app, installs_notices. reflexivity. }
  unfold leaveRoom_rest.
  unfold bind at 1, get at 1. rewrite Hroom. cbn [option_map].
  unfold bind in Hrun |- *.
  destruct (notifyOfEvent ParticipantDisconnected _ st) as [[[]|e] s1]; [| discriminate].
  destruct (forEach (participants room) _ s1) as [[[]|e] s2]; [| discriminate].
  destruct (notifyOfEvent Debug _ s2) as [[[]|e] s3]; [| discriminate].
  rewrite Hrun.
  destruct fires as [firstArg|].
  - rewrite (dispatch_disconnected cbs) by exact Hcb.
    eexists. split; [| split].
    + unfold modify. f_equal. f_equal. f_equal. f_equal.
      change (listeners (grow (leaving cbs room roomName) st))
        with (listeners st ++ installs (leaving cbs room roomName)).
      rewrite Hinst, app_nil_r.
      apply List.filter_ext. intros l.
      by rewrite (listensTo_disconnected room room firstArg None).
    + clear. induction (List.filter _ _) as [|l ls IH]; [reflexivity |].
      cbn [flat_map]. rewrite installs_app, IH, app_nil_r. unfold echo.
      destruct (isRoomDisconnected (closure l)); [apply installs_roomCompletion | reflexivity].
    + rewrite disconnections_echo. unfold disconnectListeners.
      change (listeners (grow (leaving cbs room roomName) st))
        with (listeners st ++ installs (leaving cbs room roomName)).
      rewrite Hinst, app_nil_r. reflexivity.
  - exists []. split; [| split; reflexivity].
    unfold ret, modify. f_equal. f_equal.
    rewrite grow_nil. unfold grow. rewrite Hinst, app_nil_r. reflexivity.
Qed.

Lemma session_room st st' room :
  session st' = session st -> currentRoom st = Some room ->
  exists room', currentRoom st' = Some room' /\
    room_sid room' = room_sid room /\
    p_sid (localParticipant room') = p_sid (localParticipant room) /\
    participants room' = participants room.
Proof.
  unfold session. intros H Hroom. rewrite Hroom in H.
  destruct (currentRoom st') as [room'|]; [| discriminate].
  exists room'. simpl in H. inversion H. auto.
Qed.

(** The trace of [leaveRoom] in a session with registered callbacks: the
    teardown of the local tracks, which notifies no disconnection, then
    the notifications of [leaveRoom] itself and the call of
    [room.disconnect()], then what the listeners of the room's
    "disconnected" event add, one round for each of them. *)
Lemma leaveRoom_trace roomName sdk st room cbs :
  currentRoom st = Some room ->
  eventCallbacks st = Some cbs ->
  exists teardown echoes,
    fst (leaveRoom roomName sdk st) = Ok tt /\
    trace (snd (leaveRoom roomName sdk st)) =
      trace st ++ teardown ++ leaving cbs room roomName ++ echoes /\
    disconnections teardown = [] /\
    disconnections (leaving cbs room roomName) = leavers room /\
    disconnections echoes =
      match disconnect_fires sdk with
      | Some _ => flat_map (fun _ => leavers room) (disconnectListeners st room)
      | None => []
      end /\
    currentRoom (snd (leaveRoom roomName sdk st)) = None.
Proof.
  intros Hroom Hcb.
  set (st1 := snd (turnOffMy Video (video_teardown sdk) st)).
  set (st2 := snd (turnOffMy Audio (audio_teardown sdk) st1)).
  destruct (turnOffMy_session Video (video_teardown sdk) st)
    as (Hs1 & Hc1 & Hl1 & t1 & Ht1 & Hd1).
  destruct (turnOffMy_session Audio (audio_teardown sdk) st1)
    as (Hs2 & Hc2 & Hl2 & t2 & Ht2 & Hd2).
  fold st1 in Hs1, Hc1, Hl1, Ht1. fold st2 in Hs2, Hc2, Hl2, Ht2.
  assert (Hs : session st2 = session st) by congruence.
  destruct (session_room _ _ _ Hs Hroom) as (room2 & Hroom2 & Hsid & Hlocal & Hremote).
  assert (Hcb2 : eventCallbacks st2 = Some cbs) by congruence.
  destruct (leaveRoom_tail cbs room2 roomName (disconnect_fires sdk) st2 Hcb2 Hroom2)
    as (echoes & Hrun & Hinst & Hecho).
  assert (Hleavers : leavers room2 = leavers room)
    by (unfold leavers; congruence).
  assert (Hleaving : leaving cbs room2 roomName = leaving cbs room roomName)
    by (unfold leaving; congruence).
  assert (Heq : leaveRoom roomName sdk st = (Ok tt, snd (leaveRoom roomName sdk st)) /\
                trace (snd (leaveRoom roomName sdk st)) =
                  trace st2 ++ leaving cbs room2 roomName ++ echoes /\
                currentRoom (snd (leaveRoom roomName sdk st)) = None).
  { rewrite leaveRoom_unfold. fold st1. fold st2. rewrite Hrun.
    cbn [fst snd]. repeat split.
    unfold grow. cbn [trace set_currentRoom set_listeners set_trace].
    by rewrite app_assoc. }
  destruct Heq as (Heq & Htrace & Hnone).
  exists (t1 ++ t2), echoes.
  split; [by rewrite Heq |].
  split; [rewrite Htrace, Ht2, Ht1, Hleaving, <- !app_assoc; reflexivity |].
  split; [by rewrite disconnections_app, Hd1, Hd2 |].
  split.
  { unfold leaving. rewrite disconnections_app, disconnections_leavers.
    apply app_nil_r. }
  split; [| exact Hnone].
  rewrite Hecho. destruct (disconnect_fires sdk); [| reflexivity].
  rewrite Hleavers. f_equal. unfold disconnectListeners.
  rewrite Hl2, Hl1. f_equal. apply List.filter_ext. intros l.
  by apply listensTo_disconnected.
Qed.

Lemma listensTo_offRoom room error l :
  offRoom l = true -> listensTo (Ev_disconnected room error) l = false.
Proof.
  unfold offRoom, listensTo. cbn [source]. by destruct (emitter l).
Qed.

Lemma muteListeners_offRoom track who :
  Forall (fun l => offRoom l = true) (installs (muteListeners track who)).
Proof. destruct track; repeat constructor. Qed.

Lemma wrapping_offRoom cbs participant isRemote :
  Forall (fun l => offRoom l = true) (installs (wrapping cbs participant isRemote)).
Proof.
  unfold wrapping. cbv zeta. rewrite !installs_app.
  repeat (apply Forall_app; split); try by repeat constructor.
  induction (tracks participant) as [|pub pubs IH]; [constructor |].
  cbn [flat_map]. rewrite installs_app. apply Forall_app; split; [| exact IH].
  unfold reportPublication. rewrite installs_app.
  apply Forall_app; split; [| by repeat constructor].
  destruct (isSubscribed pub || isSome (pub_track pub)); [| constructor].
  rewrite installs_app. apply Forall_app; split; [| constructor].
  destruct (truthy isRemote && isSome (pub_track pub)); [| constructor].
  apply muteListeners_offRoom.
Qed.

Lemma filter_offRoom room error ls :
  Forall (fun l => offRoom l = true) ls ->
  List.filter (listensTo (Ev_disconnected room error)) ls = [].
Proof.
  induction 1 as [|l ls Hl _ IH]; [reflexivity |].
  cbn [List.filter]. by rewrite (listensTo_offRoom room error l Hl).
Qed.

(** The listeners [joinRoom] attaches, among them one for the room's
    "disconnected" event. *)
Lemma reporting_disconnected cbs room :
  List.filter (listensTo (Ev_disconnected room None)) (installs (reporting cbs room)) =
  [disconnectedOnce room].
Proof.
  unfold reporting. cbv zeta. rewrite !installs_app, !List.filter_app.
  rewrite (filter_offRoom room None _ (wrapping_offRoom cbs _ _)).
  assert (Hroster : List.filter (listensTo (Ev_disconnected room None))
            (installs (flat_map (fun p => wrapping cbs p (JsString (p_sid p)))
                                (participants room))) = []).
  { apply filter_offRoom. induction (participants room) as [|p ps IH]; [constructor |].
    cbn [flat_map]. rewrite installs_app. apply Forall_app; split; [| exact IH].
    apply wrapping_offRoom. }
  rewrite Hroster. unfold installs, listener, notice, listensTo, disconnectedOnce.
  cbn [omap list_omap install List.filter app emitter event source ev_name Emitter_eqb].
  rewrite String.eqb_refl. reflexivity.
Qed.

(** A [joinRoom] that resolves with a new Room object leaves exactly one
    listener on its "disconnected" event, the one attached with [once]. *)
Lemma joinRoom_attaches_one_disconnected_listener
    accessToken roomName connectOptions answer st room st' :
  joinRoom accessToken roomName connectOptions answer st = (Resolved room, st') ->
  newRoom st room ->
  disconnectListeners st' room = [disconnectedOnce room].
Proof.
  intros H Hnew.
  destruct (joinRoom_resolved _ _ _ _ _ _ _ H) as (cbs & token & options & st1 & Hp & _ & _ & ->).
  pose proof (prepare_surroundings accessToken roomName connectOptions st) as Hs.
  rewrite Hp in Hs. cbn [snd] in Hs. unfold surroundings in Hs.
  assert (Hls : listeners st1 = listeners st) by (inversion Hs; congruence).
  unfold disconnectListeners, grow.
  cbn [listeners set_currentRoom set_listeners set_trace].
  change (installs (Call (Call_connect token options) :: reporting cbs room))
    with (installs (reporting cbs room)).
  rewrite Hls, List.filter_app. unfold newRoom in Hnew.
  rewrite Hnew, reporting_disconnected. reflexivity.
Qed.

(** C2, as the code has it.  In a session with registered callbacks whose
    room carries the one "disconnected" listener of its own [joinRoom],
    [leaveRoom] itself notifies [ParticipantDisconnected] exactly once for
    the local participant and then once for each remote participant of the
    room, in that order, after the teardown of the local tracks and before
    it calls [room.disconnect()].  When the SDK fires the room's
    "disconnected" event from that call, the listener notifies them all
    once more, in the same order: every participant is then notified
    exactly twice.  When the event does not fire, exactly once. *)
Theorem leaveRoom_notifies_twice_when_disconnected_fires roomName sdk st room cbs :
  currentRoom st = Some room ->
  eventCallbacks st = Some cbs ->
  disconnectListeners st room = [disconnectedOnce room] ->
  exists teardown echoes,
    fst (leaveRoom roomName sdk st) = Ok tt /\
    trace (snd (leaveRoom roomName sdk st)) =
      trace st ++ teardown ++ leaving cbs room roomName ++ echoes /\
    disconnections teardown = [] /\
    disconnections (leaving cbs room roomName) = leavers room /\
    disconnections echoes =
      (if isSome (disconnect_fires sdk) then leavers room else []) /\
    disconnections (teardown ++ leaving cbs room roomName ++ echoes) =
      (if isSome (disconnect_fires sdk) then leavers room ++ leavers room
       else leavers room) /\
    currentRoom (snd (leaveRoom roomName sdk st)) = None.
Proof.
  intros Hroom Hcb Hone.
  destruct (leaveRoom_trace roomName sdk st room cbs Hroom Hcb)
    as (teardown & echoes & Hok & Htrace & Ht & Hl & He & Hnone).
  assert (He' : disconnections echoes =
                if isSome (disconnect_fires sdk) then leavers room else []).
  { rewrite He, Hone. destruct (disconnect_fires sdk); [| reflexivity].
    cbn [flat_map isSome]. apply app_nil_r. }
  exists teardown, echoes. repeat split; try assumption.
  rewrite !disconnections_app, Ht, Hl, He'. cbn [app].
  destruct (disconnect_fires sdk); cbn [isSome]; [reflexivity | apply app_nil_r].
Qed.

Lemma leaveRoom_notifies_twice_when_disconnected_fires_witness :
  newRoom Sample.fresh Sample.room /\
  exists teardown echoes,
    trace (snd (leaveRoom "daily" firing Sample.joined)) =
      trace Sample.joined ++ teardown ++
      leaving registerCallbacks Sample.room "daily" ++ echoes /\
    disconnections (teardown ++ leaving registerCallbacks Sample.room "daily" ++ echoes) =
      leavers Sample.room ++ leavers Sample.room.
Proof.
  assert (Hnew : newRoom Sample.fresh Sample.room) by reflexivity.
  assert (Hjoin : joinRoom (Some "token") (Some "daily") (Some Sample.options)
                    (inl Sample.room) Sample.fresh = (Resolved Sample.room, Sample.joined))
    by (vm_compute; reflexivity).
  assert (H1 : currentRoom Sample.joined = Some Sample.room) by (vm_compute; reflexivity).
  assert (H2 : eventCallbacks Sample.joined = Some registerCallbacks)
    by (vm_compute; reflexivity).
  split; [exact Hnew |].
  destruct (leaveRoom_notifies_twice_when_disconnected_fires "daily" firing Sample.joined
              Sample.room registerCallbacks H1 H2
              (joinRoom_attaches_one_disconnected_listener _ _ _ _ _ _ _ Hjoin Hnew))
    as (teardown & echoes & _ & Ht & _ & _ & _ & Hd & _).
  exists teardown, echoes. split; [exact Ht | exact Hd].
Defined.

(** Against C2 as stated: in the sample session, with local audio and
    video published, the SDK firing "disconnected" from
    [room.disconnect()], [leaveRoom] notifies [ParticipantDisconnected]
    twice for the local participant and twice for the remote one, the
    second notification of the local participant coming after the first of
    the remote participant. *)
Lemma leaveRoom_notifies_each_participant_twice :
  audioTracks (localParticipant Sample.room) <> [] /\
  videoTracks (localParticipant Sample.room) <> [] /\
  disconnections (trace (snd (leaveRoom "daily" firing Sample.joined))) =
    [ OfParticipant (Some "PA-me"); OfParticipant (Some "PA-bob");
      OfParticipant (Some "PA-me"); OfParticipant (Some "PA-bob") ] /\
  disconnections (trace (snd (leaveRoom "daily" firing Sample.joined))) <>
    leavers Sample.room.
Proof.
  split; [vm_compute; discriminate |]. split; [vm_compute; discriminate |].
  split; [vm_compute; reflexivity | vm_compute; discriminate].
Qed.

(** ** A second [joinRoom] *)

(** [prepare] neither reads nor writes [currentRoom]. *)
Lemma prepare_ignores_room accessToken roomName connectOptions r st :
  prepare accessToken roomName connectOptions (set_currentRoom r st) =
  (fst (prepare accessToken roomName connectOptions st),
   set_currentRoom r (snd (prepare accessToken roomName connectOptions st))).
Proof.
  unfold prepare, lift, store, fetchDeviceIds, when, bind, get, modify, ret, throw,
    addAudioDeviceId, addVideoDeviceId, checkDeviceIds.
  destruct (supplied accessToken); [| reflexivity].
  destruct (supplied roomName); [| reflexivity].
  cbn [eventCallbacks set_currentRoom].
  destruct (eventCallbacks st); [| reflexivity].
  destruct connectOptions as [o|]; cbn [isSome negb default];
    cbn [deviceIds set_currentRoom set_defaultConnectOptions defaultConnectOptions];
    destruct (deviceIds st); cbn [isSome negb];
    repeat match goal with
      | |- context [match ?x with _ => _ end] =>
          lazymatch x with
          | context [match _ with _ => _ end] => fail
          | _ => destruct x eqn:?; simpl in *
          end
      end; try reflexivity; try congruence.
Qed.

(** C3, as the code has it.  [joinRoom] has no guard on [currentRoom]: a
    call made while a session is active settles as the same call made with
    no session would, and when it resolves, the new room replaces the
    current one, [RoomConnected] is notified for it, the listeners attached
    for the first room all stay attached and the only SDK call made is the
    new [Video.connect] (the first room is not disconnected). *)
Theorem joinRoom_while_active_replaces_room
    accessToken roomName connectOptions answer st first :
  currentRoom st = Some first ->
  outcome (joinRoom accessToken roomName connectOptions answer st) =
    outcome (joinRoom accessToken roomName connectOptions answer (set_currentRoom None st)) /\
  forall second st',
    joinRoom accessToken roomName connectOptions answer st = (Resolved second, st') ->
    currentRoom st' = Some second /\
    exists cbs token options,
      listeners st' =
        listeners st ++ installs (reporting cbs second) /\
      calls st' = calls st ++ [Call_connect token options] /\
      notified st' =
        notified st ++ notifications (reporting cbs second) /\
      head (notifications (reporting cbs second)) =
        notification (notice cbs RoomConnected (OfRoom (room_sid second))).
Proof.
  intros _. split.
  - unfold outcome, joinRoom. rewrite prepare_ignores_room.
    destruct (prepare accessToken roomName connectOptions st)
      as [[[token options]|e] st1] eqn:Hp; cbn [fst snd]; [| reflexivity].
    destruct answer as [room|reason]; [| reflexivity].
    destruct (prepare_registered _ _ _ _ _ _ Hp) as [cbs Hcbs].
    pose proof (prepare_surroundings accessToken roomName connectOptions st) as Hs.
    rewrite Hp in Hs. cbn [snd] in Hs. unfold surroundings in Hs.
    assert (Hcbs1 : eventCallbacks st1 = Some cbs) by (inversion Hs; congruence).
    rewrite !(connected_run cbs) by exact Hcbs1. reflexivity.
  - intros second st' H.
    destruct (joinRoom_resolved _ _ _ _ _ _ _ H) as (cbs & token & options & st1 & Hp & _ & _ & ->).
    pose proof (prepare_surroundings accessToken roomName connectOptions st) as Hs.
    rewrite Hp in Hs. cbn [snd] in Hs. unfold surroundings in Hs.
    assert (Htr : trace st1 = trace st) by (inversion Hs; congruence).
    assert (Hls : listeners st1 = listeners st) by (inversion Hs; congruence).
    split; [reflexivity |]. exists cbs, token, options.
    unfold calls, notified, grow.
    cbn [listeners trace set_currentRoom set_listeners set_trace].
    rewrite Htr, Hls. repeat split.
    + change (Call (Call_connect token options) :: reporting cbs second)
        with ([Call (Call_connect token options)] ++ reporting cbs second).
      rewrite sdkCalls_app, sdkCalls_app. f_equal.
      unfold reporting. rewrite !sdkCalls_app.
      assert (Hw : forall p f, sdkCalls (wrapping cbs p f) = []).
      { intros p f. unfold wrapping. rewrite !sdkCalls_app.
        assert (Hf : sdkCalls (flat_map (reportPublication cbs (p_sid p) f) (tracks p)) = []).
        { induction (tracks p) as [|pub pubs IH]; [reflexivity |].
          cbn [flat_map]. rewrite sdkCalls_app, IH, app_nil_r.
          unfold reportPublication. rewrite sdkCalls_app.
          destruct (isSubscribed pub || isSome (pub_track pub)); [| reflexivity].
          rewrite sdkCalls_app.
          destruct (truthy f && isSome (pub_track pub)); [| reflexivity].
          by destruct (pub_track pub). }
        by rewrite Hf. }
      rewrite Hw.
      assert (Hr : sdkCalls (flat_map (fun p => wrapping cbs p (JsString (p_sid p)))
                               (participants second)) = []).
      { induction (participants second) as [|p ps IH]; [reflexivity |].
        cbn [flat_map]. by rewrite sdkCalls_app, Hw, IH. }
      by rewrite Hr.
    + change (Call (Call_connect token options) :: reporting cbs second)
        with ([Call (Call_connect token options)] ++ reporting cbs second).
      by rewrite !notifications_app.
Qed.

Lemma joinRoom_while_active_replaces_room_witness :
  currentRoom Sample.joined = Some Sample.room /\
  joinRoom (Some "token") (Some "weekly") (Some Sample.options) (inl Sample.otherRoom)
    Sample.joined =
    (Resolved Sample.otherRoom,
     snd (joinRoom (Some "token") (Some "weekly") (Some Sample.options)
            (inl Sample.otherRoom) Sample.joined)) /\
  currentRoom (snd (joinRoom (Some "token") (Some "weekly") (Some Sample.options)
                      (inl Sample.otherRoom) Sample.joined)) = Some Sample.otherRoom.
Proof.
  assert (H1 : currentRoom Sample.joined = Some Sample.room) by (vm_compute; reflexivity).
  assert (H2 : joinRoom (Some "token") (Some "weekly") (Some Sample.options)
                 (inl Sample.otherRoom) Sample.joined =
               (Resolved Sample.otherRoom,
                snd (joinRoom (Some "token") (Some "weekly") (Some Sample.options)
                       (inl Sample.otherRoom) Sample.joined)))
    by (vm_compute; reflexivity).
  split; [exact H1 |]. split; [exact H2 |].
  destruct (joinRoom_while_active_replaces_room
              (Some "token") (Some "weekly") (Some Sample.options)
              (inl Sample.otherRoom) Sample.joined Sample.room H1) as [_ H].
  exact (proj1 (H _ _ H2)).
Defined.

(** Against C3 as stated: the sample session is active, and a second
    [joinRoom] is not rejected; it resolves, and the current room is no
    longer the first one. *)
Lemma second_joinRoom_is_not_rejected :
  currentRoom Sample.joined = Some Sample.room /\
  ~ (is_Rejected (outcome (joinRoom (Some "token") (Some "weekly") (Some Sample.options)
                             (inl Sample.otherRoom) Sample.joined)) = true /\
     currentRoom (snd (joinRoom (Some "token") (Some "weekly") (Some Sample.options)
                         (inl Sample.otherRoom) Sample.joined)) =
       currentRoom Sample.joined).
Proof.
  split; [vm_compute; reflexivity |].
  intros [H _]. vm_compute in H. discriminate.
Qed.

(** ** Validation in [joinRoom] *)

(** C4.  When the access token is absent [joinRoom] rejects with
    [MissingCredentials]; when the room name is absent, with
    [MissingRoomName]; when no callbacks are registered, with
    [HandlersNotRegistered] (the checks are made in this order and the
    first that fails decides).  In each case the engine state is exactly
    what it was: no room is set, nothing is read from [localStorage], no
    call to [Video.connect] enters the trace. *)
Theorem joinRoom_rejects_missing_input accessToken roomName connectOptions answer st :
  supplied accessToken = None \/ supplied roomName = None \/ eventCallbacks st = None ->
  joinRoom accessToken roomName connectOptions answer st =
    (Rejected (missingInput accessToken roomName), st) /\
  (supplied accessToken = None -> missingInput accessToken roomName = MissingCredentials) /\
  (supplied accessToken <> None -> supplied roomName = None ->
     missingInput accessToken roomName = MissingRoomName) /\
  (supplied accessToken <> None -> supplied roomName <> None ->
     missingInput accessToken roomName = HandlersNotRegistered).
Proof.
  intros H. unfold joinRoom, prepare, missingInput.
  destruct (supplied accessToken) as [token|]; cbn [isSome negb].
  - destruct (supplied roomName) as [room|]; cbn [isSome negb].
    + destruct H as [H | [H | H]]; try discriminate.
      unfold bind at 1, get at 1. rewrite H.
      repeat split; congruence.
    + repeat split; congruence.
  - repeat split; congruence.
Qed.

Lemma joinRoom_rejects_missing_input_witness :
  (supplied (Some "token") = None \/ supplied None = None \/
   eventCallbacks (newEngine ∅ Sample.options) = None) /\
  joinRoom (Some "token") None None (inl Sample.room) (newEngine ∅ Sample.options) =
    (Rejected MissingRoomName, newEngine ∅ Sample.options).
Proof.
  assert (H : supplied (Some "token") = None \/ supplied None = None \/
              eventCallbacks (newEngine ∅ Sample.options) = None)
    by (right; left; reflexivity).
  split; [exact H |].
  exact (proj1 (joinRoom_rejects_missing_input (Some "token") None None (inl Sample.room)
                  (newEngine ∅ Sample.options) H)).
Defined.

(** ** Screen share *)

Lemma videoTracks_reprioritized p who :
  videoTracks (reprioritized p who) = map (with_priority p) (videoTracks who).
Proof.
  unfold videoTracks, tracksOfKind, reprioritized. cbn [tracks].
  induction (tracks who) as [|pub pubs IH]; [reflexivity |].
  cbn [map List.filter]. destruct (MediaType_eqb (pub_kind pub) Video) eqn:Hk.
  - cbn [List.filter with_priority pub_kind]. rewrite Hk. cbn [map]. by rewrite IH.
  - rewrite Hk. exact IH.
Qed.

Lemma videoTracks_published sid id p who :
  videoTracks (published sid (LocalVideoTrack id) p who) =
  videoTracks who ++
    [{| trackSid := sid; pub_kind := Video; pub_track := Some (LocalVideoTrack id);
        isSubscribed := false; pub_priority := p |}].
Proof.
  unfold videoTracks, tracksOfKind, published. cbn [tracks].
  by rewrite List.filter_app.
Qed.

Lemma sdkCall_run c st : sdkCall c st = (Ok tt, grow [Call c] st).
Proof. unfold sdkCall, record, modify, grow; simpl. by rewrite app_nil_r. Qed.

Lemma forEach_sdkCall {A} (f : A -> SdkCall) xs st :
  forEach xs (fun x => sdkCall (f x)) st = (Ok tt, grow (map (fun x => Call (f x)) xs) st).
Proof.
  revert st. induction xs as [|x xs IH]; intros st.
  - cbn [forEach map]. unfold ret. by rewrite grow_nil.
  - cbn [forEach map]. rewrite (bind_run _ _ _ _ _ (sdkCall_run _ _)).
    by rewrite IH, grow_grow.
Qed.

Lemma installs_calls {A} (f : A -> SdkCall) xs : installs (map (fun x => Call (f x)) xs) = [].
Proof. induction xs; [reflexivity | exact IHxs]. Qed.

Lemma startScreenShare_run height width sdk st room o v id sid :
  currentRoom st = Some room ->
  currentConnectOptions st = Some o -> video o = Some v ->
  canScreenshare sdk = true -> capture sdk = Some id ->
  publishTrack_answer sdk = inl sid ->
  startScreenShare height width sdk st =
    (Resolved tt,
     set_currentRoom
       (Some (with_localParticipant
          (published sid (LocalVideoTrack id) high
             (reprioritized low (localParticipant room))) room))
       (set_currentScreenTrack (Some (LocalVideoTrack id))
          (set_trace
             (trace st ++
              map Call (sharing (orElse height (heightOf v))
                                (orElse width (widthOf v)) sdk id room)) st))).
Proof.
  intros Hroom Hopt Hvideo Hcan Hcap Hpub.
  unfold startScreenShare, orVideoOption. rewrite Hopt, Hvideo.
  assert (Hw : (if truthy_nat width then Ok width else Ok (widthOf v)) =
               @Ok (option nat) (orElse width (widthOf v)))
    by (unfold orElse; destruct (truthy_nat width); reflexivity).
  assert (Hh : (if truthy_nat height then Ok height else Ok (heightOf v)) =
               @Ok (option nat) (orElse height (heightOf v)))
    by (unfold orElse; destruct (truthy_nat height); reflexivity).
  rewrite Hw, Hh. unfold createScreenTrack. rewrite Hcan, Hcap. cbn [negb].
  rewrite sdkCall_run. cbn [snd].
  unfold shareTrack, setVideoPriority.
  unfold bind at 1, modify at 1. unfold bind at 1. unfold bind at 1, get at 1.
  cbn [currentRoom set_currentScreenTrack grow set_listeners set_trace].
  rewrite Hroom. rewrite (bind_run _ _ _ _ _ (forEach_sdkCall _ _ _)).
  unfold modify at 1, bind at 1, get at 1.
  cbn [currentRoom set_currentRoom].
  rewrite (bind_run _ _ _ _ _ (sdkCall_run _ _)). unfold ret.
  rewrite Hpub. f_equal.
  unfold grow, sharing.
  cbn [listeners trace set_currentRoom set_currentScreenTrack set_listeners set_trace
       eventCallbacks currentRoom currentConnectOptions currentScreenTrack deviceIds
       localStorage defaultConnectOptions].
  rewrite installs_calls.
  change (installs [Call ?c]) with (@nil Listener).
  rewrite !app_nil_r, !map_app, map_map, <- !app_assoc.
  destruct st; reflexivity.
Qed.

Lemma stopScreenShare_run st track room :
  currentScreenTrack st = Some track ->
  currentRoom st = Some room ->
  stopScreenShare None st =
    (Resolved tt,
     set_currentRoom
       (Some (with_localParticipant (reprioritized high (localParticipant room)) room))
       (set_currentScreenTrack None
          (set_trace
             (trace st ++
              Call (Call_stop track) ::
              map (fun pub => Call (Call_setPriority (trackSid pub) high))
                  (videoTracks (localParticipant room))) st))).
Proof.
  intros Hheld Hroom. unfold stopScreenShare. rewrite Hheld.
  rewrite (bind_run _ _ _ _ _ (sdkCall_run _ _)).
  unfold raise. unfold bind at 1, ret at 1. unfold bind at 1, modify at 1.
  unfold setVideoPriority. unfold bind at 1, get at 1.
  cbn [currentRoom set_currentScreenTrack grow set_listeners set_trace].
  rewrite Hroom. rewrite (bind_run _ _ _ _ _ (forEach_sdkCall _ _ _)).
  unfold modify. f_equal. unfold grow.
  cbn [listeners trace set_currentRoom set_currentScreenTrack set_listeners set_trace
       eventCallbacks currentRoom currentConnectOptions currentScreenTrack deviceIds
       localStorage defaultConnectOptions].
  rewrite installs_calls.
  change (installs [Call ?c]) with (@nil Listener).
  rewrite !app_nil_r, <- !app_assoc.
  destruct st; reflexivity.
Qed.

Lemma stops_sharing height width sdk id room :
  List.filter isStop (sharing height width sdk id room) = [].
Proof.
  unfold sharing. rewrite !List.filter_app.
  assert (H : forall xs, List.filter isStop
            (map (fun pub => Call_setPriority (trackSid pub) low) xs) = []).
  { induction xs; [reflexivity | exact IHxs]. }
  rewrite H. by destruct (supportsGetDisplayMedia sdk).
Qed.

Lemma sdkCalls_calls cs : sdkCalls (map Call cs) = cs.
Proof. induction cs; [reflexivity |]. cbn. f_equal. exact IHcs. Qed.

Lemma startScreenShare_shares height width sdk st room o v id sid :
  currentRoom st = Some room ->
  currentConnectOptions st = Some o -> video o = Some v ->
  granted sdk id sid ->
  let st' := snd (startScreenShare height width sdk st) in
  outcome (startScreenShare height width sdk st) = Resolved tt /\
  currentScreenTrack st' = Some (LocalVideoTrack id) /\
  stops st' = stops st /\
  localVideo st' = map (with_priority low) (localVideo st) ++ [screenPublication sid id high] /\
  currentConnectOptions st' = Some o /\
  exists room', currentRoom st' = Some room'.
Proof.
  intros Hroom Hopt Hvideo (Hcan & Hcap & Hpub). cbn zeta. unfold outcome.
  rewrite (startScreenShare_run height width sdk st room o v id sid) by assumption.
  cbn [fst snd]. split; [reflexivity |]. split; [reflexivity |]. split; [| split; [| split]].
  - unfold stops, calls.
    cbn [trace set_currentRoom set_currentScreenTrack set_trace].
    rewrite sdkCalls_app, List.filter_app, sdkCalls_calls, stops_sharing.
    apply app_nil_r.
  - unfold localVideo. cbn [currentRoom set_currentRoom]. rewrite Hroom.
    cbn [localParticipant with_localParticipant].
    by rewrite videoTracks_published, videoTracks_reprioritized.
  - exact Hopt.
  - eexists. reflexivity.
Qed.

(** Turning a local track off leaves the publications that remain as they
    are. *)
Lemma turnOffMy_localVideo k sdk st :
  incl (localVideo (snd (turnOffMy k sdk st))) (localVideo st).
Proof.
  unfold turnOffMy, localVideo.
  destruct (currentRoom st) as [room|] eqn:Hroom; cbn [snd];
    [| rewrite ?Hroom; apply incl_refl].
  destruct (tracksOfKind k (localParticipant room)) as [|pub pubs];
    cbn [snd]; [rewrite ?Hroom; apply incl_refl |].
  destruct (pub_track pub) as [track|]; cbn [snd]; [| rewrite ?Hroom; apply incl_refl].
  assert (Hsub : incl (videoTracks (withoutTrack track (localParticipant room)))
                      (videoTracks (localParticipant room))).
  { unfold videoTracks, tracksOfKind, withoutTrack. cbn [tracks].
    intros x Hx. apply List.filter_In in Hx as [Hx Hk].
    apply List.filter_In in Hx as [Hx _]. apply List.filter_In. by split. }
  unfold unpublishAndStop, trackUnsubscribed, notifyOfEvent, sdkCall, record, raise,
    bind, modify, get, throw, ret.
  destruct (unpublishTrack_throws sdk), (stop_throws sdk), (eventCallbacks st) eqn:Hcb;
    simpl; rewrite ?Hroom, ?Hcb; simpl; rewrite ?Hroom;
    first [exact Hsub | apply incl_refl].
Qed.

(** C5, as the code has it.  [startScreenShare] never stops a track.  Two
    successful calls in succession leave both captured tracks published
    and not stopped, [currentScreenTrack] holding the second; each call
    sets every video publication the local participant has at that moment
    to [low], the first screen track included at the second call, and
    publishes the new track at [high].  Turning the camera or the
    microphone off meanwhile changes no remaining publication.
    [stopScreenShare] then stops the held (second) track only, clears the
    reference and sets every local video publication to [high]. *)
Theorem startScreenShare_twice_shares_two_tracks
    st room o v h1 w1 sdk1 id1 sid1 h2 w2 sdk2 id2 sid2 :
  currentRoom st = Some room ->
  currentConnectOptions st = Some o -> video o = Some v ->
  granted sdk1 id1 sid1 -> granted sdk2 id2 sid2 ->
  let st1 := snd (startScreenShare h1 w1 sdk1 st) in
  let st2 := snd (startScreenShare h2 w2 sdk2 st1) in
  let st3 := snd (stopScreenShare None st2) in
  outcome (startScreenShare h1 w1 sdk1 st) = Resolved tt /\
  outcome (startScreenShare h2 w2 sdk2 st1) = Resolved tt /\
  currentScreenTrack st2 = Some (LocalVideoTrack id2) /\
  stops st2 = stops st /\
  localVideo st2 =
    map (with_priority low) (localVideo st) ++
    [screenPublication sid1 id1 low; screenPublication sid2 id2 high] /\
  (forall k sdk, incl (localVideo (snd (turnOffMy k sdk st2))) (localVideo st2)) /\
  outcome (stopScreenShare None st2) = Resolved tt /\
  stops st3 = stops st ++ [Call_stop (LocalVideoTrack id2)] /\
  currentScreenTrack st3 = None /\
  localVideo st3 = map (with_priority high) (localVideo st2).
Proof.
  intros Hroom Hopt Hvideo Hsdk1 Hsdk2. cbn zeta.
  destruct (startScreenShare_shares h1 w1 sdk1 st room o v id1 sid1 Hroom Hopt Hvideo Hsdk1)
    as (Ho1 & Hh1 & Hs1 & Hv1 & Hopt1 & room1 & Hroom1).
  cbn zeta in *. set (st1 := snd (startScreenShare h1 w1 sdk1 st)) in *.
  destruct (startScreenShare_shares h2 w2 sdk2 st1 room1 o v id2 sid2 Hroom1 Hopt1 Hvideo Hsdk2)
    as (Ho2 & Hh2 & Hs2 & Hv2 & Hopt2 & room2 & Hroom2).
  cbn zeta in *. set (st2 := snd (startScreenShare h2 w2 sdk2 st1)) in *.
  split; [exact Ho1 |]. split; [exact Ho2 |]. split; [exact Hh2 |].
  split; [congruence |].
  split.
  { rewrite Hv2, Hv1, map_app, <- app_assoc, map_map. reflexivity. }
  split; [intros k sdk; apply turnOffMy_localVideo |].
  unfold outcome. rewrite (stopScreenShare_run st2 _ room2 Hh2 Hroom2). cbn [fst snd].
  split; [reflexivity |]. split; [| split; [reflexivity |]].
  - unfold stops, calls in *.
    cbn [trace set_currentRoom set_currentScreenTrack set_trace].
    rewrite sdkCalls_app, List.filter_app, Hs2, Hs1. f_equal.
    change (Call (Call_stop ?t) :: ?l) with ([Call (Call_stop t)] ++ l).
    rewrite sdkCalls_app, List.filter_app.
    assert (H : forall xs, List.filter isStop (sdkCalls
              (map (fun pub => Call (Call_setPriority (trackSid pub) high)) xs)) = []).
    { induction xs; [reflexivity | exact IHxs]. }
    rewrite H. reflexivity.
  - unfold localVideo. cbn [currentRoom set_currentRoom]. rewrite Hroom2.
    cbn [localParticipant with_localParticipant].
    apply videoTracks_reprioritized.
Qed.

Lemma startScreenShare_twice_shares_two_tracks_witness :
  currentRoom Sample.joined = Some Sample.room /\
  currentConnectOptions Sample.joined =
    Some (set_video (set_deviceId (DeviceExact None) Sample.noDevice)
            (set_audio (set_deviceId (DeviceExact None) Sample.noDevice)
               (set_name "daily" Sample.options))) /\
  granted firstShare "screen-1" "MT5" /\ granted secondShare "screen-2" "MT6" /\
  stops sharedTwice = stops Sample.joined /\
  localVideo sharedTwice =
    map (with_priority low) (localVideo Sample.joined) ++
    [screenPublication "MT5" "screen-1" low; screenPublication "MT6" "screen-2" high].
Proof.
  assert (H1 : currentRoom Sample.joined = Some Sample.room) by (vm_compute; reflexivity).
  assert (H2 : currentConnectOptions Sample.joined =
    Some (set_video (set_deviceId (DeviceExact None) Sample.noDevice)
            (set_audio (set_deviceId (DeviceExact None) Sample.noDevice)
               (set_name "daily" Sample.options)))) by (vm_compute; reflexivity).
  assert (H3 : granted firstShare "screen-1" "MT5") by (repeat split).
  assert (H4 : granted secondShare "screen-2" "MT6") by (repeat split).
  do 4 (split; [assumption |]).
  destruct (startScreenShare_twice_shares_two_tracks
              Sample.joined _ _ _ None None firstShare "screen-1" "MT5"
              None None secondShare "screen-2" "MT6" H1 H2 eq_refl H3 H4)
    as (_ & _ & _ & Hs & Hv & _).
  split; [exact Hs | exact Hv].
Defined.

(** Against C5 as stated: after two [startScreenShare] calls in the sample
    session no track has been stopped, and the local participant publishes
    both screen tracks next to the camera. *)
Lemma second_startScreenShare_keeps_first_track :
  ~ In (Call_stop (LocalVideoTrack "screen-1")) (calls sharedTwice) /\
  stops sharedTwice = [] /\
  map pub_track (localVideo sharedTwice) =
    [ Some Sample.cam; Some (LocalVideoTrack "screen-1");
      Some (LocalVideoTrack "screen-2") ].
Proof.
  split; [| split; vm_compute; reflexivity].
  vm_compute. intros H.
  repeat (destruct H as [H|H]; [discriminate |]). exact H.
Qed.

(** ** Everything the engine can be asked to do *)

(** Statements that only add effects satisfying [P] to the trace. *)
Section Adds.
Variable P : Effect -> Prop.

Lemma adds_nothing {A} (m : M A) : preserves trace m -> adds P m.
Proof. intros H st. exists []. rewrite app_nil_r. split; [apply H | constructor]. Qed.

Lemma adds_ret {A} (a : A) : adds P (ret a).
Proof. apply adds_nothing, preserves_ret. Qed.

Lemma adds_throw {A} e : adds P (@throw A e).
Proof. apply adds_nothing, preserves_throw. Qed.

Lemma adds_get : adds P get.
Proof. apply adds_nothing, preserves_get. Qed.

Lemma adds_modify g : (forall st, trace (g st) = trace st) -> adds P (modify g).
Proof. intros H. by apply adds_nothing, preserves_modify. Qed.

Lemma adds_bind {A B} (m : M A) (k : A -> M B) :
  adds P m -> (forall a, adds P (k a)) -> adds P (bind m k).
Proof.
  intros Hm Hk st. unfold bind. destruct (Hm st) as (t1 & Ht1 & HP1).
  destruct (m st) as [[a|e] st1]; cbn [snd] in *; [| by exists t1].
  destruct (Hk a st1) as (t2 & Ht2 & HP2).
  exists (t1 ++ t2). rewrite Ht2, Ht1, app_assoc. split; [reflexivity |].
  by apply Forall_app.
Qed.

Lemma adds_record e : P e -> adds P (record e).
Proof. intros He st. exists [e]. split; [reflexivity | by constructor]. Qed.

Lemma adds_when b m : adds P m -> adds P (when b m).
Proof. destruct b; [auto | intros _; apply adds_ret]. Qed.

Lemma adds_forEach {A} (xs : list A) (k : A -> M unit) :
  (forall x, adds P (k x)) -> adds P (forEach xs k).
Proof.
  intros Hk. induction xs; cbn [forEach]; [apply adds_ret |].
  apply adds_bind; auto.
Qed.

Lemma adds_when_true b m : (b = true -> adds P m) -> adds P (when b m).
Proof. destruct b; [auto | intros _; apply adds_ret]. Qed.

Lemma adds_forEach_In {A} (xs : list A) (k : A -> M unit) :
  (forall x, In x xs -> adds P (k x)) -> adds P (forEach xs k).
Proof.
  intros Hk. induction xs as [|x xs IH]; cbn [forEach]; [apply adds_ret |].
  apply adds_bind; [apply Hk; by left |].
  intros _. apply IH. intros y Hy. apply Hk. by right.
Qed.

Lemma adds_notifyOfEvent e p :
  (forall d, P (Notify {| eventType := e; args := p; delivered := d |})) ->
  adds P (notifyOfEvent e p).
Proof.
  intros H. unfold notifyOfEvent. apply adds_bind; [apply adds_get |].
  intros st. destruct (eventCallbacks st); [apply adds_record, H | apply adds_throw].
Qed.

Lemma adds_addListener l : P (Install l) -> adds P (addListener l).
Proof.
  intros H. unfold addListener. apply adds_bind; [by apply adds_modify |].
  intros _. by apply adds_record.
Qed.

Lemma adds_forget {A} (op : Engine -> Promise A * Engine) :
  (forall st, exists t, trace (snd (op st)) = trace st ++ t /\ Forall P t) ->
  adds P (forget op).
Proof. intros H st. exact (H st). Qed.
End Adds.

Ltac adding :=
  repeat match goal with
    | |- adds _ (ret _) => apply adds_ret
    | |- adds _ (throw _) => apply adds_throw
    | |- adds _ get => apply adds_get
    | |- adds _ (bind _ _) => apply adds_bind
    | |- adds _ (when _ _) => apply adds_when
    | |- adds _ (forEach _ _) => apply adds_forEach
    | |- adds _ (modify _) => apply adds_modify; intros; reflexivity
    | |- adds _ (notifyOfEvent _ _) => apply adds_notifyOfEvent
    | |- adds _ (sdkCall _) => apply adds_record
    | |- adds _ (record _) => apply adds_record
    | |- adds _ (on _ _ _) => apply adds_addListener
    | |- adds _ (once_ _ _ _) => apply adds_addListener
    | |- adds _ (addListener _) => apply adds_addListener
    | |- adds _ (let _ := _ in _) => cbv zeta
    | |- adds _ (match ?x with _ => _ end) => destruct x
    | |- forall _, _ => intro
    end.

Lemma extends_id P : extends P (fun st => st).
Proof. intros st. exists []. by rewrite app_nil_r. Qed.

(** The engine's operations extend the trace whenever each statement they
    are made of does; the track notifications they add are made from the
    origins [allowed]. *)
Section Extends.
Variable P : Effect -> Prop.
Variable allowed : Origin -> Prop.
Hypothesis P_install : forall l, P (Install l).
Hypothesis P_call : forall c, P (Call c).
Hypothesis P_notify : forall e p d,
  match e with
  | ParticipantSubscribedTrack | ParticipantUnsubscribedTrack => False
  | _ => True
  end -> P (Notify {| eventType := e; args := p; delivered := d |}).
Hypothesis P_track : forall e o who d,
  allowed o ->
  P (Notify {| eventType := e; args := OfTrack (descriptorOf o) (Some who);
               delivered := d |}).

Ltac obligations :=
  first [ apply P_install | apply P_call | apply P_notify; exact I ].

Lemma adds_setupTrackMuteEvents track who : adds P (setupTrackMuteEvents track who).
Proof. unfold setupTrackMuteEvents. adding; obligations. Qed.

Lemma adds_participantConnected participant isRemote :
  (forall pub, reported participant pub -> allowed (FromPublication pub)) ->
  adds P (participantConnected participant isRemote).
Proof.
  intros H. unfold participantConnected, trackSubscribed. cbv zeta.
  apply adds_bind; [apply adds_notifyOfEvent; intros; obligations |]. intros _.
  apply adds_bind; [| intros _; adding; obligations].
  apply adds_forEach_In. intros pub Hin.
  apply adds_bind; [| intros _; adding; obligations].
  apply adds_when_true. intros Hb.
  apply adds_bind; [adding; apply adds_setupTrackMuteEvents |]. intros _.
  apply adds_notifyOfEvent. intros d.
  refine (P_track _ (FromPublication pub) _ _ _). apply H. by split.
Qed.

Lemma adds_invoke c ev :
  (forall o, fromEvent ev o -> allowed o) -> adds P (invoke c ev).
Proof.
  intros H. destruct c, ev; cbn [invoke]; try apply adds_ret;
    try (apply adds_participantConnected; intros pub Hpub; by apply H);
    unfold participantDisconnected, dominantSpeakerChanged, trackSubscribed,
      trackUnsubscribed;
    adding; try apply adds_setupTrackMuteEvents;
    first [ obligations
          | refine (P_track _ (FromTrack _) _ _ _); apply H; exact eq_refl
          | refine (P_track _ (FromTrack _) _ _ _); apply H; exact I
          | refine (P_track _ (FromPublication _) _ _ _); apply H; exact eq_refl ].
Qed.

Lemma adds_dispatch ev :
  (forall o, fromEvent ev o -> allowed o) -> adds P (dispatch ev).
Proof. intros H. unfold dispatch. adding. by apply adds_invoke. Qed.

Lemma adds_prepare accessToken roomName connectOptions :
  adds P (prepare accessToken roomName connectOptions).
Proof.
  apply adds_nothing. unfold prepare, lift, store, fetchDeviceIds. preserving.
Qed.

Lemma adds_connected room :
  (forall p pub, In p (localParticipant room :: participants room) ->
                 reported p pub -> allowed (FromPublication pub)) ->
  adds P (connected room).
Proof.
  intros H. unfold connected. cbv zeta.
  apply adds_bind; [apply adds_notifyOfEvent; intros; obligations |]. intros _.
  apply adds_bind; [adding |]. intros _.
  apply adds_bind; [apply adds_participantConnected; intros pub; apply H; by left |].
  intros _.
  apply adds_bind; [| intros _; adding; obligations].
  apply adds_forEach_In. intros p Hp.
  apply adds_participantConnected. intros pub. apply H. by right.
Qed.

Lemma trace_sdkCall c st : trace (snd (sdkCall c st)) = trace st ++ [Call c].
Proof. reflexivity. Qed.

Lemma extends_joinRoom accessToken roomName connectOptions answer :
  (forall o, origin (Do_joinRoom accessToken roomName connectOptions answer) o ->
             allowed o) ->
  extends P (fun st => snd (joinRoom accessToken roomName connectOptions answer st)).
Proof.
  intros H st. unfold joinRoom.
  destruct (adds_prepare accessToken roomName connectOptions st) as (t0 & Ht0 & HP0).
  destruct (prepare accessToken roomName connectOptions st) as [[[token options]|e] st1];
    cbn [snd] in *; [| by exists t0].
  destruct answer as [room|reason]; cbn [snd].
  - assert (Hroom : adds P (connected room)).
    { apply adds_connected. intros p pub Hp Hpub.
      apply (H (FromPublication pub)). cbn. by exists p. }
    destruct (Hroom (snd (sdkCall (Call_connect token options) st1)))
      as (t1 & Ht1 & HP1).
    rewrite trace_sdkCall in Ht1.
    destruct (connected room _) as [[[]|e] st3]; cbn [snd] in *;
      exists (t0 ++ [Call (Call_connect token options)] ++ t1);
      (split; [rewrite Ht1, Ht0, <- !app_assoc; reflexivity |]);
      (apply Forall_app; split; [exact HP0 |]);
      (apply Forall_app; split; [| exact HP1]);
      (constructor; [apply P_call | constructor]).
  - exists (t0 ++ [Call (Call_connect token options)]).
    rewrite trace_sdkCall, Ht0, <- app_assoc.
    split; [reflexivity |]. apply Forall_app; split; [exact HP0 |].
    constructor; [apply P_call | constructor].
Qed.

Lemma extends_turnOnMy k givenDeviceId sdk :
  extends P (fun st => snd (turnOnMy k givenDeviceId sdk st)).
Proof.
  intros st. unfold turnOnMy. cbv zeta.
  destruct (currentConnectOptions st) as [o|]; [| apply extends_id].
  set (o' := match supplied givenDeviceId with Some _ => _ | None => _ end).
  set (st1 := match supplied givenDeviceId with Some _ => _ | None => _ end).
  assert (H1 : trace st1 = trace st).
  { subst st1. destruct (supplied givenDeviceId), (section k o); reflexivity. }
  clearbody st1 o'.
  destruct (section k o') as [m|]; [| exists []; by rewrite app_nil_r].
  destruct (truthy_deviceId (deviceId m)); cbn [negb];
    [| exists []; by rewrite app_nil_r].
  assert (Hc : forall c, Forall P [Call c])
    by (intros c; constructor; [apply P_call | constructor]).
  destruct (createLocalTrack_answer sdk) as [id|reason]; cbn [snd];
    [| exists [Call (Call_createLocalTrack k m)];
       rewrite trace_sdkCall, H1; by split].
  change (currentRoom (snd (sdkCall (Call_createLocalTrack k m) st1)))
    with (currentRoom st1).
  destruct (currentRoom st1) as [room|];
    [| exists [Call (Call_createLocalTrack k m)]; cbn [snd];
       rewrite trace_sdkCall, H1; by split].
  set (track := {| track_id := id; track_kind := k; track_sid := None |}).
  exists [Call (Call_createLocalTrack k m); Call (Call_publishTrack track None)].
  split; [| constructor; [apply P_call | apply Hc]].
  destruct (publish_answer sdk); cbn [snd trace set_currentRoom];
    by rewrite !trace_sdkCall, H1, <- app_assoc.
Qed.

Lemma extends_turnOffMy k sdk :
  allowed (Forced k) -> extends P (fun st => snd (turnOffMy k sdk st)).
Proof.
  intros Hk st. unfold turnOffMy.
  destruct (currentRoom st) as [room|]; [| apply extends_id].
  destruct (tracksOfKind k (localParticipant room)) as [|pub pubs]; [apply extends_id |].
  destruct (pub_track pub) as [track|]; [| apply extends_id].
  assert (H : adds P (unpublishAndStop k room track sdk)).
  { unfold unpublishAndStop, raise, trackUnsubscribed. adding;
      first [obligations | by refine (P_track _ (Forced k) _ _ _)]. }
  destruct (H st) as (t & Ht & HP).
  destruct (unpublishAndStop k room track sdk st) as [[[]|e] st1]; by exists t.
Qed.

Lemma adds_leaveRoom roomName sdk :
  (forall k, allowed (Forced k)) -> adds P (leaveRoom roomName sdk).
Proof.
  intros Hk. unfold leaveRoom. adding;
    try (apply adds_forget; by apply extends_turnOffMy);
    try (apply adds_dispatch; intros from Hfrom; by destruct from);
    obligations.
Qed.

Lemma adds_setVideoPriority p : adds P (setVideoPriority p).
Proof. unfold setVideoPriority. adding; obligations. Qed.

Lemma extends_startScreenShare height width sdk :
  extends P (fun st => snd (startScreenShare height width sdk st)).
Proof.
  intros st. unfold startScreenShare.
  destruct (orVideoOption width widthOf st) as [w|e]; [| apply extends_id].
  destruct (orVideoOption height heightOf st) as [h|e]; [| apply extends_id].
  unfold createScreenTrack.
  destruct (canScreenshare sdk); cbn [negb]; [| apply extends_id].
  set (c := if supportsGetDisplayMedia sdk then _ else _).
  assert (Hc : exists t, trace (snd (sdkCall c st)) = trace st ++ t /\ Forall P t).
  { exists [Call c]. split; [reflexivity |]. constructor; [apply P_call | constructor]. }
  destruct Hc as (t0 & Ht0 & HP0).
  destruct (capture sdk) as [id|]; [| by exists t0].
  assert (H : adds P (shareTrack (LocalVideoTrack id))).
  { unfold shareTrack. adding; try apply adds_setVideoPriority; obligations. }
  destruct (H (snd (sdkCall c st))) as (t1 & Ht1 & HP1).
  clearbody c.
  destruct (shareTrack (LocalVideoTrack id) _) as [[room|e] st2]; cbn [snd] in *.
  - destruct (publishTrack_answer sdk); cbn [snd trace set_currentRoom];
      exists (t0 ++ t1); (split; [by rewrite Ht1, Ht0, app_assoc | by apply Forall_app]).
  - exists (t0 ++ t1). split; [by rewrite Ht1, Ht0, app_assoc | by apply Forall_app].
Qed.

Lemma extends_stopScreenShare stop_throws :
  extends P (fun st => snd (stopScreenShare stop_throws st)).
Proof.
  intros st. unfold stopScreenShare.
  destruct (currentScreenTrack st) as [track|]; [| apply extends_id].
  assert (H : adds P (sdkCall (Call_stop track);; raise stop_throws;;
                      modify (set_currentScreenTrack None);; setVideoPriority high)).
  { unfold raise. adding; try apply adds_setVideoPriority; obligations. }
  destruct (H st) as (t & Ht & HP).
  destruct ((sdkCall (Call_stop track);; _) st) as [[[]|e] st1]; by exists t.
Qed.

Lemma extends_perform a :
  (forall o, origin a o -> allowed o) -> extends P (perform a).
Proof.
  intros H. destruct a; cbn [perform];
    try (by apply extends_joinRoom);
    try apply extends_turnOnMy;
    try (apply extends_turnOffMy; by apply H);
    try apply extends_startScreenShare; try apply extends_stopScreenShare;
    try (apply adds_leaveRoom; intros k; by apply H);
    try (by apply adds_dispatch);
    try (apply adds_nothing;
         unfold init, assignDefaultAudioInputDeviceId, assignDefaultAudioOutputDeviceId,
           assignDefaultVideoInputDeviceId, clearAllDefaultMediaDeviceIds,
           clearDefaultAudioInputDeviceId, clearDefaultAudioOutputDeviceId,
           clearDefaultVideoInputDeviceId, setItem, removeItem; preserving).
Qed.
End Extends.

(** ** Turning the microphone or the camera on *)

(** [turnOnMyAudio] and [turnOnMyVideo] write to the connect options and,
    when the track is published, to the room; they touch nothing else. *)
Lemma turnOnMy_keeps k givenDeviceId sdk st :
  let st' := snd (turnOnMy k givenDeviceId sdk st) in
  eventCallbacks st' = eventCallbacks st /\
  deviceIds st' = deviceIds st /\
  localStorage st' = localStorage st /\
  listeners st' = listeners st /\
  currentScreenTrack st' = currentScreenTrack st /\
  sharesDefaults st' = sharesDefaults st.
Proof.
  unfold turnOnMy. cbv zeta.
  destruct (currentConnectOptions st) as [o|]; [| by repeat split].
  set (o' := match supplied givenDeviceId with Some _ => _ | None => _ end).
  set (st1 := match supplied givenDeviceId with Some _ => _ | None => _ end).
  assert (H1 : eventCallbacks st1 = eventCallbacks st /\
               deviceIds st1 = deviceIds st /\
               localStorage st1 = localStorage st /\
               listeners st1 = listeners st /\
               currentScreenTrack st1 = currentScreenTrack st /\
               sharesDefaults st1 = sharesDefaults st).
  { subst st1. destruct (supplied givenDeviceId), (section k o); by repeat split. }
  clearbody st1 o'.
  destruct (section k o') as [m|]; [| exact H1].
  destruct (truthy_deviceId (deviceId m)); cbn [negb]; [| exact H1].
  destruct (createLocalTrack_answer sdk) as [id|reason]; [| exact H1].
  change (currentRoom (snd (sdkCall (Call_createLocalTrack k m) st1)))
    with (currentRoom st1).
  destruct (currentRoom st1) as [room|]; [| exact H1].
  destruct (publish_answer sdk); exact H1.
Qed.

(** ** Track notifications *)

Lemma kindOf_descriptorOf o : td_kind (descriptorOf o) = kindOf o.
Proof. by destruct o. Qed.

Lemma sourced_more actions more n : sourced actions n -> sourced (actions ++ more) n.
Proof.
  unfold sourced. destruct (eventType n); try exact id;
    intros (a & o & who & Ha & H); exists a, o, who;
    (split; [apply in_or_app; by left | exact H]).
Qed.

Lemma perform_sourced a st :
  exists t, trace (perform a st) = trace st ++ t /\
            Forall (sourced [a]) (notifications t).
Proof.
  destruct (extends_perform
              (fun e => match e with Notify n => sourced [a] n | _ => True end)
              (origin a)) with (a := a) (st := st) as (t & Ht & HP).
  - intros l. exact I.
  - intros c. exact I.
  - intros e p d He. unfold sourced. cbn. by destruct e.
  - intros e o who d Ho. unfold sourced. cbn.
    destruct e; try exact I; exists a, o, who;
      (split; [by left |]); (split; [exact Ho |]);
      (split; [reflexivity | apply kindOf_descriptorOf]).
  - auto.
  - exists t. split; [exact Ht |].
    clear Ht. induction HP as [|e t He _ IH]; [constructor |].
    destruct e; cbn; [by constructor | exact IH | exact IH].
Qed.

Lemma run_sourced actions : forall done st,
  Forall (sourced done) (notified st) ->
  Forall (sourced (done ++ actions)) (notified (run actions st)).
Proof.
  induction actions as [|a actions IH]; intros done st Hst.
  - by rewrite app_nil_r.
  - cbn [run fold_left].
    replace (done ++ a :: actions) with ((done ++ [a]) ++ actions)
      by (by rewrite <- app_assoc).
    apply IH. destruct (perform_sourced a st) as (t & Ht & HP).
    unfold notified. rewrite Ht. unfold notifications. rewrite omap_app.
    apply Forall_app. split.
    + eapply Forall_impl; [| exact Hst]. intros n. apply sourced_more.
    + eapply Forall_impl; [| exact HP]. intros n Hn.
      unfold sourced in *. destruct (eventType n); try exact I;
        destruct Hn as (a' & o & who & [<-|[]] & H); exists a, o, who;
        (split; [apply in_or_app; right; by left | exact H]).
Qed.

(** C6, as the code has it.  Whatever is done with the engine, every track
    subscribed or unsubscribed notification carries a participant and a
    track descriptor made from one of three things, which one of the
    actions done accounts for ([origin]): a live track handed over as it
    is (the subscribed, unsubscribed and mute events), whose kind the
    descriptor bears; a publication, spread as
    [{ ...publication.track, sid }] (the roster of [joinRoom] and of a
    participant who connects, and the trackPublished and trackUnpublished
    events), which bears the kind of the track the publication holds and
    none when it holds no track; or the kind alone (the forced local
    unpublish of [turnOffMyVideo], [turnOffMyAudio] and [leaveRoom]). *)
Theorem track_notifications_by_origin actions storage defaults :
  Forall (sourced actions) (notified (run actions (newEngine storage defaults))).
Proof. apply (run_sourced actions [] (newEngine storage defaults)). constructor. Qed.

(** Against C6 as stated: the remote participant of the sample session
    unpublishes the audio track that was never subscribed to; the
    unsubscribed notification carries a descriptor with no media kind. *)
Lemma remote_unpublish_without_track_has_no_kind :
  pub_track Sample.bobAudio = None /\
  notified (perform (Sdk_fires (Ev_trackUnpublished "PA-bob" Sample.bobAudio))
                    Sample.joined) =
    notified Sample.joined ++
    [ {| eventType := ParticipantUnsubscribedTrack;
         args := OfTrack {| td_kind := None; td_sid := Some "MT4"; td_id := None |}
                         (Some "PA-bob");
         delivered := true |} ].
Proof. split; vm_compute; reflexivity. Qed.

(** ** Device identifiers *)

Lemma prepare_resolves accessToken roomName connectOptions st token room cbs a v :
  supplied accessToken = Some token ->
  supplied roomName = Some room ->
  eventCallbacks st = Some cbs ->
  audio (effective st connectOptions) = Some a ->
  video (effective st connectOptions) = Some v ->
  exists o st',
    prepare accessToken roomName connectOptions st = (Ok (token, o), st') /\
    deviceIds st' = Some (identifiers st) /\
    currentConnectOptions st' = Some o /\
    deviceIdOf (audio o) = resolved a (ids_audio (identifiers st)) /\
    deviceIdOf (video o) = resolved v (ids_video (identifiers st)).
Proof.
  intros Htoken Hroom Hcb Ha Hv. unfold effective in *.
  unfold prepare. rewrite Htoken, Hroom.
  unfold bind at 1, get at 1. rewrite Hcb.
  generalize (negb (isSome connectOptions)). intros shared.
  set (o1 := set_name room (default (defaultConnectOptions st) connectOptions)).
  unfold bind at 1, store at 1, when at 1.
  set (st1 := snd ((if shared then modify (set_defaultConnectOptions o1) else ret tt) st)).
  assert (Hst1 : (if shared then modify (set_defaultConnectOptions o1) else ret tt) st
                 = (Ok tt, st1)) by (subst st1; by destruct shared).
  rewrite Hst1. unfold bind at 1.
  set (st2 := snd (when (negb (isSome (deviceIds st))) fetchDeviceIds st1)).
  assert (Hst2 : when (negb (isSome (deviceIds st))) fetchDeviceIds st1 = (Ok tt, st2))
    by (subst st2; unfold when; by destruct (negb _)).
  rewrite Hst2. unfold bind at 1, get at 1.
  assert (Hids : deviceIds st2 = Some (identifiers st)).
  { subst st2 st1. unfold identifiers, when.
    destruct (deviceIds st) eqn:Hd; cbn [isSome negb];
      destruct shared; cbn; by rewrite ?Hd. }
  rewrite Hids. cbn [default].
  unfold lift at 1, addAudioDeviceId. cbn [audio o1 set_name]. rewrite Ha.
  unfold resolved.
  destruct (truthy_deviceId (deviceId a)) eqn:Hta; cbn [negb];
    unfold bind at 1, store at 1, when at 1;
    unfold lift at 1, addVideoDeviceId; cbn [video o1 set_name set_audio]; rewrite Hv;
    destruct (truthy_deviceId (deviceId v)) eqn:Htv; cbn [negb];
    unfold lift, checkDeviceIds, store, when, bind, modify, ret;
    subst o1;
    cbn [audio video set_audio set_video set_name deviceIdOf deviceId set_deviceId];
    rewrite ?Ha, ?Hv;
    cbn [audio video set_audio set_video set_name deviceIdOf deviceId set_deviceId
         truthy_deviceId negb];
    rewrite ?Hta, ?Htv; cbn [negb];
    destruct shared; cbn [snd]; (eexists _, _; split; [reflexivity |]);
    cbn [deviceIds currentConnectOptions set_currentConnectOptions
         set_defaultConnectOptions audio video set_audio set_video set_name
         deviceIdOf deviceId set_deviceId];
    rewrite ?Ha, ?Hv; repeat split; assumption.
Qed.

Lemma connected_resolution room : preserves resolution (connected room).
Proof.
  unfold connected, participantConnected, trackSubscribed, setupTrackMuteEvents,
    notifyOfEvent, on, once_, addListener, record.
  preserving.
Qed.

Lemma joinRoom_after_prepare accessToken roomName connectOptions answer st token o st1 :
  prepare accessToken roomName connectOptions st = (Ok (token, o), st1) ->
  resolution (snd (joinRoom accessToken roomName connectOptions answer st)) = resolution st1 /\
  In (Call_connect token o)
     (calls (snd (joinRoom accessToken roomName connectOptions answer st))).
Proof.
  intros Hp. unfold joinRoom. rewrite Hp.
  assert (Hin : forall t, In (Call_connect token o)
            (sdkCalls ((trace st1 ++ [Call (Call_connect token o)]) ++ t))).
  { intros t. rewrite !sdkCalls_app. apply in_or_app. left. apply in_or_app. right.
    by left. }
  destruct answer as [room|reason]; cbn [snd].
  - pose proof (connected_resolution room (snd (sdkCall (Call_connect token o) st1))) as H.
    destruct (adds_connected (fun _ => True) (fun _ => True) (fun _ => I)
                (fun _ _ _ _ => I) (fun _ _ _ _ _ => I) room (fun _ _ _ _ => I)
                (snd (sdkCall (Call_connect token o) st1))) as (t & Ht & _).
    rewrite trace_sdkCall in Ht.
    destruct (connected room _) as [[[]|e] st3]; cbn [snd] in *;
      (split; [exact H | unfold calls; rewrite Ht; apply Hin]).
  - split; [reflexivity |]. unfold calls. rewrite trace_sdkCall.
    specialize (Hin []). by rewrite app_nil_r in Hin.
Qed.

(** C9, as the code has it.  After [assignDefaultVideoInputDeviceId(id)],
    a [joinRoom] that passes the three argument checks, made with options
    that have an audio section and a video section, the video section
    carrying no device identifier, resolves the video
    device identifier to [{ exact: id }] when [deviceIds] is still
    [undefined], that is when no earlier [joinRoom] of the engine passed
    those checks; otherwise it resolves it to the identifier cached by that
    earlier call, whatever [id] is.  This is what [currentConnectOptions]
    holds afterwards and what [Video.connect] was called with.  (The round
    trip of the specification is the case [id = "cam-1"].) *)
Theorem assigned_video_device_is_resolved_unless_cached
    st id accessToken roomName connectOptions answer token room cbs a v :
  supplied accessToken = Some token ->
  supplied roomName = Some room ->
  eventCallbacks st = Some cbs ->
  audio (effective st connectOptions) = Some a ->
  video (effective st connectOptions) = Some v ->
  truthy_deviceId (deviceId v) = false ->
  let st1 := snd (assignDefaultVideoInputDeviceId id st) in
  let st2 := snd (joinRoom accessToken roomName connectOptions answer st1) in
  exists o,
    currentConnectOptions st2 = Some o /\
    deviceIdOf (video o) =
      Some (DeviceExact match deviceIds st with
                        | None => Some id
                        | Some cached => ids_video cached
                        end) /\
    In (Call_connect token o) (calls st2).
Proof.
  intros Htoken Hroom Hcb Ha Hv Hnone. cbn zeta.
  set (st1 := snd (assignDefaultVideoInputDeviceId id st)).
  destruct (prepare_resolves accessToken roomName connectOptions st1 token room cbs a v
              Htoken Hroom Hcb Ha Hv) as (o & st' & Hp & Hids & Hopt & _ & Hvideo).
  destruct (joinRoom_after_prepare _ _ _ answer _ _ _ _ Hp) as [Hres Hcall].
  exists o. split; [| split; [| exact Hcall]].
  - unfold resolution in Hres. inversion Hres. congruence.
  - rewrite Hvideo. unfold resolved. rewrite Hnone.
    unfold identifiers. subst st1.
    cbn [deviceIds localStorage assignDefaultVideoInputDeviceId setItem modify snd
         set_localStorage].
    destruct (deviceIds st) as [cached|]; [reflexivity |].
    cbn [ids_video]. by rewrite lookup_insert_eq.
Qed.

(** Against C9 as stated: the first [joinRoom] of the engine is rejected
    because its options have no video section, and nothing is connected;
    it has read [deviceIds] all the same.  The camera assigned afterwards
    is stored, and the connect that follows, the first one of the engine,
    made with options that name no device, asks for
    [{ exact: null }]. *)
Lemma assigned_video_device_is_not_resolved_once_cached :
  let audioOnly := {| name := None; audio := Some Sample.noDevice; video := None |} in
  let st1 := snd (joinRoom (Some "token") (Some "daily") (Some audioOnly)
                    (inl Sample.room) Sample.fresh) in
  let st2 := snd (assignDefaultVideoInputDeviceId "cam-1" st1) in
  let st3 := snd (joinRoom (Some "token") (Some "daily") (Some Sample.options)
                    (inl Sample.room) st2) in
  outcome (joinRoom (Some "token") (Some "daily") (Some audioOnly)
             (inl Sample.room) Sample.fresh) = Rejected NoVideoInfo /\
  calls st1 = [] /\
  localStorage st2 !! "videoDeviceId" = Some "cam-1" /\
  outcome (joinRoom (Some "token") (Some "daily") (Some Sample.options)
             (inl Sample.room) st2) = Resolved Sample.room /\
  exists o,
    calls st3 = [Call_connect "token" o] /\
    currentConnectOptions st3 = Some o /\
    deviceIdOf (video o) = Some (DeviceExact None).
Proof.
  cbv zeta. repeat (split; [vm_compute; reflexivity |]).
  eexists. repeat split; vm_compute; reflexivity.
Qed.

(** Once read, [deviceIds] is never written again. *)
Lemma prepare_keeps_deviceIds accessToken roomName connectOptions st ids :
  deviceIds st = Some ids ->
  deviceIds (snd (prepare accessToken roomName connectOptions st)) = Some ids.
Proof.
  intros Hids. unfold prepare.
  destruct (supplied accessToken); [| exact Hids].
  destruct (supplied roomName); [| exact Hids].
  unfold bind at 1, get at 1.
  destruct (eventCallbacks st); [| exact Hids].
  rewrite Hids. cbn [isSome negb]. rewrite <- Hids.
  apply (preserves_bind deviceIds); [unfold store; preserving |].
  intros _. unfold lift, store, when. preserving.
Qed.

Lemma invoke_deviceIds c ev : preserves deviceIds (invoke c ev).
Proof.
  destruct c, ev; cbn [invoke]; try apply preserves_ret;
    unfold participantConnected, participantDisconnected, dominantSpeakerChanged,
      trackSubscribed, trackUnsubscribed, setupTrackMuteEvents, notifyOfEvent,
      on, addListener, record;
    preserving.
Qed.

Lemma dispatch_deviceIds ev : preserves deviceIds (dispatch ev).
Proof. unfold dispatch. preserving. apply invoke_deviceIds. Qed.

Lemma turnOffMy_deviceIds k sdk st :
  deviceIds (snd (turnOffMy k sdk st)) = deviceIds st.
Proof.
  unfold turnOffMy.
  destruct (currentRoom st) as [room|]; [| reflexivity].
  destruct (tracksOfKind k (localParticipant room)) as [|pub pubs]; [reflexivity |].
  destruct (pub_track pub) as [track|]; [| reflexivity].
  assert (H : preserves deviceIds (unpublishAndStop k room track sdk)).
  { unfold unpublishAndStop, raise, trackUnsubscribed, notifyOfEvent, sdkCall, record.
    preserving. }
  specialize (H st).
  by destruct (unpublishAndStop k room track sdk st) as [[[]|e] st1].
Qed.

Lemma leaveRoom_deviceIds roomName sdk : preserves deviceIds (leaveRoom roomName sdk).
Proof.
  unfold leaveRoom, notifyOfEvent, sdkCall, record. preserving;
    try (intros st; apply turnOffMy_deviceIds); apply dispatch_deviceIds.
Qed.

Lemma setVideoPriority_deviceIds p : preserves deviceIds (setVideoPriority p).
Proof. unfold setVideoPriority, sdkCall, record. preserving. Qed.

Lemma startScreenShare_deviceIds height width sdk st :
  deviceIds (snd (startScreenShare height width sdk st)) = deviceIds st.
Proof.
  unfold startScreenShare.
  destruct (orVideoOption width widthOf st) as [w|e]; [| reflexivity].
  destruct (orVideoOption height heightOf st) as [h|e]; [| reflexivity].
  unfold createScreenTrack.
  destruct (canScreenshare sdk); cbn [negb]; [| reflexivity].
  set (c := if supportsGetDisplayMedia sdk then _ else _). clearbody c.
  destruct (capture sdk) as [id|]; [| reflexivity].
  assert (H : preserves deviceIds (shareTrack (LocalVideoTrack id))).
  { unfold shareTrack, sdkCall, record. preserving. apply setVideoPriority_deviceIds. }
  specialize (H (snd (sdkCall c st))).
  destruct (shareTrack (LocalVideoTrack id) _) as [[room|e] st2]; cbn [snd] in *;
    [destruct (publishTrack_answer sdk) |]; exact H.
Qed.

Lemma stopScreenShare_deviceIds stop_throws st :
  deviceIds (snd (stopScreenShare stop_throws st)) = deviceIds st.
Proof.
  unfold stopScreenShare.
  destruct (currentScreenTrack st) as [track|]; [| reflexivity].
  assert (H : preserves deviceIds (sdkCall (Call_stop track);; raise stop_throws;;
                 modify (set_currentScreenTrack None);; setVideoPriority high)).
  { unfold raise, sdkCall, record. preserving. apply setVideoPriority_deviceIds. }
  specialize (H st).
  by destruct ((sdkCall (Call_stop track);; _) st) as [[[]|e] st1].
Qed.

Lemma joinRoom_keeps_deviceIds accessToken roomName connectOptions answer st ids :
  deviceIds st = Some ids ->
  deviceIds (snd (joinRoom accessToken roomName connectOptions answer st)) = Some ids.
Proof.
  intros Hids. unfold joinRoom.
  pose proof (prepare_keeps_deviceIds accessToken roomName connectOptions st ids Hids) as Hp.
  destruct (prepare accessToken roomName connectOptions st) as [[[token o]|e] st1];
    cbn [snd] in *; [| exact Hp].
  destruct answer as [room|reason]; cbn [snd]; [| exact Hp].
  pose proof (connected_resolution room (snd (sdkCall (Call_connect token o) st1))) as H.
  unfold resolution in H.
  destruct (connected room _) as [[[]|e] st3]; cbn [snd] in *; inversion H; congruence.
Qed.

Lemma perform_keeps_deviceIds a st ids :
  deviceIds st = Some ids -> deviceIds (perform a st) = Some ids.
Proof.
  intros Hids. destruct a; cbn [perform];
    try (by apply joinRoom_keeps_deviceIds);
    try (unfold turnOffMyVideo, turnOffMyAudio; by rewrite turnOffMy_deviceIds);
    try (rewrite <- Hids; apply turnOnMy_keeps);
    try (by rewrite startScreenShare_deviceIds);
    try (by rewrite stopScreenShare_deviceIds);
    try (by rewrite leaveRoom_deviceIds);
    try (by rewrite dispatch_deviceIds);
    try (by destruct event_callbacks);
    exact Hids.
Qed.

Lemma run_keeps_deviceIds actions st ids :
  deviceIds st = Some ids -> deviceIds (run actions st) = Some ids.
Proof.
  revert st. induction actions as [|a actions IH]; intros st Hids; [exact Hids |].
  cbn [run fold_left]. apply IH. by apply perform_keeps_deviceIds.
Qed.

(** C10, as the code has it.  The first [joinRoom] of the engine to pass
    the three argument checks reads the audio and video device identifiers
    from [localStorage] and caches them in [deviceIds]; nothing done with
    the engine afterwards changes the cache.  Every later [joinRoom] gives
    a media section that carries no device identifier when the call reads
    it the identifier cached at that first call, whatever
    [assignDefault...] and [clearDefault...] calls were made in between,
    and leaves a section that carries one as it is ([resolved]). *)
Theorem later_joinRoom_resolves_with_the_cached_deviceIds
    st accessToken1 roomName1 connectOptions1 answer1 token1 room1 cbs1 between
    accessToken roomName connectOptions answer token room cbs a v :
  deviceIds st = None ->
  supplied accessToken1 = Some token1 ->
  supplied roomName1 = Some room1 ->
  eventCallbacks st = Some cbs1 ->
  let audioAtFirst := localStorage st !! "audioInputDeviceId" in
  let videoAtFirst := localStorage st !! "videoDeviceId" in
  let st1 := snd (joinRoom accessToken1 roomName1 connectOptions1 answer1 st) in
  let st2 := run between st1 in
  let st3 := snd (joinRoom accessToken roomName connectOptions answer st2) in
  supplied accessToken = Some token ->
  supplied roomName = Some room ->
  eventCallbacks st2 = Some cbs ->
  audio (effective st2 connectOptions) = Some a ->
  video (effective st2 connectOptions) = Some v ->
  deviceIds st1 = Some {| ids_audio := audioAtFirst; ids_video := videoAtFirst |} /\
  deviceIds st2 = deviceIds st1 /\
  deviceIds st3 = deviceIds st1 /\
  exists o,
    currentConnectOptions st3 = Some o /\
    deviceIdOf (audio o) = resolved a audioAtFirst /\
    deviceIdOf (video o) = resolved v videoAtFirst /\
    In (Call_connect token o) (calls st3).
Proof.
  intros Hfresh Htoken1 Hroom1 Hcb1. cbn zeta.
  set (st1 := snd (joinRoom accessToken1 roomName1 connectOptions1 answer1 st)).
  set (st2 := run between st1).
  intros Htoken Hroom Hcb Ha Hv.
  assert (H1 : deviceIds st1 =
               Some {| ids_audio := localStorage st !! "audioInputDeviceId";
                       ids_video := localStorage st !! "videoDeviceId" |}).
  { subst st1. unfold joinRoom.
    assert (Hp : deviceIds (snd (prepare accessToken1 roomName1 connectOptions1 st)) =
                 Some {| ids_audio := localStorage st !! "audioInputDeviceId";
                         ids_video := localStorage st !! "videoDeviceId" |}).
    { unfold prepare. rewrite Htoken1, Hroom1.
      unfold bind at 1, get at 1. rewrite Hcb1, Hfresh. cbn [isSome negb].
      set (o1 := set_name room1 _).
      assert (Hs1 : exists s, store (negb (isSome connectOptions1)) o1 st = (Ok tt, s) /\
                              localStorage s = localStorage st).
      { unfold store, when, modify, ret.
        destruct (negb (isSome connectOptions1)); eexists; split; reflexivity. }
      destruct Hs1 as (s & Hs & Hl).
      rewrite (bind_run _ _ _ _ _ Hs).
      assert (Hf : when true fetchDeviceIds s =
                   (Ok tt, set_deviceIds
                      (Some {| ids_audio := localStorage st !! "audioInputDeviceId";
                               ids_video := localStorage st !! "videoDeviceId" |}) s)).
      { unfold when, fetchDeviceIds, modify. by rewrite Hl. }
      rewrite (bind_run _ _ _ _ _ Hf).
      match goal with
      | |- deviceIds (snd (?m ?s2)) = _ =>
          assert (Hrest : preserves deviceIds m);
          [unfold lift, store, when; preserving | exact (Hrest s2)]
      end. }
    destruct (prepare accessToken1 roomName1 connectOptions1 st) as [[[t o]|e] s1];
      cbn [snd] in *; [| exact Hp].
    destruct answer1 as [r|reason]; cbn [snd]; [| exact Hp].
    pose proof (connected_resolution r (snd (sdkCall (Call_connect t o) s1))) as H.
    unfold resolution in H.
    destruct (connected r _) as [[[]|e] s3]; cbn [snd] in *; inversion H; congruence. }
  assert (H2 : deviceIds st2 = deviceIds st1)
    by (rewrite H1; by apply run_keeps_deviceIds).
  split; [exact H1 |]. split; [exact H2 |].
  destruct (prepare_resolves accessToken roomName connectOptions st2 token room cbs a v
              Htoken Hroom Hcb Ha Hv) as (o & st' & Hp & Hids & Hopt & Haudio & Hvideo).
  destruct (joinRoom_after_prepare _ _ _ answer _ _ _ _ Hp) as [Hres Hcall].
  unfold resolution in Hres. inversion Hres as [[Hd Hc]].
  assert (Hident : identifiers st2 =
                   {| ids_audio := localStorage st !! "audioInputDeviceId";
                      ids_video := localStorage st !! "videoDeviceId" |})
    by (unfold identifiers; by rewrite H2, H1).
  split; [by rewrite Hd, Hids, Hident, H1 |].
  exists o. split; [congruence |].
  rewrite Hident in Haudio, Hvideo. repeat split; assumption.
Qed.

(** Against C10 as stated: the engine joins with no options, so with the
    shared default options, and caches the camera "cam-0" of the store.
    [turnOnMyVideo("cam-9")] writes its argument into the video section
    of those options.  After [leaveRoom], a second [joinRoom] with no
    options finds a device identifier in the section and connects with
    "cam-9", not with the cached identifier. *)
Lemma turnOnMyVideo_changes_the_device_of_later_joinRooms :
  let st1 := snd (joinRoom (Some "token") (Some "daily") None (inl Sample.room)
                    stored) in
  let st2 := run [Do_turnOnMyVideo (Some "cam-9") republishing;
                  Do_leaveRoom "daily" firing] st1 in
  let st3 := snd (joinRoom (Some "token") (Some "weekly") None (inl Sample.otherRoom)
                    st2) in
  deviceIds st1 = Some {| ids_audio := None; ids_video := Some "cam-0" |} /\
  deviceIds st3 = deviceIds st1 /\
  (exists o, calls st1 = [Call_connect "token" o] /\
             deviceIdOf (video o) = Some (DeviceExact (Some "cam-0"))) /\
  outcome (joinRoom (Some "token") (Some "weekly") None (inl Sample.otherRoom) st2)
    = Resolved Sample.otherRoom /\
  exists o, last (calls st3) (Call_disconnect "") = Call_connect "token" o /\
            currentConnectOptions st3 = Some o /\
            deviceIdOf (video o) = Some (DevicePlain "cam-9").
Proof.
  cbv zeta. split; [vm_compute; reflexivity |]. split; [vm_compute; reflexivity |].
  split; [eexists; split; vm_compute; reflexivity |].
  split; [vm_compute; reflexivity |].
  eexists. repeat split; vm_compute; reflexivity.
Qed.

(** ** Turning the camera off *)

(** C7.  [turnOffMyVideo] rejects and leaves the engine state exactly as
    it was, in particular notifies nothing, when there is no local video
    track: no video publication ([NoLocalTracks]), a first video
    publication without a track ([NoLocalTrackInfo]) or no room at all
    ([RoomInfoMissing]).  When the first video publication holds a track
    and the SDK calls go through, it unpublishes that track, stops it,
    then notifies the forced [ParticipantUnsubscribedTrack] tagged
    [video] for the local participant, and resolves. *)
Theorem turnOffMyVideo_needs_a_local_track sdk st :
  (currentRoom st = None ->
     turnOffMyVideo sdk st = (Rejected (RoomInfoMissing Video), st)) /\
  (forall room,
     currentRoom st = Some room -> videoTracks (localParticipant room) = [] ->
     turnOffMyVideo sdk st = (Rejected (NoLocalTracks Video), st)) /\
  (forall room pub others,
     currentRoom st = Some room ->
     videoTracks (localParticipant room) = pub :: others -> pub_track pub = None ->
     turnOffMyVideo sdk st = (Rejected (NoLocalTrackInfo Video), st)) /\
  (forall room pub others track cbs,
     currentRoom st = Some room ->
     videoTracks (localParticipant room) = pub :: others -> pub_track pub = Some track ->
     unpublishTrack_throws sdk = None -> stop_throws sdk = None ->
     eventCallbacks st = Some cbs ->
     outcome (turnOffMyVideo sdk st) = Resolved tt /\
     trace (snd (turnOffMyVideo sdk st)) =
       trace st ++
       [ Call (Call_unpublishTrack track); Call (Call_stop track);
         notice cbs ParticipantUnsubscribedTrack
           (OfTrack (kindOnly Video) (Some (p_sid (localParticipant room)))) ] /\
     currentRoom (snd (turnOffMyVideo sdk st)) =
       Some (with_localParticipant (withoutTrack track (localParticipant room)) room)).
Proof.
  unfold turnOffMyVideo, turnOffMy, videoTracks. split; [| split; [| split]].
  - by intros ->.
  - intros room -> ->. reflexivity.
  - intros room pub others -> -> ->. reflexivity.
  - intros room pub others track cbs -> -> -> Hunpublish Hstop Hcbs.
    unfold unpublishAndStop, raise. rewrite Hunpublish, Hstop.
    unfold trackUnsubscribed, notifyOfEvent, sdkCall, record, bind, modify, get, ret.
    cbn [eventCallbacks set_trace set_currentRoom]. rewrite Hcbs.
    unfold outcome. cbn [fst snd trace set_trace set_currentRoom currentRoom].
    rewrite <- !app_assoc. repeat split.
Qed.

Lemma turnOffMyVideo_needs_a_local_track_witness :
  currentRoom Sample.joined = Some Sample.room /\
  videoTracks (localParticipant Sample.room) =
    [Sample.localPublication "MT2" Sample.cam] /\
  pub_track (Sample.localPublication "MT2" Sample.cam) = Some Sample.cam /\
  eventCallbacks Sample.joined = Some registerCallbacks /\
  outcome (turnOffMyVideo smoothly Sample.joined) = Resolved tt /\
  currentRoom (snd (turnOffMyVideo smoothly Sample.joined)) =
    Some (with_localParticipant
            (withoutTrack Sample.cam (localParticipant Sample.room)) Sample.room).
Proof.
  assert (H1 : currentRoom Sample.joined = Some Sample.room) by (vm_compute; reflexivity).
  assert (H2 : videoTracks (localParticipant Sample.room) =
               [Sample.localPublication "MT2" Sample.cam]) by (vm_compute; reflexivity).
  assert (H3 : pub_track (Sample.localPublication "MT2" Sample.cam) = Some Sample.cam)
    by reflexivity.
  assert (H4 : eventCallbacks Sample.joined = Some registerCallbacks)
    by (vm_compute; reflexivity).
  do 4 (split; [assumption |]).
  destruct (turnOffMyVideo_needs_a_local_track smoothly Sample.joined) as (_ & _ & _ & H).
  destruct (H _ _ _ _ _ H1 H2 H3 eq_refl eq_refl H4) as (Ho & _ & Hr).
  split; [exact Ho | exact Hr].
Defined.

(** ** Stopping a screen share that was never started *)

(** C8, the first half as the code has it: with no screen track held the
    executor of [stopScreenShare] calls neither [resolve] nor [reject], so
    the promise it returns never settles; the state is unchanged. *)
Theorem stopScreenShare_without_track_never_settles stop_throws st :
  currentScreenTrack st = None ->
  stopScreenShare stop_throws st = (Pending, st).
Proof. intros H. unfold stopScreenShare. by rewrite H. Qed.

Lemma stopScreenShare_without_track_never_settles_witness :
  currentScreenTrack Sample.joined = None /\
  stopScreenShare None Sample.joined = (Pending, Sample.joined).
Proof.
  assert (H : currentScreenTrack Sample.joined = None) by (vm_compute; reflexivity).
  split; [exact H |].
  exact (stopScreenShare_without_track_never_settles None Sample.joined H).
Defined.

(** ** The round trip and the cache on the sample engine *)

Lemma assigned_video_device_is_resolved_unless_cached_witness :
  eventCallbacks Sample.fresh = Some registerCallbacks /\
  deviceIds Sample.fresh = None /\
  truthy_deviceId (deviceId Sample.noDevice) = false /\
  exists o,
    currentConnectOptions
      (snd (joinRoom (Some "token") (Some "daily") (Some Sample.options) (inl Sample.room)
              (snd (assignDefaultVideoInputDeviceId "cam-1" Sample.fresh)))) = Some o /\
    deviceIdOf (video o) = Some (DeviceExact (Some "cam-1")) /\
    In (Call_connect "token" o)
       (calls (snd (joinRoom (Some "token") (Some "daily") (Some Sample.options)
                      (inl Sample.room)
                      (snd (assignDefaultVideoInputDeviceId "cam-1" Sample.fresh))))).
Proof.
  do 3 (split; [reflexivity |]).
  exact (assigned_video_device_is_resolved_unless_cached Sample.fresh "cam-1"
           (Some "token") (Some "daily") (Some Sample.options) (inl Sample.room)
           "token" "daily" registerCallbacks Sample.noDevice Sample.noDevice
           eq_refl eq_refl eq_refl eq_refl eq_refl eq_refl).
Defined.

Lemma later_joinRoom_resolves_with_the_cached_deviceIds_witness :
  deviceIds stored = None /\
  eventCallbacks stored = Some registerCallbacks /\
  eventCallbacks
    (run meanwhile
       (snd (joinRoom (Some "token") (Some "daily") (Some Sample.options)
               (inl Sample.room) stored))) = Some registerCallbacks /\
  exists o,
    currentConnectOptions
      (snd (joinRoom (Some "token") (Some "weekly") (Some Sample.options)
              (inl Sample.otherRoom)
              (run meanwhile
                 (snd (joinRoom (Some "token") (Some "daily") (Some Sample.options)
                         (inl Sample.room) stored))))) = Some o /\
    deviceIdOf (video o) = Some (DeviceExact (Some "cam-0")).
Proof.
  assert (H1 : deviceIds stored = None) by reflexivity.
  assert (H2 : eventCallbacks stored = Some registerCallbacks) by reflexivity.
  assert (H3 : eventCallbacks
    (run meanwhile
       (snd (joinRoom (Some "token") (Some "daily") (Some Sample.options)
               (inl Sample.room) stored))) = Some registerCallbacks)
    by (vm_compute; reflexivity).
  do 3 (split; [assumption |]).
  destruct (later_joinRoom_resolves_with_the_cached_deviceIds stored
              (Some "token") (Some "daily") (Some Sample.options) (inl Sample.room)
              "token" "daily" registerCallbacks meanwhile
              (Some "token") (Some "weekly") (Some Sample.options) (inl Sample.otherRoom)
              "token" "weekly" registerCallbacks Sample.noDevice Sample.noDevice
              H1 eq_refl eq_refl H2 eq_refl eq_refl H3 eq_refl eq_refl)
    as (_ & _ & _ & o & Ho & _ & Hv & _).
  exists o. split; [exact Ho |]. rewrite Hv. reflexivity.
Defined.

(** * Further properties *)

(** ** Which notifications reach a callback *)

Section Notes.
Variable cbs : list string.

Lemma notes_nothing {A} (m : M A) :
  preserves (fun st => (eventCallbacks st, trace st)) m -> notes cbs m.
Proof.
  intros H st Hst. specialize (H st). cbv beta in H. inversion H as [[Hc Ht]].
  split; [congruence |]. exists []. by rewrite app_nil_r.
Qed.

Lemma notes_ret {A} (a : A) : notes cbs (ret a).
Proof. apply notes_nothing, preserves_ret. Qed.

Lemma notes_throw {A} e : notes cbs (@throw A e).
Proof. apply notes_nothing, preserves_throw. Qed.

Lemma notes_get : notes cbs get.
Proof. apply notes_nothing, preserves_get. Qed.

Lemma notes_modify g :
  (forall st, eventCallbacks (g st) = eventCallbacks st) ->
  (forall st, trace (g st) = trace st) -> notes cbs (modify g).
Proof.
  intros Hc Ht. apply notes_nothing, preserves_modify. intros st. by rewrite Hc, Ht.
Qed.

Lemma notes_bind {A B} (m : M A) (k : A -> M B) :
  notes cbs m -> (forall a, notes cbs (k a)) -> notes cbs (bind m k).
Proof.
  intros Hm Hk st Hst. unfold bind. destruct (Hm st Hst) as (Hc1 & t1 & Ht1 & HP1).
  destruct (m st) as [[a|e] st1]; cbn [snd] in *; [| split; [exact Hc1 | by exists t1]].
  destruct (Hk a st1 Hc1) as (Hc2 & t2 & Ht2 & HP2).
  split; [exact Hc2 |]. exists (t1 ++ t2). rewrite Ht2, Ht1, app_assoc.
  split; [reflexivity | by apply Forall_app].
Qed.

Lemma notes_record e : faithful cbs e -> notes cbs (record e).
Proof.
  intros He st Hst. split; [exact Hst |].
  exists [e]. split; [reflexivity | by constructor].
Qed.

Lemma notes_when b m : notes cbs m -> notes cbs (when b m).
Proof. destruct b; [auto | intros _; apply notes_ret]. Qed.

Lemma notes_forEach {A} (xs : list A) (k : A -> M unit) :
  (forall x, notes cbs (k x)) -> notes cbs (forEach xs k).
Proof.
  intros Hk. induction xs; cbn [forEach]; [apply notes_ret |].
  apply notes_bind; auto.
Qed.

Lemma notes_notifyOfEvent e p : notes cbs (notifyOfEvent e p).
Proof.
  intros st Hst. unfold notifyOfEvent, bind, get. rewrite Hst.
  split; [exact Hst |]. eexists. split; [reflexivity |].
  constructor; [reflexivity | constructor].
Qed.

Lemma notes_addListener l : notes cbs (addListener l).
Proof.
  unfold addListener. apply notes_bind; [by apply notes_modify |].
  intros _. by apply notes_record.
Qed.

Lemma notes_forget {A} (op : Engine -> Promise A * Engine) :
  keepsNoting cbs (fun st => snd (op st)) -> notes cbs (forget op).
Proof. intros H st. exact (H st). Qed.

Ltac noting :=
  repeat match goal with
    | |- notes _ (ret _) => apply notes_ret
    | |- notes _ (throw _) => apply notes_throw
    | |- notes _ get => apply notes_get
    | |- notes _ (bind _ _) => apply notes_bind
    | |- notes _ (when _ _) => apply notes_when
    | |- notes _ (forEach _ _) => apply notes_forEach
    | |- notes _ (modify _) => apply notes_modify; intros; reflexivity
    | |- notes _ (notifyOfEvent _ _) => apply notes_notifyOfEvent
    | |- notes _ (sdkCall _) => apply notes_record; exact I
    | |- notes _ (record _) => apply notes_record; exact I
    | |- notes _ (on _ _ _) => apply notes_addListener
    | |- notes _ (once_ _ _ _) => apply notes_addListener
    | |- notes _ (addListener _) => apply notes_addListener
    | |- notes _ (let _ := _ in _) => cbv zeta
    | |- notes _ (match ?x with _ => _ end) => destruct x
    | |- forall _, _ => intro
    end.

Lemma keepsNoting_id : keepsNoting cbs (fun st => st).
Proof. intros st Hst. split; [exact Hst |]. exists []. by rewrite app_nil_r. Qed.

Lemma notes_participantConnected participant isRemote :
  notes cbs (participantConnected participant isRemote).
Proof.
  unfold participantConnected, trackSubscribed, setupTrackMuteEvents. noting.
Qed.

Lemma notes_invoke c ev : notes cbs (invoke c ev).
Proof.
  destruct c, ev; cbn [invoke]; try apply notes_ret;
    unfold participantDisconnected, dominantSpeakerChanged, trackSubscribed,
      trackUnsubscribed, setupTrackMuteEvents;
    noting; apply notes_participantConnected.
Qed.

Lemma notes_dispatch ev : notes cbs (dispatch ev).
Proof. unfold dispatch. noting. apply notes_invoke. Qed.

Lemma notes_prepare accessToken roomName connectOptions :
  notes cbs (prepare accessToken roomName connectOptions).
Proof.
  apply notes_nothing. unfold prepare, lift, store, fetchDeviceIds. preserving.
Qed.

Lemma notes_connected room : notes cbs (connected room).
Proof. unfold connected. noting; apply notes_participantConnected. Qed.

Lemma keepsNoting_joinRoom accessToken roomName connectOptions answer :
  keepsNoting cbs (fun st => snd (joinRoom accessToken roomName connectOptions answer st)).
Proof.
  intros st Hst. unfold joinRoom.
  destruct (notes_prepare accessToken roomName connectOptions st Hst)
    as (Hc0 & t0 & Ht0 & HP0).
  destruct (prepare accessToken roomName connectOptions st) as [[[token options]|e] st1];
    cbn [snd] in *; [| split; [exact Hc0 | by exists t0]].
  assert (Hcall : notes cbs (sdkCall (Call_connect token options)))
    by (apply notes_record; exact I).
  destruct (Hcall st1 Hc0) as (Hc1 & t1 & Ht1 & HP1).
  destruct answer as [room|reason]; cbn [snd].
  - destruct (notes_connected room _ Hc1) as (Hc2 & t2 & Ht2 & HP2).
    destruct (connected room _) as [[[]|e] st3]; cbn [snd] in *;
      (split; [exact Hc2 |]); exists (t0 ++ t1 ++ t2);
      (split; [rewrite Ht2, Ht1, Ht0, <- !app_assoc; reflexivity |]);
      repeat (apply Forall_app; split); assumption.
  - split; [exact Hc1 |]. exists (t0 ++ t1). rewrite Ht1, Ht0, <- app_assoc.
    split; [reflexivity | by apply Forall_app].
Qed.

Lemma keepsNoting_turnOnMy k givenDeviceId sdk :
  keepsNoting cbs (fun st => snd (turnOnMy k givenDeviceId sdk st)).
Proof.
  intros st Hst. split; [rewrite <- Hst; apply turnOnMy_keeps |].
  apply (extends_turnOnMy (faithful cbs)). intros c. exact I.
Qed.

Lemma keepsNoting_turnOffMy k sdk : keepsNoting cbs (fun st => snd (turnOffMy k sdk st)).
Proof.
  intros st Hst. unfold turnOffMy.
  destruct (currentRoom st) as [room|]; [| by apply keepsNoting_id].
  destruct (tracksOfKind k (localParticipant room)) as [|pub pubs];
    [by apply keepsNoting_id |].
  destruct (pub_track pub) as [track|]; [| by apply keepsNoting_id].
  assert (H : notes cbs (unpublishAndStop k room track sdk)).
  { unfold unpublishAndStop, raise, trackUnsubscribed. noting. }
  specialize (H st Hst).
  by destruct (unpublishAndStop k room track sdk st) as [[[]|e] st1].
Qed.

Lemma notes_leaveRoom roomName sdk : notes cbs (leaveRoom roomName sdk).
Proof.
  unfold leaveRoom. noting;
    try (apply notes_forget; apply keepsNoting_turnOffMy); apply notes_dispatch.
Qed.

Lemma notes_setVideoPriority p : notes cbs (setVideoPriority p).
Proof. unfold setVideoPriority. noting. Qed.

Lemma keepsNoting_startScreenShare height width sdk :
  keepsNoting cbs (fun st => snd (startScreenShare height width sdk st)).
Proof.
  intros st Hst. unfold startScreenShare.
  destruct (orVideoOption width widthOf st) as [w|e]; [| by apply keepsNoting_id].
  destruct (orVideoOption height heightOf st) as [h|e]; [| by apply keepsNoting_id].
  unfold createScreenTrack.
  destruct (canScreenshare sdk); cbn [negb]; [| by apply keepsNoting_id].
  set (c := if supportsGetDisplayMedia sdk then _ else _). clearbody c.
  assert (Hcall : notes cbs (sdkCall c)) by (apply notes_record; exact I).
  destruct (Hcall st Hst) as (Hc0 & t0 & Ht0 & HP0).
  destruct (capture sdk) as [id|]; [| split; [exact Hc0 | by exists t0]].
  assert (H : notes cbs (shareTrack (LocalVideoTrack id))).
  { unfold shareTrack. noting. apply notes_setVideoPriority. }
  destruct (H _ Hc0) as (Hc1 & t1 & Ht1 & HP1).
  destruct (shareTrack (LocalVideoTrack id) _) as [[room|e] st2]; cbn [snd] in *;
    [destruct (publishTrack_answer sdk); cbn [snd trace eventCallbacks set_currentRoom] |];
    (split; [exact Hc1 |]); exists (t0 ++ t1);
    (split; [by rewrite Ht1, Ht0, app_assoc | by apply Forall_app]).
Qed.

Lemma keepsNoting_stopScreenShare stop_throws :
  keepsNoting cbs (fun st => snd (stopScreenShare stop_throws st)).
Proof.
  intros st Hst. unfold stopScreenShare.
  destruct (currentScreenTrack st) as [track|]; [| by apply keepsNoting_id].
  assert (H : notes cbs (sdkCall (Call_stop track);; raise stop_throws;;
                         modify (set_currentScreenTrack None);; setVideoPriority high)).
  { unfold raise. noting. apply notes_setVideoPriority. }
  specialize (H st Hst).
  by destruct ((sdkCall (Call_stop track);; _) st) as [[[]|e] st1].
Qed.

Lemma keepsNoting_perform a : isInit a = false -> keepsNoting cbs (perform a).
Proof.
  destruct a; cbn [perform isInit]; intros Ha; try discriminate;
    try apply keepsNoting_joinRoom; try apply keepsNoting_turnOffMy;
    try apply keepsNoting_turnOnMy;
    try apply keepsNoting_startScreenShare; try apply keepsNoting_stopScreenShare;
    try apply notes_leaveRoom; try apply notes_dispatch;
    try (apply notes_nothing;
         unfold assignDefaultAudioInputDeviceId, assignDefaultAudioOutputDeviceId,
           assignDefaultVideoInputDeviceId, clearAllDefaultMediaDeviceIds,
           clearDefaultAudioInputDeviceId, clearDefaultAudioOutputDeviceId,
           clearDefaultVideoInputDeviceId, setItem, removeItem; preserving).
Qed.

Lemma keepsNoting_run actions :
  Forall (fun a => isInit a = false) actions -> keepsNoting cbs (run actions).
Proof.
  induction 1 as [|a actions Ha _ IH]; [apply keepsNoting_id |].
  intros st Hst. cbn [run fold_left].
  destruct (keepsNoting_perform a Ha st Hst) as (Hc1 & t1 & Ht1 & HP1).
  destruct (IH _ Hc1) as (Hc2 & t2 & Ht2 & HP2).
  split; [exact Hc2 |]. exists (t1 ++ t2). unfold run in Ht2. rewrite Ht2, Ht1, app_assoc.
  split; [reflexivity | by apply Forall_app].
Qed.
End Notes.

Lemma registerCallbacks_keys e :
  existsb (String.eqb ("on" ++ event_name e)) registerCallbacks =
  negb (ConferenceEvent_eqb e RoomCompleted).
Proof. by destruct e. Qed.

(** X1.  The object [registerCallbacks] returns files the handler for the
    end of the room under [onRoomDisconnected], a key [notifyOfEvent] never
    looks up.  So on an engine initialised with that object, and as long as
    [init] is not called again, every notification reaches a callback
    except [RoomCompleted], which never does. *)
Theorem registerCallbacks_delivers_all_but_RoomCompleted actions storage defaults :
  Forall (fun a => isInit a = false) actions ->
  Forall (fun n => delivered n = negb (ConferenceEvent_eqb (eventType n) RoomCompleted))
         (notified (run actions (initialized storage defaults))).
Proof.
  intros Hactions.
  destruct (keepsNoting_run registerCallbacks actions Hactions
              (initialized storage defaults) eq_refl) as (_ & t & Ht & HP).
  unfold notified. rewrite Ht. change (trace (initialized storage defaults)) with (@nil Effect).
  cbn [app]. clear Ht. induction HP as [|e t He _ IH]; [constructor |].
  destruct e as [n| |]; cbn; [| exact IH | exact IH].
  constructor; [| exact IH]. unfold faithful in He. rewrite He.
  apply registerCallbacks_keys.
Qed.

Lemma registerCallbacks_delivers_all_but_RoomCompleted_witness :
  Forall (fun a => isInit a = false)
    [ Do_joinRoom (Some "token") (Some "daily") (Some Sample.options) (inl Sample.room);
      Do_leaveRoom "daily" firing ] /\
  In {| eventType := ErrorOccured; args := OfRoom "RM1"; delivered := true |}
     (notified (run [ Do_joinRoom (Some "token") (Some "daily") (Some Sample.options)
                        (inl Sample.room);
                      Do_leaveRoom "daily" firing ]
                    (initialized ∅ Sample.options))) /\
  Forall (fun n => delivered n = negb (ConferenceEvent_eqb (eventType n) RoomCompleted))
         (notified (run [ Do_joinRoom (Some "token") (Some "daily") (Some Sample.options)
                            (inl Sample.room);
                          Do_leaveRoom "daily" firing ]
                        (initialized ∅ Sample.options))).
Proof.
  assert (H : Forall (fun a => isInit a = false)
    [ Do_joinRoom (Some "token") (Some "daily") (Some Sample.options) (inl Sample.room);
      Do_leaveRoom "daily" firing ]) by (repeat constructor).
  split; [exact H |]. split.
  - vm_compute. repeat (first [left; reflexivity | right]).
  - exact (registerCallbacks_delivers_all_but_RoomCompleted _ ∅ Sample.options H).
Defined.

(** ** [joinRoom]: failures and the shared default options *)

Lemma prepare_keeps accessToken roomName connectOptions st r st' :
  prepare accessToken roomName connectOptions st = (r, st') ->
  eventCallbacks st' = eventCallbacks st /\ currentRoom st' = currentRoom st /\
  currentScreenTrack st' = currentScreenTrack st /\ localStorage st' = localStorage st /\
  listeners st' = listeners st /\ trace st' = trace st.
Proof.
  intros Hp.
  pose proof (prepare_surroundings accessToken roomName connectOptions st) as Hs.
  rewrite Hp in Hs. cbn [snd] in Hs. unfold surroundings in Hs.
  by inversion Hs.
Qed.

(** X2.  When [Video.connect] rejects, [joinRoom] rejects with the same
    error and nothing else happens for the consumer: no room is set, no
    notification is made (not even [ErrorOccured]), no listener is
    attached.  The options that were handed to [Video.connect] stay in
    [currentConnectOptions]. *)
Theorem joinRoom_transport_failure
    accessToken roomName connectOptions reason st token room cbs a v :
  supplied accessToken = Some token ->
  supplied roomName = Some room ->
  eventCallbacks st = Some cbs ->
  audio (effective st connectOptions) = Some a ->
  video (effective st connectOptions) = Some v ->
  outcome (joinRoom accessToken roomName connectOptions (inr reason) st) =
    Rejected (TransportError reason) /\
  currentRoom (snd (joinRoom accessToken roomName connectOptions (inr reason) st)) =
    currentRoom st /\
  notified (snd (joinRoom accessToken roomName connectOptions (inr reason) st)) =
    notified st /\
  listeners (snd (joinRoom accessToken roomName connectOptions (inr reason) st)) =
    listeners st /\
  exists o,
    calls (snd (joinRoom accessToken roomName connectOptions (inr reason) st)) =
      calls st ++ [Call_connect token o] /\
    currentConnectOptions
      (snd (joinRoom accessToken roomName connectOptions (inr reason) st)) = Some o.
Proof.
  intros Htoken Hroom Hcb Ha Hv.
  destruct (prepare_resolves accessToken roomName connectOptions st token room cbs a v
              Htoken Hroom Hcb Ha Hv) as (o & st' & Hp & _ & Hopt & _ & _).
  destruct (prepare_keeps _ _ _ _ _ _ Hp) as (_ & Hr & _ & _ & Hl & Ht).
  unfold outcome, joinRoom. rewrite Hp. cbn [fst snd].
  unfold sdkCall, record, modify, notified, calls.
  cbn [snd currentRoom listeners trace currentConnectOptions set_trace].
  rewrite Ht, notifications_app, sdkCalls_app. cbn.
  rewrite app_nil_r. repeat split; try assumption. by exists o.
Qed.

Lemma joinRoom_transport_failure_witness :
  eventCallbacks Sample.fresh = Some registerCallbacks /\
  outcome (joinRoom (Some "token") (Some "daily") (Some Sample.options)
             (inr "Room not found") Sample.fresh) =
    Rejected (TransportError "Room not found") /\
  notified (snd (joinRoom (Some "token") (Some "daily") (Some Sample.options)
                   (inr "Room not found") Sample.fresh)) = notified Sample.fresh.
Proof.
  split; [reflexivity |].
  destruct (joinRoom_transport_failure (Some "token") (Some "daily")
              (Some Sample.options) "Room not found" Sample.fresh "token" "daily"
              registerCallbacks Sample.noDevice Sample.noDevice
              eq_refl eq_refl eq_refl eq_refl eq_refl) as (Ho & _ & Hn & _).
  split; [exact Ho | exact Hn].
Defined.

Lemma addAudioDeviceId_truthy ids o o' :
  addAudioDeviceId ids o = Ok o' ->
  truthy_deviceId (deviceIdOf (audio o')) = true /\ video o' = video o.
Proof.
  unfold addAudioDeviceId. destruct (audio o) as [a|] eqn:Ha; [| discriminate].
  destruct (truthy_deviceId (deviceId a)) eqn:Ht; cbn [negb]; intros [= <-].
  - rewrite Ha. by split.
  - by split.
Qed.

Lemma addVideoDeviceId_truthy ids o o' :
  addVideoDeviceId ids o = Ok o' ->
  truthy_deviceId (deviceIdOf (video o')) = true /\ audio o' = audio o.
Proof.
  unfold addVideoDeviceId. destruct (video o) as [v|] eqn:Hv; [| discriminate].
  destruct (truthy_deviceId (deviceId v)) eqn:Ht; cbn [negb]; intros [= <-].
  - rewrite Hv. by split.
  - by split.
Qed.

Lemma addAudioDeviceId_throws ids o e :
  addAudioDeviceId ids o = Throw e -> e = NoAudioInfo.
Proof.
  unfold addAudioDeviceId. destruct (audio o); [| congruence].
  by destruct (negb _).
Qed.

Lemma addVideoDeviceId_throws ids o e :
  addVideoDeviceId ids o = Throw e -> e = NoVideoInfo.
Proof.
  unfold addVideoDeviceId. destruct (video o); [| congruence].
  by destruct (negb _).
Qed.

Lemma prepare_never_misses_a_device accessToken roomName connectOptions st e st' :
  prepare accessToken roomName connectOptions st = (Throw e, st') -> notDeviceMissing e.
Proof.
  unfold prepare.
  destruct (supplied accessToken) as [token|]; [| by intros [= <- _]].
  destruct (supplied roomName) as [room|]; [| by intros [= <- _]].
  unfold bind at 1, get at 1.
  destruct (eventCallbacks st); [| by intros [= <- _]].
  generalize (negb (isSome connectOptions)). intros shared.
  set (o1 := set_name room _). clearbody o1.
  unfold bind at 1.
  destruct (store shared o1 st) as [[[]|e0] s1] eqn:Hs1.
  2: { unfold store, when, modify, ret in Hs1. by destruct shared. }
  unfold bind at 1.
  destruct (when _ fetchDeviceIds s1) as [[[]|e0] s2] eqn:Hs2.
  2: { unfold when, fetchDeviceIds, modify, ret in Hs2. by destruct (negb _). }
  unfold bind at 1, get at 1.
  set (ids := default _ (deviceIds s2)). clearbody ids.
  unfold lift at 1.
  destruct (addAudioDeviceId ids o1) as [o2|e2] eqn:H2.
  2: { apply addAudioDeviceId_throws in H2 as ->. by intros [= <- _]. }
  destruct (addAudioDeviceId_truthy _ _ _ H2) as [Ha2 _].
  unfold bind at 1.
  destruct (store shared o2 s2) as [[[]|e0] s3] eqn:Hs3.
  2: { unfold store, when, modify, ret in Hs3. by destruct shared. }
  unfold lift at 1.
  destruct (addVideoDeviceId ids o2) as [o3|e3] eqn:H3.
  2: { apply addVideoDeviceId_throws in H3 as ->. by intros [= <- _]. }
  destruct (addVideoDeviceId_truthy _ _ _ H3) as [Hv3 Ha3].
  unfold bind at 1.
  destruct (store shared o3 s3) as [[[]|e0] s4] eqn:Hs4.
  2: { unfold store, when, modify, ret in Hs4. by destruct shared. }
  unfold lift, checkDeviceIds. rewrite Ha3, Ha2, Hv3. cbn [negb].
  unfold bind, store, when, modify, ret. by destruct shared.
Qed.

(** X3.  The two checks of [joinRoom] for a missing device identifier can
    never fire: an absent identifier has just been replaced by the object
    [{ exact: ... }], which is truthy even when it holds [null].  Whatever
    the token, the room name, the state and the answer of the SDK, and
    for any connect options whose media sections are objects or absent,
    [joinRoom] never rejects with "can't access audio/video - no device id
    found". *)
Theorem joinRoom_never_misses_a_device accessToken roomName connectOptions answer st :
  outcome (joinRoom accessToken roomName connectOptions answer st) <> Rejected NoAudioDevice /\
  outcome (joinRoom accessToken roomName connectOptions answer st) <> Rejected NoVideoDevice.
Proof.
  unfold outcome, joinRoom.
  destruct (prepare accessToken roomName connectOptions st)
    as [[[token o]|e] st1] eqn:Hp; cbn [fst].
  - destruct answer as [room|reason]; [| by split].
    destruct (prepare_registered _ _ _ _ _ _ Hp) as [cbs Hcbs].
    destruct (prepare_keeps _ _ _ _ _ _ Hp) as (Hcbs1 & _).
    rewrite (connected_run cbs) by exact (eq_trans Hcbs1 Hcbs). by split.
  - destruct (prepare_never_misses_a_device _ _ _ _ _ _ Hp) as [Ha Hv].
    split; congruence.
Qed.

Lemma prepare_shares_throw accessToken roomName o0 st e st' :
  prepare accessToken roomName (Some o0) st = (Throw e, st') ->
  defaultConnectOptions st' = defaultConnectOptions st.
Proof.
  intros Hp.
  assert (H : preserves defaultConnectOptions (prepare accessToken roomName (Some o0))).
  { unfold prepare, lift, store, fetchDeviceIds. cbn [isSome negb when]. preserving. }
  specialize (H st). by rewrite Hp in H.
Qed.

Lemma prepare_shares accessToken roomName connectOptions st token o st' :
  prepare accessToken roomName connectOptions st = (Ok (token, o), st') ->
  defaultConnectOptions st' =
    (if isSome connectOptions then defaultConnectOptions st else o) /\
  name o = supplied roomName.
Proof.
  unfold prepare.
  destruct (supplied accessToken) as [token'|]; [| discriminate].
  destruct (supplied roomName) as [room|]; [| discriminate].
  unfold bind at 1, get at 1.
  destruct (eventCallbacks st); [| discriminate].
  unfold lift, store, when, fetchDeviceIds, addAudioDeviceId, addVideoDeviceId,
    checkDeviceIds, bind, get, modify, ret, throw.
  destruct connectOptions as [o0|]; cbn [isSome negb default];
    repeat match goal with
      | |- context [match ?x with _ => _ end] =>
          lazymatch x with
          | context [match _ with _ => _ end] => fail
          | _ => destruct x eqn:?; cbn [audio video name set_name set_audio set_video
                   deviceIdOf deviceId set_deviceId negb] in *
          end
      end; intros H; inversion H; subst; try discriminate; by split.
Qed.

Lemma connected_defaults room : preserves defaultConnectOptions (connected room).
Proof.
  unfold connected, participantConnected, trackSubscribed, setupTrackMuteEvents,
    notifyOfEvent, on, once_, addListener, record.
  preserving.
Qed.

Lemma silent_calls t : Forall silent t -> sdkCalls t = [].
Proof.
  induction 1 as [|e t He _ IH]; [reflexivity |].
  destruct e; cbn in *; [exact IH | exact IH | contradiction].
Qed.

Lemma connected_calls room st : calls (snd (connected room st)) = calls st.
Proof.
  destruct (adds_connected silent (fun _ => True) (fun _ => I) (fun _ _ _ _ => I)
              (fun _ _ _ _ _ => I) room (fun _ _ _ _ => I) st) as (t & Ht & HP).
  unfold calls. rewrite Ht, sdkCalls_app, (silent_calls _ HP). apply app_nil_r.
Qed.

(** X4.  The options object is written in place.  Called with options of
    the caller, [joinRoom] leaves the shared [defaultConnectOptions] as it
    is, whatever happens.  Called without, a [joinRoom] that gets as far
    as [Video.connect] has handed it the shared default itself, which from
    then on carries the room name of this call. *)
Theorem joinRoom_writes_to_shared_defaults accessToken roomName answer st :
  (forall o, defaultConnectOptions
               (snd (joinRoom accessToken roomName (Some o) answer st)) =
             defaultConnectOptions st) /\
  (forall token o,
     calls (snd (joinRoom accessToken roomName None answer st)) =
       calls st ++ [Call_connect token o] ->
     defaultConnectOptions (snd (joinRoom accessToken roomName None answer st)) = o /\
     name o = supplied roomName).
Proof.
  split.
  - intros o. unfold joinRoom.
    destruct (prepare accessToken roomName (Some o) st) as [[[token o']|e] st1] eqn:Hp.
    + destruct (prepare_shares _ _ _ _ _ _ _ Hp) as [Hd _]. cbn [isSome] in Hd.
      destruct answer as [room|reason]; cbn [snd].
      * destruct (connected room _) as [[[]|e] st2] eqn:Hc; cbn [snd];
          pose proof (connected_defaults room (snd (sdkCall (Call_connect token o') st1))) as H;
          rewrite Hc in H; cbn [snd] in H; rewrite H; exact Hd.
      * exact Hd.
    + pose proof (prepare_shares_throw _ _ _ _ _ _ Hp) as Hd. exact Hd.
  - intros token o. unfold joinRoom.
    destruct (prepare accessToken roomName None st) as [[[token' o']|e] st1] eqn:Hp.
    + destruct (prepare_shares _ _ _ _ _ _ _ Hp) as [Hd Hn]. cbn [isSome] in Hd.
      destruct (prepare_keeps _ _ _ _ _ _ Hp) as (_ & _ & _ & _ & _ & Ht).
      assert (Hcalls : calls (snd (sdkCall (Call_connect token' o') st1)) =
                       calls st ++ [Call_connect token' o']).
      { unfold calls. rewrite trace_sdkCall, Ht, sdkCalls_app. reflexivity. }
      assert (Hsame : forall st2 : Engine,
                calls st2 = calls st ++ [Call_connect token' o'] ->
                calls st2 = calls st ++ [Call_connect token o] -> o' = o).
      { intros st2 H1 H2. rewrite H1 in H2. apply app_inv_head in H2. congruence. }
      destruct answer as [room|reason]; cbn [snd].
      * pose proof (connected_defaults room (snd (sdkCall (Call_connect token' o') st1))) as H.
        pose proof (connected_calls room (snd (sdkCall (Call_connect token' o') st1))) as Hc.
        destruct (connected room _) as [[[]|e] st2]; cbn [snd] in *;
          intros Hcs; rewrite Hcalls in Hc;
          rewrite <- (Hsame _ Hc Hcs); rewrite H; by split.
      * intros Hcs. rewrite <- (Hsame _ Hcalls Hcs). by split.
    + destruct (prepare_keeps _ _ _ _ _ _ Hp) as (_ & _ & _ & _ & _ & Ht).
      cbn [snd]. unfold calls. rewrite Ht. intros H.
      apply (f_equal (@length _)) in H. rewrite length_app in H. cbn in H. lia.
Qed.

Lemma joinRoom_writes_to_shared_defaults_witness :
  defaultConnectOptions
    (snd (joinRoom (Some "token") (Some "daily") None (inl Sample.room) Sample.fresh)) =
  {| name := Some "daily";
     audio := Some (set_deviceId (DeviceExact None) Sample.noDevice);
     video := Some (set_deviceId (DeviceExact None) Sample.noDevice) |}.
Proof.
  apply (proj2 (joinRoom_writes_to_shared_defaults (Some "token") (Some "daily")
                  (inl Sample.room) Sample.fresh) "token").
  vm_compute. reflexivity.
Defined.
(** ** Leaving, and turning tracks off *)

Lemma turnOffMy_idle k sdk st :
  currentRoom st = None -> turnOffMy k sdk st = (Rejected (RoomInfoMissing k), st).
Proof. intros H. unfold turnOffMy. by rewrite H. Qed.

(** X5.  [leaveRoom] does not check that a room was joined.  With no
    current room it still tells the consumer that a participant has
    disconnected, with no participant to name, makes no SDK call and
    returns normally.  With no callbacks registered it throws. *)
Theorem leaveRoom_without_room roomName sdk st :
  currentRoom st = None ->
  (forall cbs, eventCallbacks st = Some cbs ->
     leaveRoom roomName sdk st =
       (Ok tt, grow [notice cbs ParticipantDisconnected (OfParticipant None)] st)) /\
  (eventCallbacks st = None ->
     exists m, leaveRoom roomName sdk st = (Throw (TypeError m), st)).
Proof.
  intros Hroom. rewrite leaveRoom_unfold.
  rewrite (turnOffMy_idle Video _ _ Hroom). cbn [snd].
  rewrite (turnOffMy_idle Audio _ _ Hroom). cbn [snd].
  unfold leaveRoom_rest, notifyOfEvent, bind, get, record, modify, ret, throw.
  cbn [fst snd]. rewrite Hroom. cbn [option_map]. split.
  - intros cbs Hcbs. rewrite Hcbs. cbn [fst snd]. unfold grow, notice. cbn [installs omap].
    destruct st; cbn in *. by rewrite app_nil_r.
  - intros Hcbs. rewrite Hcbs. by eexists.
Qed.

Lemma leaveRoom_without_room_witness :
  notified (snd (leaveRoom "daily" firing Sample.fresh)) =
  [{| eventType := ParticipantDisconnected; args := OfParticipant None; delivered := true |}].
Proof.
  rewrite (proj1 (leaveRoom_without_room "daily" firing Sample.fresh eq_refl)
             registerCallbacks eq_refl).
  reflexivity.
Defined.

Lemma set_listeners_same st : set_listeners (listeners st) st = st.
Proof. by destruct st. Qed.

Lemma filter_none {A} (f : A -> bool) xs :
  Forall (fun x => f x = false) xs -> List.filter f xs = [].
Proof.
  induction 1 as [|x xs Hx _ IH]; [reflexivity |]. cbn. by rewrite Hx.
Qed.

Lemma filter_all {A} (f : A -> bool) xs :
  Forall (fun x => f x = true) xs -> List.filter f xs = xs.
Proof.
  induction 1 as [|x xs Hx _ IH]; [reflexivity |]. cbn. by rewrite Hx, IH.
Qed.

(** Once every "disconnected" listener of [room] that was attached with
    [once] is gone, the event finds nobody. *)
Lemma dispatch_disconnected_spent cbs room error st :
  eventCallbacks st = Some cbs ->
  Forall (fun l => listensTo (Ev_disconnected room None) l = false) (listeners st) ->
  dispatch (Ev_disconnected room error) st = (Ok tt, st).
Proof.
  intros Hcbs Hnone. rewrite (dispatch_disconnected cbs) by exact Hcbs.
  change (listensTo (Ev_disconnected room error)) with (listensTo (Ev_disconnected room None)).
  rewrite (filter_none _ _ Hnone). cbn [flat_map].
  rewrite filter_all.
  - by rewrite set_listeners_same, grow_nil.
  - eapply List.Forall_impl; [| exact Hnone]. cbn beta. intros l ->. reflexivity.
Qed.

(** X6.  The listener [joinRoom] attaches for the room's "disconnected"
    event is attached with [once].  When [room.disconnect()] fires the
    event during [leaveRoom], that listener is used up: a later
    "disconnected" event of the same room changes nothing and notifies
    nobody. *)
Theorem leaveRoom_uses_up_the_disconnected_listener
    roomName sdk st room cbs first later :
  currentRoom st = Some room ->
  eventCallbacks st = Some cbs ->
  disconnect_fires sdk = Some first ->
  Forall (fun l => listensTo (Ev_disconnected room None) l = true -> once l = true)
         (listeners st) ->
  dispatch (Ev_disconnected room later) (snd (leaveRoom roomName sdk st)) =
    (Ok tt, snd (leaveRoom roomName sdk st)).
Proof.
  intros Hroom Hcbs Hfires Honce. rewrite leaveRoom_unfold, Hfires.
  destruct (turnOffMy_session Video (video_teardown sdk) st) as (Hs1 & Hc1 & Hl1 & _).
  set (st1 := snd (turnOffMy Video (video_teardown sdk) st)) in *.
  destruct (turnOffMy_session Audio (audio_teardown sdk) st1) as (Hs2 & Hc2 & Hl2 & _).
  set (st2 := snd (turnOffMy Audio (audio_teardown sdk) st1)) in *.
  assert (Hsession : session st2 = session st) by congruence.
  destruct (session_room _ _ _ Hsession Hroom) as (room2 & Hroom2 & Hsid & Hme & Hothers).
  destruct (leaveRoom_tail cbs room2 roomName (Some first) st2) as (echoes & Hrun & Hinst & _);
    [congruence | exact Hroom2 |].
  rewrite Hrun. cbn [snd].
  apply (dispatch_disconnected_spent cbs).
  - unfold grow. cbn. congruence.
  - unfold grow. cbn [listeners set_currentRoom set_listeners set_trace].
    rewrite Hinst, app_nil_r, Hl2, Hl1.
    clear -Honce Hsid. induction Honce as [|l ls Hl _ IH]; cbn [List.filter]; [constructor |].
    assert (Hsame : listensTo (Ev_disconnected room2 None) l =
                    listensTo (Ev_disconnected room None) l).
    { unfold listensTo. cbn [source ev_name]. by rewrite Hsid. }
    rewrite Hsame.
    destruct (listensTo (Ev_disconnected room None) l) eqn:Hto; cbn [andb negb].
    + rewrite (Hl eq_refl). cbn [negb]. exact IH.
    + constructor; [exact Hto | exact IH].
Qed.

Lemma leaveRoom_uses_up_the_disconnected_listener_witness :
  dispatch (Ev_disconnected Sample.room None)
    (snd (leaveRoom "daily" firing Sample.joined)) =
  (Ok tt, snd (leaveRoom "daily" firing Sample.joined)).
Proof.
  apply (leaveRoom_uses_up_the_disconnected_listener "daily" firing Sample.joined
           Sample.room registerCallbacks (Some (OfRoom "RM1")) None
           eq_refl eq_refl eq_refl).
  vm_compute. repeat constructor; intros H; try reflexivity; discriminate H.
Defined.

Lemma publishes_own pub track : pub_track pub = Some track -> publishes track pub = true.
Proof. unfold publishes, sameTrack. intros ->. apply String.eqb_refl. Qed.

Lemma tracksOfKind_withoutTrack k track p :
  tracksOfKind k (withoutTrack track p) =
  List.filter (fun pub => negb (publishes track pub)) (tracksOfKind k p).
Proof.
  unfold tracksOfKind, withoutTrack. cbn [tracks].
  induction (tracks p) as [|pub pubs IH]; [reflexivity |]. cbn [List.filter].
  destruct (publishes track pub) eqn:Hp, (MediaType_eqb (pub_kind pub) k) eqn:Hk;
    cbn [negb List.filter]; rewrite ?Hp, ?Hk; cbn [negb]; by rewrite IH.
Qed.

(** X7.  A failure of the SDK while a track is turned off is reported only
    through the rejected promise.  If [unpublishTrack] throws, the track
    is not stopped and stays published; if [stop] throws, the track has
    already left the room.  In both cases no
    [ParticipantUnsubscribedTrack] is notified, and the promise is
    rejected with the message of the error wrapped in the message of
    [turnOffMyVideo] or [turnOffMyAudio]. *)
Theorem turnOffMy_failure_is_not_notified k sdk st room pub others track :
  currentRoom st = Some room ->
  tracksOfKind k (localParticipant room) = pub :: others ->
  pub_track pub = Some track ->
  (forall m, unpublishTrack_throws sdk = Some m ->
     turnOffMy k sdk st =
       (Rejected (StopTrackFailed k m), grow [Call (Call_unpublishTrack track)] st)) /\
  (forall m, unpublishTrack_throws sdk = None -> stop_throws sdk = Some m ->
     turnOffMy k sdk st =
       (Rejected (StopTrackFailed k m),
        set_currentRoom
          (Some (with_localParticipant (withoutTrack track (localParticipant room)) room))
          (grow [Call (Call_unpublishTrack track); Call (Call_stop track)] st))).
Proof.
  intros Hroom Hpubs Htrack. split.
  - intros m Hm. unfold turnOffMy. rewrite Hroom, Hpubs, Htrack.
    unfold unpublishAndStop, bind. rewrite sdkCall_run, Hm. reflexivity.
  - intros m Hu Hm. unfold turnOffMy. rewrite Hroom, Hpubs, Htrack.
    unfold unpublishAndStop, bind. rewrite sdkCall_run, Hu. cbn [raise ret fst snd].
    unfold modify at 1. cbn [fst snd]. rewrite sdkCall_run, Hm. cbn [raise throw fst snd message].
    f_equal. unfold grow. destruct st; cbn. by rewrite <- !app_assoc, !app_nil_r.
Qed.

Lemma turnOffMy_failure_is_not_notified_witness :
  outcome (turnOffMy Audio {| unpublishTrack_throws := Some "gone"; stop_throws := None |}
             Sample.joined) =
    Rejected (StopTrackFailed Audio "gone") /\
  notified (snd (turnOffMy Audio {| unpublishTrack_throws := Some "gone"; stop_throws := None |}
                   Sample.joined)) = notified Sample.joined.
Proof.
  rewrite (proj1 (turnOffMy_failure_is_not_notified Audio
                    {| unpublishTrack_throws := Some "gone"; stop_throws := None |}
                    Sample.joined Sample.room (Sample.localPublication "MT1" Sample.mic) []
                    Sample.mic eq_refl eq_refl eq_refl) "gone" eq_refl).
  split; vm_compute; reflexivity.
Defined.

(** X8.  After a track has been turned off, its publication is gone from
    the local participant: the next call goes for the following
    publication of that kind, and when there is none left it is rejected
    with "No ... found to unpublish" and does nothing. *)
Theorem turnOffMy_again k sdk sdk' st room pub others track cbs :
  currentRoom st = Some room ->
  tracksOfKind k (localParticipant room) = pub :: others ->
  pub_track pub = Some track ->
  unpublishTrack_throws sdk = None -> stop_throws sdk = None ->
  eventCallbacks st = Some cbs ->
  outcome (turnOffMy k sdk st) = Resolved tt /\
  (exists room',
     currentRoom (snd (turnOffMy k sdk st)) = Some room' /\
     tracksOfKind k (localParticipant room') =
       List.filter (fun pub => negb (publishes track pub)) others) /\
  (List.filter (fun pub => negb (publishes track pub)) others = [] ->
     turnOffMy k sdk' (snd (turnOffMy k sdk st)) =
       (Rejected (NoLocalTracks k), snd (turnOffMy k sdk st))).
Proof.
  intros Hroom Hpubs Htrack Hu Hs Hcbs.
  assert (Hrun : exists t,
    turnOffMy k sdk st =
      (Resolved tt,
       grow t (set_currentRoom
         (Some (with_localParticipant (withoutTrack track (localParticipant room)) room))
         (grow [Call (Call_unpublishTrack track)] st)))).
  { unfold turnOffMy. rewrite Hroom, Hpubs, Htrack.
    unfold unpublishAndStop, bind. rewrite sdkCall_run, Hu. cbn [raise ret fst snd].
    unfold modify at 1. cbn [fst snd]. rewrite sdkCall_run, Hs. cbn [raise ret fst snd].
    unfold trackUnsubscribed.
    erewrite (emits_notify cbs) by (unfold grow; cbn; exact Hcbs).
    rewrite grow_grow. by eexists. }
  destruct Hrun as (t & Hrun). rewrite Hrun. cbn [outcome fst snd].
  assert (Hkind : tracksOfKind k (withoutTrack track (localParticipant room)) =
                  List.filter (fun pub => negb (publishes track pub)) others).
  { rewrite tracksOfKind_withoutTrack, Hpubs. cbn [List.filter].
    by rewrite (publishes_own _ _ Htrack). }
  split; [reflexivity |]. split.
  - eexists. split; [reflexivity |]. exact Hkind.
  - intros Hnone. unfold turnOffMy at 1.
    cbn [currentRoom grow set_listeners set_trace set_currentRoom localParticipant
         with_localParticipant].
    rewrite Hkind, Hnone. reflexivity.
Qed.

Lemma turnOffMy_again_witness :
  outcome (turnOffMy Video smoothly (snd (turnOffMy Video smoothly Sample.joined))) =
  Rejected (NoLocalTracks Video).
Proof.
  destruct (turnOffMy_again Video smoothly smoothly Sample.joined Sample.room
              (Sample.localPublication "MT2" Sample.cam) [] Sample.cam registerCallbacks
              eq_refl eq_refl eq_refl eq_refl eq_refl eq_refl) as (_ & _ & H).
  unfold outcome. rewrite (H eq_refl). reflexivity.
Defined.
(** ** Screen share: what fails, and what is left behind *)

Lemma orVideoOption_sized height width member given st :
  sized height width st -> given = height \/ given = width ->
  exists n, orVideoOption given member st = Ok n.
Proof.
  unfold orVideoOption. intros [[Hh Hw] | (o & v & Ho & Hv)] Hg.
  - assert (Ht : truthy_nat given = true) by (destruct Hg; by subst).
    rewrite Ht. by eexists.
  - rewrite Ho, Hv. destruct (truthy_nat given); by eexists.
Qed.

(** Without the sizes [startScreenShare] throws on
    [currentConnectOptions.video] before it does anything else. *)
Lemma startScreenShare_unsized height width sdk st :
  ~ sized height width st ->
  exists m, startScreenShare height width sdk st = (Rejected (TypeError m), st).
Proof.
  intros Hno. unfold startScreenShare, orVideoOption.
  destruct (truthy_nat width) eqn:Hw.
  - destruct (truthy_nat height) eqn:Hh; [exfalso; apply Hno; by left |].
    destruct (currentConnectOptions st) as [o|] eqn:Ho; [| by eexists].
    destruct (video o) as [v|] eqn:Hv; [| by eexists].
    exfalso. apply Hno. right. by exists o, v.
  - destruct (currentConnectOptions st) as [o|] eqn:Ho; [| by eexists].
    destruct (video o) as [v|] eqn:Hv; [| by eexists].
    exfalso. apply Hno. right. by exists o, v.
Qed.

(** X9.  [startScreenShare] first needs the sizes of the capture: when
    they are not known, neither given both nor to be found in the video
    section of connect options held from a [joinRoom] ([sized]), it
    rejects with the [TypeError] of reading [currentConnectOptions.video]
    and leaves the engine as it was.  When they are known and the browser
    cannot share the screen, or the capture is refused, it rejects with
    "An error occured while starting screen share - Screen sharing is not
    supported".  Nothing is published, no priority is changed and no
    screen track is held; the only SDK call is the capture request, and
    not even that one when the browser is not capable. *)
Theorem startScreenShare_not_supported height width sdk st :
  canScreenshare sdk = false \/ capture sdk = None ->
  (~ sized height width st ->
     exists m, startScreenShare height width sdk st = (Rejected (TypeError m), st)) /\
  (sized height width st ->
     outcome (startScreenShare height width sdk st) =
       Rejected (ScreenShareFailed (message ScreenShareUnsupported)) /\
     currentScreenTrack (snd (startScreenShare height width sdk st)) =
       currentScreenTrack st /\
     currentRoom (snd (startScreenShare height width sdk st)) = currentRoom st /\
     notified (snd (startScreenShare height width sdk st)) = notified st /\
     (canScreenshare sdk = false -> snd (startScreenShare height width sdk st) = st) /\
     (canScreenshare sdk = true ->
        exists h w,
          calls (snd (startScreenShare height width sdk st)) =
          calls st ++ [if supportsGetDisplayMedia sdk
                       then Call_getDisplayMedia h w else Call_getUserMedia h w])).
Proof.
  intros Hno. split; [apply startScreenShare_unsized |].
  intros Hsized. unfold startScreenShare, outcome.
  destruct (orVideoOption_sized height width widthOf width st Hsized (or_intror eq_refl))
    as [w ->].
  destruct (orVideoOption_sized height width heightOf height st Hsized (or_introl eq_refl))
    as [h ->].
  unfold createScreenTrack.
  destruct (canScreenshare sdk) eqn:Hcan; cbn [negb].
  - destruct Hno as [Hno | Hno]; [discriminate |]. rewrite Hno. cbn [fst snd].
    rewrite sdkCall_run. cbn [snd]. unfold notified, calls, grow.
    cbn [currentScreenTrack currentRoom trace set_listeners set_trace].
    rewrite notifications_app, sdkCalls_app.
    repeat split; try discriminate.
    + destruct (supportsGetDisplayMedia sdk); cbn; apply app_nil_r.
    + intros _. exists h, w. by destruct (supportsGetDisplayMedia sdk).
  - cbn [fst snd]. repeat split. discriminate.
Qed.

Lemma startScreenShare_not_supported_witness :
  outcome (startScreenShare None None
             {| canScreenshare := true; supportsGetDisplayMedia := true;
                capture := None; publishTrack_answer := inl "MT9" |} Sample.joined) =
  Rejected (ScreenShareFailed "Screen sharing is not supported").
Proof.
  apply (startScreenShare_not_supported None None
           {| canScreenshare := true; supportsGetDisplayMedia := true;
              capture := None; publishTrack_answer := inl "MT9" |} Sample.joined).
  - right. reflexivity.
  - right. exists (set_name "daily"
                     {| name := None;
                        audio := Some (set_deviceId (DeviceExact None) Sample.noDevice);
                        video := Some (set_deviceId (DeviceExact None) Sample.noDevice) |}),
                  (set_deviceId (DeviceExact None) Sample.noDevice).
    split; vm_compute; reflexivity.
Defined.








(** ** Device preferences *)

(** X12.  [clearAllDefaultMediaDeviceIds] removes the three preferences,
    and a first [joinRoom] after it does not fail for want of a device:
    for each media section without a device identifier of its own it
    connects with [{ exact: null }]. *)
Theorem joinRoom_after_clearing_asks_for_no_device
    st accessToken roomName connectOptions answer token room cbs a v :
  deviceIds st = None ->
  supplied accessToken = Some token ->
  supplied roomName = Some room ->
  eventCallbacks st = Some cbs ->
  audio (effective st connectOptions) = Some a ->
  video (effective st connectOptions) = Some v ->
  truthy_deviceId (deviceId a) = false ->
  truthy_deviceId (deviceId v) = false ->
  let st1 := snd (clearAllDefaultMediaDeviceIds st) in
  let st2 := snd (joinRoom accessToken roomName connectOptions answer st1) in
  Forall (fun key => localStorage st1 !! key = None)
         ["audioInputDeviceId"; "audioOutputDeviceId"; "videoDeviceId"] /\
  exists o,
    currentConnectOptions st2 = Some o /\
    deviceIdOf (audio o) = Some (DeviceExact None) /\
    deviceIdOf (video o) = Some (DeviceExact None) /\
    In (Call_connect token o) (calls st2).
Proof.
  intros Hfresh Htoken Hroom Hcb Ha Hv Hna Hnv st1 st2.
  assert (Hls : localStorage st1 =
                delete "videoDeviceId"
                  (delete "audioOutputDeviceId"
                     (delete "audioInputDeviceId" (localStorage st)))) by reflexivity.
  assert (Hkeys : Forall (fun key => localStorage st1 !! key = None)
                    ["audioInputDeviceId"; "audioOutputDeviceId"; "videoDeviceId"]).
  { rewrite Hls. repeat constructor.
    - rewrite lookup_delete_ne, lookup_delete_ne by done. apply lookup_delete_eq.
    - rewrite lookup_delete_ne by done. apply lookup_delete_eq.
    - apply lookup_delete_eq. }
  split; [exact Hkeys |].
  destruct (prepare_resolves accessToken roomName connectOptions st1 token room cbs a v
              Htoken Hroom Hcb Ha Hv) as (o & st' & Hp & Hids & Hopt & Haudio & Hvideo).
  destruct (joinRoom_after_prepare _ _ _ answer _ _ _ _ Hp) as [Hres Hcall].
  assert (Hid : identifiers st1 = {| ids_audio := None; ids_video := None |}).
  { unfold identifiers.
    change (deviceIds st1) with (deviceIds st). rewrite Hfresh.
    inversion Hkeys as [|? ? H1 Hrest]; subst.
    inversion Hrest as [|? ? _ Hrest']; subst.
    inversion Hrest' as [|? ? H3 _]; subst.
    by rewrite H1, H3. }
  exists o. subst st2. repeat split.
  - unfold resolution in Hres. inversion Hres. congruence.
  - rewrite Haudio. unfold resolved. by rewrite Hna, Hid.
  - rewrite Hvideo. unfold resolved. by rewrite Hnv, Hid.
  - exact Hcall.
Qed.

Lemma joinRoom_after_clearing_asks_for_no_device_witness :
  exists o,
    currentConnectOptions
      (snd (joinRoom (Some "token") (Some "daily") (Some Sample.options) (inl Sample.room)
              (snd (clearAllDefaultMediaDeviceIds stored)))) = Some o /\
    deviceIdOf (video o) = Some (DeviceExact None).
Proof.
  destruct (joinRoom_after_clearing_asks_for_no_device stored (Some "token") (Some "daily")
              (Some Sample.options) (inl Sample.room) "token" "daily" registerCallbacks
              Sample.noDevice Sample.noDevice
              eq_refl eq_refl eq_refl eq_refl eq_refl eq_refl eq_refl eq_refl)
    as (_ & o & Ho & _ & Hv & _).
  exists o. split; [exact Ho | exact Hv].
Defined.
(** ** Listeners are only ever added *)

Lemma attachedStill_refl st : attachedStill st st.
Proof. by intros l. Qed.

Lemma attachedStill_trans st1 st2 st3 :
  attachedStill st1 st2 -> attachedStill st2 st3 -> attachedStill st1 st3.
Proof. intros H12 H23 l Hl Ho. apply H23; [by apply H12 | exact Ho]. Qed.

Lemma attachedStill_same st st' : listeners st' = listeners st -> attachedStill st st'.
Proof. intros H l. by rewrite H. Qed.

Lemma retains_preserves {A} (m : M A) : preserves listeners m -> retains m.
Proof. intros H st. apply attachedStill_same, H. Qed.

Lemma retains_ret {A} (a : A) : retains (ret a).
Proof. apply retains_preserves, preserves_ret. Qed.

Lemma retains_throw {A} e : retains (@throw A e).
Proof. apply retains_preserves, preserves_throw. Qed.

Lemma retains_get : retains get.
Proof. apply retains_preserves, preserves_get. Qed.

Lemma retains_bind {A B} (m : M A) (k : A -> M B) :
  retains m -> (forall a, retains (k a)) -> retains (bind m k).
Proof.
  intros Hm Hk st. unfold bind. specialize (Hm st).
  destruct (m st) as [[a|e] st1]; cbn [snd] in *; [| exact Hm].
  eapply attachedStill_trans; [exact Hm | apply Hk].
Qed.

Lemma retains_modify g : (forall st, listeners (g st) = listeners st) -> retains (modify g).
Proof. intros Hg. apply retains_preserves, preserves_modify, Hg. Qed.

Lemma retains_when b m : retains m -> retains (when b m).
Proof. destruct b; [auto | intros _; apply retains_ret]. Qed.

Lemma retains_forEach {A} (xs : list A) (k : A -> M unit) :
  (forall x, retains (k x)) -> retains (forEach xs k).
Proof.
  intros Hk. induction xs; cbn [forEach]; [apply retains_ret |].
  apply retains_bind; auto.
Qed.

Lemma retains_addListener l : retains (addListener l).
Proof.
  intros st l' Hl' _. cbn. apply in_or_app. by left.
Qed.

Lemma retains_forget {A} (op : Engine -> Promise A * Engine) :
  (forall st, attachedStill st (snd (op st))) -> retains (forget op).
Proof. intros H st. exact (H st). Qed.

Ltac retaining :=
  repeat match goal with
    | |- retains (ret _) => apply retains_ret
    | |- retains (throw _) => apply retains_throw
    | |- retains get => apply retains_get
    | |- retains (bind _ _) => apply retains_bind
    | |- retains (when _ _) => apply retains_when
    | |- retains (forEach _ _) => apply retains_forEach
    | |- retains (modify _) => apply retains_modify; intros; reflexivity
    | |- retains (notifyOfEvent _ _) =>
        unfold notifyOfEvent, record
    | |- retains (sdkCall _) => unfold sdkCall, record
    | |- retains (record _) => unfold record
    | |- retains (on _ _ _) => apply retains_addListener
    | |- retains (once_ _ _ _) => apply retains_addListener
    | |- retains (addListener _) => apply retains_addListener
    | |- retains (let _ := _ in _) => cbv zeta
    | |- retains (match ?x with _ => _ end) => destruct x
    | |- forall _, _ => intro
    end.

Lemma retains_participantConnected participant isRemote :
  retains (participantConnected participant isRemote).
Proof.
  unfold participantConnected, trackSubscribed, setupTrackMuteEvents. retaining.
Qed.

Lemma retains_invoke c ev : retains (invoke c ev).
Proof.
  destruct c, ev; cbn [invoke]; try apply retains_ret;
    unfold participantDisconnected, dominantSpeakerChanged, trackSubscribed,
      trackUnsubscribed, setupTrackMuteEvents;
    retaining; apply retains_participantConnected.
Qed.

(** The one place where listeners are removed: those attached with [once]
    to the event that fires. *)
Lemma retains_dispatch ev : retains (dispatch ev).
Proof.
  intros st. unfold dispatch. unfold bind at 1, get at 1. cbn [fst snd]. cbv zeta.
  unfold bind at 1, modify at 1. cbn [fst snd].
  eapply attachedStill_trans;
    [| apply retains_forEach; intros l; apply retains_invoke].
  intros l Hl Ho. cbn [listeners set_listeners].
  apply List.filter_In. split; [exact Hl |]. rewrite Ho. by rewrite andb_false_r.
Qed.

Lemma retains_connected room : retains (connected room).
Proof. unfold connected. retaining; apply retains_participantConnected. Qed.

Lemma attachedStill_joinRoom accessToken roomName connectOptions answer st :
  attachedStill st (snd (joinRoom accessToken roomName connectOptions answer st)).
Proof.
  unfold joinRoom.
  destruct (prepare accessToken roomName connectOptions st) as [[[token o]|e] st1] eqn:Hp;
    destruct (prepare_keeps _ _ _ _ _ _ Hp) as (_ & _ & _ & _ & Hl & _);
    cbn [snd]; [| by apply attachedStill_same].
  apply attachedStill_trans with st1; [by apply attachedStill_same |].
  destruct answer as [room|reason]; cbn [snd]; [| by apply attachedStill_same].
  apply attachedStill_trans with (snd (sdkCall (Call_connect token o) st1));
    [by apply attachedStill_same |].
  pose proof (retains_connected room (snd (sdkCall (Call_connect token o) st1))) as H.
  by destruct (connected room _) as [[[]|e] st2].
Qed.

Lemma attachedStill_turnOffMy k sdk st : attachedStill st (snd (turnOffMy k sdk st)).
Proof.
  apply attachedStill_same.
  by destruct (turnOffMy_session k sdk st) as (_ & _ & Hl & _).
Qed.

Lemma retains_leaveRoom roomName sdk : retains (leaveRoom roomName sdk).
Proof.
  unfold leaveRoom. retaining;
    try (apply retains_forget; apply attachedStill_turnOffMy); apply retains_dispatch.
Qed.

Lemma startScreenShare_listeners height width sdk st :
  listeners (snd (startScreenShare height width sdk st)) = listeners st.
Proof.
  unfold startScreenShare.
  destruct (orVideoOption width widthOf st) as [w|e]; [| reflexivity].
  destruct (orVideoOption height heightOf st) as [h|e]; [| reflexivity].
  unfold createScreenTrack.
  destruct (canScreenshare sdk); cbn [negb]; [| reflexivity].
  set (c := if supportsGetDisplayMedia sdk then _ else _). clearbody c.
  destruct (capture sdk) as [id|]; [| reflexivity].
  assert (H : preserves listeners (shareTrack (LocalVideoTrack id))).
  { unfold shareTrack, setVideoPriority, sdkCall, record. preserving. }
  specialize (H (snd (sdkCall c st))).
  destruct (shareTrack (LocalVideoTrack id) _) as [[room|e] st2]; cbn [snd] in *;
    [destruct (publishTrack_answer sdk); cbn [snd listeners set_currentRoom] |];
    exact H.
Qed.

Lemma stopScreenShare_listeners stop_throws st :
  listeners (snd (stopScreenShare stop_throws st)) = listeners st.
Proof.
  unfold stopScreenShare.
  destruct (currentScreenTrack st) as [track|]; [| reflexivity].
  assert (H : preserves listeners
                (sdkCall (Call_stop track);; raise stop_throws;;
                 modify (set_currentScreenTrack None);; setVideoPriority high)).
  { unfold raise, setVideoPriority, sdkCall, record. preserving. }
  specialize (H st).
  by destruct ((sdkCall (Call_stop track);; _) st) as [[[]|e] st1].
Qed.

Lemma attachedStill_perform a st : attachedStill st (perform a st).
Proof.
  destruct a; cbn [perform];
    try apply attachedStill_joinRoom; try apply attachedStill_turnOffMy;
    try (apply attachedStill_same; apply turnOnMy_keeps);
    try exact (retains_leaveRoom _ _ st); try exact (retains_dispatch _ st);
    try (apply attachedStill_same; apply startScreenShare_listeners);
    try (apply attachedStill_same; apply stopScreenShare_listeners);
    try (apply retains_preserves;
         unfold init, assignDefaultAudioInputDeviceId, assignDefaultAudioOutputDeviceId,
           assignDefaultVideoInputDeviceId, clearAllDefaultMediaDeviceIds,
           clearDefaultAudioInputDeviceId, clearDefaultAudioOutputDeviceId,
           clearDefaultVideoInputDeviceId, setItem, removeItem; preserving).
Qed.

(** X13.  The engine never calls [off] or [removeListener]: whatever is
    done afterwards (joining, leaving, turning tracks off, sharing the
    screen, events of the SDK), a listener attached with [on] stays
    attached.  In particular [leaveRoom] leaves every listener of the room,
    of its participants and of their tracks in place. *)
Theorem listeners_are_never_detached actions st l :
  In l (listeners st) -> once l = false -> In l (listeners (run actions st)).
Proof.
  revert st. induction actions as [|a actions IH]; intros st Hl Ho; [exact Hl |].
  cbn [run fold_left]. apply IH; [| exact Ho].
  by apply attachedStill_perform.
Qed.

Lemma listeners_are_never_detached_witness :
  In (Build_Listener (OnTrack "bob-cam") "disabled" false
        (track_disabled Sample.bobCam "PA-bob"))
     (listeners (run [Do_leaveRoom "daily" firing] Sample.joined)).
Proof.
  apply listeners_are_never_detached; [| reflexivity].
  vm_compute. repeat (first [left; reflexivity | right]).
Defined.

(** ** Events of the SDK, and the mute bridges *)

Lemma emits_invoke cbs ev l :
  emits cbs (invoke (closure l) ev) tt (reaction cbs ev l).
Proof.
  unfold reaction. destruct (closure l), ev; cbn [invoke]; try apply emits_ret;
    unfold participantDisconnected, dominantSpeakerChanged, trackSubscribed,
      trackUnsubscribed;
    try apply emits_notify;
    try apply emits_participantConnected;
    try apply (emits_setupTrackMuteEvents cbs (Some _));
    try (apply emits_bind with (a := tt);
         [apply emits_when, (emits_setupTrackMuteEvents cbs (Some _)) | apply emits_notify]).
  exact (emits_invoke_disconnected cbs room firstArg
           {| emitter := OnRoom ""; event := ""; once := true;
              closure := room_disconnected |}).
Qed.

Lemma dispatch_run cbs ev st :
  eventCallbacks st = Some cbs ->
  dispatch ev st =
    (Ok tt,
     grow (flat_map (reaction cbs ev) (List.filter (listensTo ev) (listeners st)))
          (set_listeners
             (List.filter (fun l => negb (listensTo ev l && once l)) (listeners st)) st)).
Proof.
  intros Hst. unfold dispatch, bind at 1, get at 1, bind at 1, modify at 1.
  apply (emits_forEach cbs _ _ (reaction cbs ev)); [| exact Hst].
  intros l. apply emits_invoke.
Qed.

Lemma reaction_muteEvent cbs muted id l :
  listensTo (muteEvent muted id) l = true ->
  reaction cbs (muteEvent muted id) l =
  match bridge muted id l with
  | Some b => [Notify (muteReport cbs muted b)]
  | None => []
  end.
Proof.
  intros Hl. unfold bridge, reaction. rewrite Hl.
  destruct muted, (closure l); reflexivity.
Qed.

Lemma bridge_listens muted id l :
  listensTo (muteEvent muted id) l = false -> bridge muted id l = None.
Proof. intros Hl. unfold bridge. by rewrite Hl. Qed.

(** X14.  When a track is muted or unmuted, every mute bridge attached to
    it notifies the consumer once ([ParticipantUnsubscribedTrack] for a
    mute, [ParticipantSubscribedTrack] for an unmute), in the order of
    attachment and with the track and the participant the bridge captured.
    A track bridged several times is reported that many times; nothing
    else is notified and no SDK call is made. *)
Theorem mute_is_reported_once_per_bridge cbs muted id st :
  eventCallbacks st = Some cbs ->
  notified (snd (dispatch (muteEvent muted id) st)) =
    notified st ++ map (muteReport cbs muted) (bridges muted id st) /\
  calls (snd (dispatch (muteEvent muted id) st)) = calls st.
Proof.
  intros Hcbs. rewrite (dispatch_run cbs) by exact Hcbs. cbn [snd].
  unfold notified, calls, grow, bridges. cbn [trace listeners set_listeners set_trace].
  rewrite notifications_app, sdkCalls_app.
  assert (H : forall ls,
    notifications (flat_map (reaction cbs (muteEvent muted id))
                     (List.filter (listensTo (muteEvent muted id)) ls)) =
      map (muteReport cbs muted) (omap (bridge muted id) ls) /\
    sdkCalls (flat_map (reaction cbs (muteEvent muted id))
                (List.filter (listensTo (muteEvent muted id)) ls)) = []).
  { induction ls as [|l ls [IHn IHc]]; [by split |].
    cbn [List.filter].
    destruct (listensTo (muteEvent muted id) l) eqn:Hl.
    - cbn [flat_map]. rewrite notifications_app, sdkCalls_app, IHn, IHc.
      rewrite (reaction_muteEvent _ _ _ _ Hl).
      change (omap (bridge muted id) (l :: ls))
        with (match bridge muted id l with
              | Some b => b :: omap (bridge muted id) ls
              | None => omap (bridge muted id) ls
              end).
      by destruct (bridge muted id l).
    - change (omap (bridge muted id) (l :: ls))
        with (match bridge muted id l with
              | Some b => b :: omap (bridge muted id) ls
              | None => omap (bridge muted id) ls
              end).
      by rewrite (bridge_listens _ _ _ Hl). }
  destruct (H (listeners st)) as [-> ->]. by rewrite app_nil_r.
Qed.

Lemma mute_is_reported_once_per_bridge_witness :
  notified (snd (dispatch (Ev_disabled "bob-cam") Sample.joined)) =
  notified Sample.joined ++
  [{| eventType := ParticipantUnsubscribedTrack;
      args := OfTrack (liveTrack Sample.bobCam) (Some "PA-bob");
      delivered := true |}].
Proof.
  exact (proj1 (mute_is_reported_once_per_bridge registerCallbacks true "bob-cam"
                  Sample.joined eq_refl)).
Defined.

Lemma omap_cons {A B} (f : A -> option B) x xs :
  omap f (x :: xs) = match f x with Some y => y :: omap f xs | None => omap f xs end.
Proof. reflexivity. Qed.

Lemma bridge_elsewhere ev track muted l :
  subscribedTrack ev = Some track ->
  listensTo ev l = true -> bridge muted (track_id track) l = None.
Proof.
  intros Hev Hl. apply bridge_listens. unfold listensTo in *.
  apply andb_prop in Hl as [He _].
  destruct ev; try discriminate Hev; destruct muted, (emitter l); cbn in *;
    try discriminate He; reflexivity.
Qed.

Lemma bridge_muteListeners muted track who :
  omap (bridge muted (track_id track)) (installs (muteListeners (Some track) who)) =
  [(track, who)].
Proof.
  unfold muteListeners, installs, listener. rewrite !omap_cons. cbn [install].
  rewrite !omap_cons. unfold bridge, listensTo.
  destruct muted; cbn [muteEvent source ev_name emitter event closure Emitter_eqb];
    rewrite String.eqb_refl; reflexivity.
Qed.

Lemma bridge_notice muted id cbs e p t :
  omap (bridge muted id) (installs (t ++ [notice cbs e p])) =
  omap (bridge muted id) (installs t).
Proof. rewrite installs_app. unfold installs at 2. cbn. by rewrite app_nil_r. Qed.

Lemma reaction_bridging cbs ev track muted l :
  subscribedTrack ev = Some track ->
  listensTo ev l = true ->
  omap (bridge muted (track_id track)) (installs (reaction cbs ev l)) =
  match bridging ev l with Some who => [(track, who)] | None => [] end.
Proof.
  intros Hev Hl. unfold bridging, reaction. rewrite Hl.
  destruct ev; try discriminate Hev; injection Hev as ->;
    destruct (closure l); try reflexivity;
    try apply bridge_muteListeners;
    rewrite bridge_notice; (destruct (truthy _); [apply bridge_muteListeners | reflexivity]).
Qed.

(** X15.  Every listener called with the subscription of a remote track
    bridges that track once more: the room's "trackSubscribed" listener
    always, the "trackSubscribed" listener of a participant and the
    "subscribed" listener of a publication when the participant was
    wrapped as remote.  A subscription the SDK reports at several levels
    therefore leaves several bridges on the same track; none of the
    existing bridges is replaced. *)
Theorem subscription_adds_a_bridge_per_listener cbs ev track muted st :
  eventCallbacks st = Some cbs ->
  subscribedTrack ev = Some track ->
  bridges muted (track_id track) (snd (dispatch ev st)) =
    bridges muted (track_id track) st ++
    map (pair track) (omap (bridging ev) (listeners st)).
Proof.
  intros Hcbs Hev. rewrite (dispatch_run cbs) by exact Hcbs. cbn [snd].
  unfold bridges, grow. cbn [listeners set_listeners set_trace].
  rewrite omap_app. f_equal.
  - induction (listeners st) as [|l ls IH]; [reflexivity |].
    cbn [List.filter]. destruct (listensTo ev l) eqn:Hl; cbn [andb].
    + rewrite omap_cons, (bridge_elsewhere _ _ _ _ Hev Hl).
      destruct (once l); cbn [negb]; [exact IH |].
      by rewrite omap_cons, (bridge_elsewhere _ _ _ _ Hev Hl).
    + cbn [negb]. rewrite !omap_cons. by rewrite IH.
  - induction (listeners st) as [|l ls IH]; [reflexivity |].
    cbn [List.filter]. rewrite omap_cons.
    destruct (listensTo ev l) eqn:Hl.
    + cbn [flat_map]. rewrite installs_app, omap_app, IH.
      rewrite (reaction_bridging _ _ _ _ _ Hev Hl).
      by destruct (bridging ev l).
    + unfold bridging at 1. rewrite Hl. exact IH.
Qed.

Lemma subscription_adds_a_bridge_per_listener_witness :
  bridges true "bob-mic"
    (snd (dispatch
            (Ev_roomTrackSubscribed "RM1"
               {| track_id := "bob-mic"; track_kind := Audio; track_sid := Some "MT4" |}
               Sample.bob)
            (snd (dispatch
                    (Ev_trackSubscribed "PA-bob"
                       {| track_id := "bob-mic"; track_kind := Audio;
                          track_sid := Some "MT4" |})
                    Sample.joined)))) =
  [ ({| track_id := "bob-mic"; track_kind := Audio; track_sid := Some "MT4" |}, "PA-bob");
    ({| track_id := "bob-mic"; track_kind := Audio; track_sid := Some "MT4" |}, "PA-bob") ].
Proof.
  refine (eq_trans (subscription_adds_a_bridge_per_listener registerCallbacks
             (Ev_roomTrackSubscribed "RM1"
                {| track_id := "bob-mic"; track_kind := Audio; track_sid := Some "MT4" |}
                Sample.bob)
             {| track_id := "bob-mic"; track_kind := Audio; track_sid := Some "MT4" |}
             true
             (snd (dispatch
                     (Ev_trackSubscribed "PA-bob"
                        {| track_id := "bob-mic"; track_kind := Audio;
                           track_sid := Some "MT4" |})
                     Sample.joined))
             eq_refl eq_refl) _).
  vm_compute. reflexivity.
Defined.
(** ** browser.js: which browsers may share the screen *)

Lemma Qle_bool_12_2 (v : N) :
  QArith_base.Qle_bool (QArith_base.Qmake 122 10) (QArith_base.inject_Z (Z.of_N v)) =
  (13 <=? v)%N.
Proof.
  unfold QArith_base.Qle_bool, QArith_base.inject_Z. cbn [QArith_base.Qnum QArith_base.Qden].
  destruct (N.leb_spec 13 v) as [H | H].
  - apply Z.leb_le. lia.
  - apply Z.leb_gt. lia.
Qed.

(** X16.  The version of Safari is read as a whole number (the digits
    after "Version/"), so the comparison with 12.2 accepts Safari from
    version 13 on: every Safari 12, whatever its minor version, is turned
    down. *)
Theorem safari_is_accepted_from_version_13 n :
  Browser.isValidSafariForScreenshare n =
    Browser.includes "Safari" (Browser.userAgent n) &&
    (13 <=? Browser.versionOr0
              (Browser.matchVersion "Version/" (Browser.userAgent n)))%N.
Proof.
  unfold Browser.isValidSafariForScreenshare.
  destruct (Browser.includes "Safari" (Browser.userAgent n)); [| reflexivity].
  cbv zeta. apply Qle_bool_12_2.
Qed.

(** Safari 12.1.2 as it announces itself. *)
Lemma safari_12_is_turned_down mediaDevices :
  Browser.isValidSafariForScreenshare
    {| Browser.userAgent := safari12; Browser.mediaDevices := mediaDevices |} = false.
Proof. reflexivity. Qed.

Lemma getFirefoxVersion_versionOr0 n v :
  Browser.getFirefoxVersion n = Some v ->
  Browser.versionOr0 (Browser.matchVersion "Firefox/" (Browser.userAgent n)) = v.
Proof.
  unfold Browser.getFirefoxVersion, Browser.versionOr0.
  destruct (Browser.matchVersion _ _); cbn; congruence.
Qed.

(** X17.  Off mobile, on a Firefox from version 52 on whose
    [mediaDevices.getSupportedConstraints()] reports the [mediaSource]
    constraint, the screen can be shared, and the version decides how
    [createScreenTrack] captures it: through [getUserMedia] below version
    66 (or when there is no [getDisplayMedia]), through [getDisplayMedia]
    otherwise. *)
Theorem firefox_version_decides_the_capture_call
    w md v captured answer height width st :
  Browser.isMobile w = false ->
  Browser.mediaDevices (Browser.navigator w) = Some md ->
  Browser.getSupportedConstraints md = Some true ->
  Browser.getFirefoxVersion (Browser.navigator w) = Some v ->
  (52 <= v)%N ->
  exists sdk,
    screenShareIn w captured answer = Ok sdk /\
    canScreenshare sdk = true /\
    supportsGetDisplayMedia sdk = ((66 <=? v)%N && Browser.getDisplayMedia md) /\
    calls (snd (createScreenTrack height width sdk st)) =
      calls st ++ [if (66 <=? v)%N && Browser.getDisplayMedia md
                   then Call_getDisplayMedia height width
                   else Call_getUserMedia height width].
Proof.
  intros Hmobile Hmd Hsource Hv Hfrom.
  assert (Hcan : Browser.canScreenshare w = Ok true).
  { unfold Browser.canScreenshare. rewrite Hmobile.
    destruct (Browser.isValidChromeForScreenshare _); [reflexivity |].
    unfold Browser.isValidFirefoxForScreenshare. rewrite Hmd, Hsource. cbv zeta.
    rewrite (getFirefoxVersion_versionOr0 _ _ Hv).
    apply N.leb_le in Hfrom. by rewrite Hfrom. }
  assert (Hsup : Browser.supportsGetDisplayMedia w =
                 Ok ((66 <=? v)%N && Browser.getDisplayMedia md)).
  { unfold Browser.supportsGetDisplayMedia. cbv zeta. rewrite Hcan, Hv, Hmd.
    by destruct (66 <=? v)%N. }
  unfold screenShareIn. rewrite Hcan, Hsup. eexists. split; [reflexivity |].
  cbn [canScreenshare supportsGetDisplayMedia]. split; [reflexivity |].
  split; [reflexivity |].
  unfold createScreenTrack. cbn [canScreenshare supportsGetDisplayMedia negb capture].
  set (c := if _ && _ then Call_getDisplayMedia height width else _).
  assert (Hc : calls (snd (sdkCall c st)) = calls st ++ [c]).
  { unfold calls. by rewrite trace_sdkCall, sdkCalls_app. }
  by destruct captured.
Qed.

Lemma firefox_version_decides_the_capture_call_witness :
  exists sdk,
    screenShareIn
      {| Browser.isMobile := false;
         Browser.navigator :=
           {| Browser.userAgent := firefox60;
              Browser.mediaDevices :=
                Some {| Browser.getSupportedConstraints := Some true;
                        Browser.getDisplayMedia := false |} |} |}
      (Some "screen") (inl "MT9") = Ok sdk /\
    calls (snd (createScreenTrack (Some 480) (Some 640) sdk Sample.joined)) =
      calls Sample.joined ++ [Call_getUserMedia (Some 480) (Some 640)].
Proof.
  destruct (firefox_version_decides_the_capture_call
              {| Browser.isMobile := false;
                 Browser.navigator :=
                   {| Browser.userAgent := firefox60;
                      Browser.mediaDevices :=
                        Some {| Browser.getSupportedConstraints := Some true;
                                Browser.getDisplayMedia := false |} |} |}
              {| Browser.getSupportedConstraints := Some true;
                 Browser.getDisplayMedia := false |}
              60%N (Some "screen") (inl "MT9") (Some 480) (Some 640) Sample.joined
              eq_refl eq_refl eq_refl eq_refl)
    as (sdk & Hsdk & _ & _ & Hcalls); [vm_compute; discriminate |].
  exists sdk. split; [exact Hsdk | exact Hcalls].
Defined.

(** X18.  The capability tests throw in one situation only: off mobile,
    on a browser that is not a Chrome from version 71 on, when
    [navigator.mediaDevices] is missing or has no
    [getSupportedConstraints] member.  On a mobile browser both answer no
    without looking at [navigator]; and wherever [getDisplayMedia] is said
    to be supported, the screen can be shared. *)
Theorem capability_tests_throw_only_without_getSupportedConstraints w :
  (Browser.isMobile w = true ->
     Browser.canScreenshare w = Ok false /\ Browser.supportsGetDisplayMedia w = Ok false) /\
  ((exists e, Browser.canScreenshare w = Throw e) <->
     Browser.isMobile w = false /\
     Browser.isValidChromeForScreenshare (Browser.navigator w) = false /\
     match Browser.mediaDevices (Browser.navigator w) with
     | None => True
     | Some md => Browser.getSupportedConstraints md = None
     end) /\
  ((exists e, Browser.supportsGetDisplayMedia w = Throw e) <->
     (exists e, Browser.canScreenshare w = Throw e)) /\
  (Browser.supportsGetDisplayMedia w = Ok true -> Browser.canScreenshare w = Ok true).
Proof.
  unfold Browser.supportsGetDisplayMedia, Browser.canScreenshare,
    Browser.isValidFirefoxForScreenshare. cbv zeta.
  destruct (Browser.isMobile w), (Browser.isValidChromeForScreenshare (Browser.navigator w)),
    (Browser.mediaDevices (Browser.navigator w)) as [md|];
    try destruct (Browser.getSupportedConstraints md) as [mediaSourceSupport|];
    try destruct (mediaSourceSupport && _);
    try destruct (Browser.isValidSafariForScreenshare _);
    try destruct (match Browser.getFirefoxVersion _ with None => true | Some _ => _ end);
    repeat split; try reflexivity; try discriminate;
    try (intros [e H]; discriminate H);
    try (intros (H1 & H2 & H3); discriminate);
    try (intros _; by eexists);
    try match goal with
        | H : exists _, _ |- _ => destruct H as [? H]; discriminate H
        | H : _ /\ _ |- _ => destruct H as (? & ? & ?); discriminate
        | |- exists _, _ => by eexists
        end.
Qed.

(** ** selectmedia.js: choosing the input devices *)

Lemma selectDefaultMedia_storage k sdk s storage :
  match Media.selectDefaultMedia k sdk s storage with
  | (Resolved id, _, storage') =>
      storage' = <[(MediaType_tag k ++ "DeviceId")%string := id]> storage
  | (_, _, storage') => storage' = storage
  end.
Proof.
  unfold Media.selectDefaultMedia.
  destruct (Media.getInputDevices k (Media.first sdk) s) as [[[|device others]|] s1];
    try reflexivity.
  destruct (Media.applyInputDevice k _ (Media.created sdk) s1) as [[[]|e|] s2];
    try reflexivity.
  destruct (if Media.unlabelled (device :: others) then _ else _)
    as [[[|device' others']|] s3]; reflexivity.
Qed.

Lemma selectDefaultSource_storage k sdk w :
  localStorage (engine (selectDefaultSource k sdk w)) =
  match fst (fst (Media.selectDefaultMedia k sdk (media w) (localStorage (engine w)))) with
  | Resolved id => <[(MediaType_tag k ++ "DeviceId")%string := id]> (localStorage (engine w))
  | _ => localStorage (engine w)
  end.
Proof.
  unfold selectDefaultSource.
  pose proof (selectDefaultMedia_storage k sdk (media w) (localStorage (engine w))) as H.
  destruct (Media.selectDefaultMedia k sdk (media w) (localStorage (engine w)))
    as [[[id|e|] s] storage]; cbn [fst engine localStorage set_localStorage]; exact H.
Qed.

(** X19.  The device [selectDefaultVideoSource] settles on is kept under
    "videoDeviceId", the key [joinRoom] reads: when the selection has
    resolved with a device identifier, a first [joinRoom] whose video
    options name no device connects with exactly that one. *)
Theorem selected_video_source_is_joined_with
    sdk w id accessToken roomName connectOptions answer token room cbs a v :
  fst (fst (Media.selectDefaultMedia Video sdk (media w) (localStorage (engine w)))) =
    Resolved id ->
  deviceIds (engine w) = None ->
  supplied accessToken = Some token ->
  supplied roomName = Some room ->
  eventCallbacks (engine w) = Some cbs ->
  audio (effective (engine w) connectOptions) = Some a ->
  video (effective (engine w) connectOptions) = Some v ->
  truthy_deviceId (deviceId v) = false ->
  let w1 := selectDefaultVideoSource sdk w in
  let st2 := snd (joinRoom accessToken roomName connectOptions answer (engine w1)) in
  localStorage (engine w1) !! "videoDeviceId" = Some id /\
  exists o,
    currentConnectOptions st2 = Some o /\
    deviceIdOf (video o) = Some (DeviceExact (Some id)) /\
    In (Call_connect token o) (calls st2).
Proof.
  intros Hid Hfresh Htoken Hroom Hcb Ha Hv Hnone w1 st2.
  assert (Hls : localStorage (engine w1) =
                <["videoDeviceId" := id]> (localStorage (engine w))).
  { subst w1. unfold selectDefaultVideoSource.
    by rewrite selectDefaultSource_storage, Hid. }
  assert (Hsame : engine w1 = set_localStorage (localStorage (engine w1)) (engine w)).
  { subst w1. unfold selectDefaultVideoSource, selectDefaultSource.
    by destruct (Media.selectDefaultMedia _ _ _ _) as [[? ?] ?]. }
  split; [by rewrite Hls, lookup_insert_eq |].
  destruct (prepare_resolves accessToken roomName connectOptions (engine w1) token room cbs a v
              Htoken Hroom) as (o & st' & Hp & Hids & Hopt & _ & Hvideo);
    try (rewrite Hsame; assumption).
  destruct (joinRoom_after_prepare _ _ _ answer _ _ _ _ Hp) as [Hres Hcall].
  exists o. subst st2. split; [| split; [| exact Hcall]].
  - unfold resolution in Hres. inversion Hres. congruence.
  - rewrite Hvideo. unfold resolved. rewrite Hnone. unfold identifiers.
    rewrite Hsame at 1. cbn [deviceIds set_localStorage]. rewrite Hfresh.
    cbn [ids_video]. by rewrite Hls, lookup_insert_eq.
Qed.

Lemma selected_video_source_is_joined_with_witness :
  exists o,
    currentConnectOptions
      (snd (joinRoom (Some "token") (Some "daily") (Some Sample.options) (inl Sample.room)
              (engine (selectDefaultVideoSource (granting Sample.cam) studio)))) = Some o /\
    deviceIdOf (video o) = Some (DeviceExact (Some "cam-0")).
Proof.
  destruct (selected_video_source_is_joined_with (granting Sample.cam) studio "cam-0"
              (Some "token") (Some "daily") (Some Sample.options) (inl Sample.room)
              "token" "daily" registerCallbacks Sample.noDevice Sample.noDevice
              eq_refl eq_refl eq_refl eq_refl eq_refl eq_refl eq_refl eq_refl)
    as (_ & o & Ho & Hv & _).
  exists o. split; [exact Ho | exact Hv].
Defined.

(** X20.  [selectDefaultAudioSource] keeps its device under
    "audioDeviceId", a key [joinRoom] never reads: the microphone
    preference "audioInputDeviceId" is left as it was, and a first
    [joinRoom] connects with the audio device it would have used without
    the selection. *)
Theorem selected_audio_source_is_not_joined_with
    sdk w accessToken roomName connectOptions answer token room cbs a v :
  deviceIds (engine w) = None ->
  supplied accessToken = Some token ->
  supplied roomName = Some room ->
  eventCallbacks (engine w) = Some cbs ->
  audio (effective (engine w) connectOptions) = Some a ->
  video (effective (engine w) connectOptions) = Some v ->
  truthy_deviceId (deviceId a) = false ->
  let w1 := selectDefaultAudioSource sdk w in
  let st2 := snd (joinRoom accessToken roomName connectOptions answer (engine w1)) in
  (forall id,
     fst (fst (Media.selectDefaultMedia Audio sdk (media w) (localStorage (engine w)))) =
       Resolved id ->
     localStorage (engine w1) !! "audioDeviceId" = Some id) /\
  localStorage (engine w1) !! "audioInputDeviceId" =
    localStorage (engine w) !! "audioInputDeviceId" /\
  exists o,
    currentConnectOptions st2 = Some o /\
    deviceIdOf (audio o) =
      Some (DeviceExact (localStorage (engine w) !! "audioInputDeviceId")) /\
    In (Call_connect token o) (calls st2).
Proof.
  intros Hfresh Htoken Hroom Hcb Ha Hv Hnone w1 st2.
  assert (Hls : localStorage (engine w1) =
    match fst (fst (Media.selectDefaultMedia Audio sdk (media w) (localStorage (engine w)))) with
    | Resolved id => <["audioDeviceId" := id]> (localStorage (engine w))
    | _ => localStorage (engine w)
    end).
  { subst w1. unfold selectDefaultAudioSource. by rewrite selectDefaultSource_storage. }
  assert (Hkey : localStorage (engine w1) !! "audioInputDeviceId" =
                 localStorage (engine w) !! "audioInputDeviceId").
  { rewrite Hls. destruct (fst (fst _)); try reflexivity. by rewrite lookup_insert_ne. }
  assert (Hsame : engine w1 = set_localStorage (localStorage (engine w1)) (engine w)).
  { subst w1. unfold selectDefaultAudioSource, selectDefaultSource.
    by destruct (Media.selectDefaultMedia _ _ _ _) as [[? ?] ?]. }
  split; [| split; [exact Hkey |]].
  - intros id Hid. rewrite Hls, Hid. apply lookup_insert_eq.
  - destruct (prepare_resolves accessToken roomName connectOptions (engine w1) token room
                cbs a v Htoken Hroom) as (o & st' & Hp & Hids & Hopt & Haudio & _);
      try (rewrite Hsame; assumption).
    destruct (joinRoom_after_prepare _ _ _ answer _ _ _ _ Hp) as [Hres Hcall].
    exists o. subst st2. split; [| split; [| exact Hcall]].
    + unfold resolution in Hres. inversion Hres. congruence.
    + rewrite Haudio. unfold resolved. rewrite Hnone. unfold identifiers.
      rewrite Hsame at 1. cbn [deviceIds set_localStorage]. rewrite Hfresh.
      cbn [ids_audio]. by rewrite Hkey.
Qed.

Lemma selected_audio_source_is_not_joined_with_witness :
  localStorage (engine (selectDefaultAudioSource (granting Sample.mic) studio))
    !! "audioDeviceId" = Some "mic-0" /\
  exists o,
    currentConnectOptions
      (snd (joinRoom (Some "token") (Some "daily") (Some Sample.options) (inl Sample.room)
              (engine (selectDefaultAudioSource (granting Sample.mic) studio)))) = Some o /\
    deviceIdOf (audio o) = Some (DeviceExact None).
Proof.
  destruct (selected_audio_source_is_not_joined_with (granting Sample.mic) studio
              (Some "token") (Some "daily") (Some Sample.options) (inl Sample.room)
              "token" "daily" registerCallbacks Sample.noDevice Sample.noDevice
              eq_refl eq_refl eq_refl eq_refl eq_refl eq_refl eq_refl)
    as (Hstored & _ & o & Ho & Ha & _).
  split; [exact (Hstored "mic-0" eq_refl) |].
  exists o. split; [exact Ho | exact Ha].
Defined.

(** *** The tracks of the module *)

Lemma rendered_app k l1 l2 :
  Media.rendered k (l1 ++ l2) = Media.rendered k l1 ++ Media.rendered k l2.
Proof. apply omap_app. Qed.

Lemma stopped_app k l1 l2 :
  Media.stopped k (l1 ++ l2) = Media.stopped k l1 ++ Media.stopped k l2.
Proof. apply omap_app. Qed.

Lemma tidy_note e s :
  match e with Media.Stop _ _ | Media.Render _ _ => False | _ => True end ->
  Media.tidy s -> Media.tidy (Media.note e s).
Proof.
  intros He H k. specialize (H k). unfold Media.note.
  cbn [Media.log Media.localTracks Media.audioTrack Media.videoTrack].
  rewrite rendered_app, stopped_app.
  change (Media.localTracks {| Media.audioTrack := Media.audioTrack s;
                               Media.videoTrack := Media.videoTrack s;
                               Media.log := Media.log s ++ [e] |} k)
    with (Media.localTracks s k).
  rewrite H. destruct e; try contradiction; cbn; by rewrite !app_nil_r.
Qed.

Lemma tidy_getInputDevices k answer s :
  Media.tidy s -> Media.tidy (snd (Media.getInputDevices k answer s)).
Proof.
  intros H. destruct answer; cbn [Media.getInputDevices snd];
    repeat (apply tidy_note; [exact I |]); exact H.
Qed.

Lemma tidy_applyInputDevice k id created s :
  Media.tidy s -> Media.tidy (snd (Media.applyInputDevice k id created s)).
Proof.
  intros H. unfold Media.applyInputDevice. cbv zeta.
  destruct created as [track|reason]; cbn [snd]; [| by apply tidy_note].
  intros k'. specialize (H k').
  change (Media.localTracks (Media.note (Media.CreateLocalTracks k id) s) k)
    with (Media.localTracks s k).
  destruct k, k'; destruct s as [au vi lg];
    cbn [Media.localTracks Media.audioTrack Media.videoTrack] in *;
    try destruct au as [previous|]; try destruct vi as [previous'|];
    cbn [Media.note Media.set_localTrack Media.log Media.audioTrack Media.videoTrack
         Media.localTracks] in *;
    rewrite ?rendered_app, ?stopped_app, H; cbn; rewrite ?app_nil_r, <- ?app_assoc;
    reflexivity.
Qed.

Lemma tidy_selectDefaultMedia k sdk s storage :
  Media.tidy s -> Media.tidy (snd (fst (Media.selectDefaultMedia k sdk s storage))).
Proof.
  intros H. unfold Media.selectDefaultMedia.
  pose proof (tidy_getInputDevices k (Media.first sdk) s H) as H1.
  destruct (Media.getInputDevices k (Media.first sdk) s) as [[[|device others]|] s1];
    cbn [fst snd] in *; try exact H1.
  pose proof (tidy_applyInputDevice k (Media.deviceId device) (Media.created sdk) s1 H1)
    as H2.
  destruct (Media.applyInputDevice k _ (Media.created sdk) s1) as [[[]|e|] s2];
    cbn [fst snd] in *; try exact H2.
  pose proof (tidy_getInputDevices k (Media.second sdk) s2 H2) as H3.
  destruct (Media.unlabelled (device :: others)).
  - destruct (Media.getInputDevices k (Media.second sdk) s2)
      as [[[|device' others']|] s3]; cbn [fst snd] in *; exact H3.
  - exact H2.
Qed.

Lemma tidy_serve r w : Media.tidy (media w) -> Media.tidy (media (serve r w)).
Proof.
  intros H. destruct r as [k sdk | k id created | a]; cbn [serve].
  - unfold selectDefaultSource.
    pose proof (tidy_selectDefaultMedia k sdk (media w) (localStorage (engine w)) H) as H'.
    by destruct (Media.selectDefaultMedia k sdk (media w) (localStorage (engine w)))
      as [[p s] storage].
  - by apply tidy_applyInputDevice.
  - exact H.
Qed.

(** X21.  The media module keeps one track of each kind at most: whatever
    sources are selected or changed, in whatever order and with whatever
    answers, every track it has created and handed to [render] has been
    stopped, in the order of creation, except the current one.  A track
    is stopped only once its replacement exists, so a change that fails
    leaves the previous track running. *)
Theorem media_tracks_are_stopped_when_replaced requests storage defaults k :
  Media.rendered k (Media.log (media (serveAll requests (newWorld storage defaults)))) =
  Media.stopped k (Media.log (media (serveAll requests (newWorld storage defaults)))) ++
  option_list (Media.localTracks (media (serveAll requests (newWorld storage defaults))) k).
Proof.
  assert (H : forall w, Media.tidy (media w) -> Media.tidy (media (serveAll requests w))).
  { induction requests as [|r requests IH]; intros w Hw; [exact Hw |].
    cbn [serveAll fold_left]. apply IH, tidy_serve, Hw. }
  apply H. intros k'. by destruct k'.
Qed.

Lemma getInputDevices_keeps k answer s k' :
  Media.localTracks (snd (Media.getInputDevices k answer s)) k' = Media.localTracks s k' /\
  Media.rendered k' (Media.log (snd (Media.getInputDevices k answer s))) =
    Media.rendered k' (Media.log s).
Proof.
  destruct answer; cbn [Media.getInputDevices snd Media.note Media.log];
    rewrite ?rendered_app; (split; [by destruct k' | cbn; by rewrite ?app_nil_r]).
Qed.

Lemma applyInputDevice_track k id track s :
  Media.localTracks (snd (Media.applyInputDevice k id (inl track) s)) k = Some track.
Proof.
  unfold Media.applyInputDevice. cbv zeta.
  destruct k, s as [[previous|] [previous'|] steps]; reflexivity.
Qed.

(** X22.  [selectDefaultMedia] writes the preference at the very end: the
    storage changes only when the promise resolves, and then under
    "<kind>DeviceId" with the identifier it resolves with.  When the first
    enumeration fails or lists no device of the kind, the promise is
    rejected and no track is created; when only the second one does, the
    promise is rejected although the new track is in place. *)
Theorem selectDefaultMedia_stores_only_when_resolved k sdk s storage :
  (match Media.selectDefaultMedia k sdk s storage with
   | (Resolved id, _, storage') =>
       storage' = <[(MediaType_tag k ++ "DeviceId")%string := id]> storage
   | (_, _, storage') => storage' = storage
   end) /\
  (match fst (Media.getInputDevices k (Media.first sdk) s) with
   | None | Some [] =>
       is_Rejected (fst (fst (Media.selectDefaultMedia k sdk s storage))) = true /\
       Media.localTracks (snd (fst (Media.selectDefaultMedia k sdk s storage))) k =
         Media.localTracks s k /\
       Media.rendered k (Media.log (snd (fst (Media.selectDefaultMedia k sdk s storage)))) =
         Media.rendered k (Media.log s)
   | Some (device :: others) =>
       forall track,
         Media.created sdk = inl track ->
         Media.unlabelled (device :: others) = true ->
         match fst (Media.getInputDevices k (Media.second sdk) s) with
         | None | Some [] =>
             is_Rejected (fst (fst (Media.selectDefaultMedia k sdk s storage))) = true /\
             Media.localTracks (snd (fst (Media.selectDefaultMedia k sdk s storage))) k =
               Some track
         | Some (device' :: _) =>
             fst (fst (Media.selectDefaultMedia k sdk s storage)) =
               Resolved (Media.deviceId device')
         end
   end).
Proof.
  split; [apply selectDefaultMedia_storage |].
  unfold Media.selectDefaultMedia.
  destruct (getInputDevices_keeps k (Media.first sdk) s k) as [Hl Hr].
  destruct (Media.getInputDevices k (Media.first sdk) s) as [[[|device others]|] s1];
    cbn [fst snd] in *; try (repeat split; assumption).
  intros track Htrack Hunlabelled. rewrite Htrack, Hunlabelled.
  pose proof (applyInputDevice_track k (Media.deviceId device) track s1) as Hnew.
  destruct (Media.applyInputDevice k (Media.deviceId device) (inl track) s1)
    as [p s2] eqn:Happly.
  assert (Hp : p = Resolved tt).
  { unfold Media.applyInputDevice in Happly. cbv zeta in Happly. by inversion Happly. }
  subst p. cbn [snd] in Hnew.
  destruct (getInputDevices_keeps k (Media.second sdk) s2 k) as [Hl2 _].
  assert (Hsame : fst (Media.getInputDevices k (Media.second sdk) s) =
                  fst (Media.getInputDevices k (Media.second sdk) s2))
    by (by destruct (Media.second sdk)).
  rewrite Hsame.
  destruct (Media.getInputDevices k (Media.second sdk) s2) as [[[|device' others']|] s3];
    cbn [fst snd] in *; try (split; [reflexivity | congruence]); reflexivity.
Qed.

Lemma selectDefaultMedia_stores_only_when_resolved_witness :
  is_Rejected (fst (fst (Media.selectDefaultMedia Video refusedLater Media.initial ∅))) =
    true /\
  Media.localTracks
    (snd (fst (Media.selectDefaultMedia Video refusedLater Media.initial ∅))) Video =
    Some Sample.cam.
Proof.
  exact (proj2 (selectDefaultMedia_stores_only_when_resolved Video refusedLater
                  Media.initial ∅) Sample.cam eq_refl eq_refl).
Defined.

(** X23.  Two functions of the engine call members selectmedia.js does not
    export.  [listAllAudioOutputDevices] is always rejected, and so is
    [onMediaDevicesListChange], which registers no handler whether a
    callback is given or not; without a callback it first notifies
    [ErrorOccured]. *)
Theorem absent_media_members_always_reject callback devices registered st :
  is_Rejected (outcome (listAllAudioOutputDevices devices st)) = true /\
  snd (listAllAudioOutputDevices devices st) = st /\
  is_Rejected (outcome (onMediaDevicesListChange callback registered st)) = true /\
  (callback = true -> snd (onMediaDevicesListChange callback registered st) = st) /\
  (forall cbs, callback = false -> eventCallbacks st = Some cbs ->
     snd (onMediaDevicesListChange callback registered st) =
       grow [notice cbs ErrorOccured
               (OfMessage "onMediaDevicesListChange - callback was not supplied, no change handler will be registered")]
            st).
Proof.
  unfold listAllAudioOutputDevices, onMediaDevicesListChange, outcome.
  repeat split.
  - destruct callback; cbn [negb when ret fst]; [reflexivity |].
    by destruct (notifyOfEvent _ _ st) as [[[]|e] st'].
  - by intros ->.
  - intros cbs -> Hcbs. cbn [negb when].
    by rewrite (emits_notify cbs _ _ st Hcbs).
Qed.
(** ** browser.js: the parameters in the URL *)

Import Stdlib.Strings.Ascii.

Lemma split_nonempty c s : Url.split c s <> [].
Proof.
  destruct s as [|a s]; cbn [Url.split]; [discriminate |].
  destruct (Ascii.eqb a c); [discriminate |]. by destruct (Url.split c s).
Qed.

Lemma split_free c s : Url.free c s = true -> Url.split c s = [s].
Proof.
  induction s as [|a s IH]; cbn [Url.split Url.free]; [reflexivity |].
  intros H. apply andb_prop in H as [Ha Hs]. apply negb_true_iff in Ha.
  by rewrite Ha, (IH Hs).
Qed.

Lemma split_app c a b :
  Url.free c a = true -> Url.split c (a ++ String c b)%string = a :: Url.split c b.
Proof.
  induction a as [|x a IH]; simpl.
  - intros _. by rewrite Ascii.eqb_refl.
  - intros H. apply andb_prop in H as [Hx Ha]. apply negb_true_iff in Hx.
    by rewrite Hx, (IH Ha).
Qed.

Lemma free_app c a b : Url.free c (a ++ b)%string = Url.free c a && Url.free c b.
Proof.
  induction a as [|x a IH]; simpl; [reflexivity |].
  by rewrite IH, andb_assoc.
Qed.

Lemma split_join c pieces :
  pieces <> [] -> Forall (fun piece => Url.free c piece = true) pieces ->
  Url.split c (Url.join (String c EmptyString) pieces) = pieces.
Proof.
  intros Hne H. induction H as [|piece pieces Hp Hps IH]; [done |].
  destruct pieces as [|piece' pieces]; [by apply split_free |].
  change (Url.join (String c EmptyString) (piece :: piece' :: pieces))
    with (piece ++ String c (Url.join (String c EmptyString) (piece' :: pieces)))%string.
  rewrite (split_app _ _ _ Hp). f_equal. by apply IH.
Qed.

(** The pieces of a split contain no separator, and nothing that was not
    in the string. *)
Lemma split_pieces_free c s :
  Forall (fun piece => Url.free c piece = true) (Url.split c s).
Proof.
  induction s as [|a s IH]; cbn [Url.split]; [by repeat constructor |].
  destruct (Ascii.eqb a c) eqn:Ha; [by constructor |].
  destruct (Url.split c s) as [|piece pieces]; [by repeat constructor; cbn; rewrite Ha |].
  inversion IH; subst. constructor; [| assumption]. cbn. by rewrite Ha.
Qed.

Lemma split_pieces_keep c d s :
  Url.free d s = true -> Forall (fun piece => Url.free d piece = true) (Url.split c s).
Proof.
  induction s as [|a s IH]; cbn [Url.split Url.free]; [by repeat constructor |].
  intros H. apply andb_prop in H as [Ha Hs]. specialize (IH Hs).
  destruct (Ascii.eqb a c); [by constructor |].
  destruct (Url.split c s) as [|piece pieces]; [by repeat constructor; cbn; rewrite Ha |].
  inversion IH; subst. constructor; [| assumption]. cbn. by rewrite Ha.
Qed.

Lemma assign_proto name value object :
  object !! "__proto__" = None -> Url.assign name value object !! "__proto__" = None.
Proof.
  intros H. unfold Url.assign. destruct (String.eqb name "__proto__") eqn:E; [exact H |].
  apply String.eqb_neq in E. by rewrite lookup_insert_ne.
Qed.

Section Uri.
Variable decodeURIComponent : string -> option string.
Variable encodeURIComponent : string -> string.
Variable Object_entries : gmap string string -> list (string * string).
Hypothesis decode_encode : forall v, decodeURIComponent (encodeURIComponent v) = Some v.
Hypothesis encode_plain : forall v, Url.plain (encodeURIComponent v) = true.
Hypothesis entries_enumerate : forall m, Object_entries m ≡ₚ map_to_list m.

Lemma parsed_assign name value object :
  Url.plain name = true -> Url.parsed object -> Url.parsed (Url.assign name value object).
Proof.
  intros Hname [Hproto Hplain]. split; [by apply assign_proto |].
  unfold Url.assign. destruct (String.eqb name "__proto__"); [exact Hplain |].
  intros name' value'. destruct (decide (name = name')) as [<- | Hne].
  - by rewrite lookup_insert_eq.
  - rewrite lookup_insert_ne by exact Hne. apply Hplain.
Qed.

Lemma parsed_addPair params nvpair object :
  Url.free "?" nvpair = true -> Url.free "&" nvpair = true ->
  Url.parsed params ->
  Url.addPair decodeURIComponent (Some params) nvpair = Some object -> Url.parsed object.
Proof.
  intros Hq Ha Hparams. unfold Url.addPair. cbv zeta.
  destruct (decodeURIComponent _) as [decoded|]; [| discriminate].
  intros [= <-]. apply parsed_assign; [| exact Hparams].
  pose proof (split_pieces_free "=" nvpair) as He.
  pose proof (split_pieces_keep "=" "?" nvpair Hq) as Hq'.
  pose proof (split_pieces_keep "=" "&" nvpair Ha) as Ha'.
  destruct (Url.split "=" nvpair) as [|name pieces]; [reflexivity |].
  inversion He; inversion Hq'; inversion Ha'; subst. cbn [hd]. unfold Url.plain.
  by repeat (apply andb_true_intro; split).
Qed.

Lemma parsed_fold nvpairs params object :
  Forall (fun nvpair => Url.free "?" nvpair = true /\ Url.free "&" nvpair = true) nvpairs ->
  Url.parsed params ->
  fold_left (Url.addPair decodeURIComponent) nvpairs (Some params) = Some object ->
  Url.parsed object.
Proof.
  intros H. revert params. induction H as [|nvpair nvpairs [Hq Ha] _ IH]; intros params Hp.
  - by intros [= <-].
  - cbn [fold_left].
    destruct (Url.addPair decodeURIComponent (Some params) nvpair) as [params'|] eqn:E.
    + apply IH. by apply (parsed_addPair params nvpair).
    + assert (Hnone : forall l, fold_left (Url.addPair decodeURIComponent) l None = None)
        by (by induction l).
      by rewrite Hnone.
Qed.

Lemma getUrlParams_parsed search object :
  Url.getUrlParams decodeURIComponent search = Some object -> Url.parsed object.
Proof.
  unfold Url.getUrlParams. cbv zeta.
  pose proof (split_pieces_free "?" search) as Hq.
  destruct (Url.split "?" search) as [|piece0 [|s pieces]]; cbn [nth_error];
    try (intros [= <-]; split; [done | intros ? ?; by rewrite lookup_empty]).
  destruct (truthy_string s);
    [| intros [= <-]; split; [done | intros ? ?; by rewrite lookup_empty]].
  apply parsed_fold; [| split; [done | intros ? ?; by rewrite lookup_empty]].
  inversion Hq as [|? ? _ Hq']; subst. inversion Hq' as [|? ? Hs _]; subst.
  pose proof (split_pieces_free "&" s) as Ha.
  pose proof (split_pieces_keep "&" "?" s Hs) as Hq''.
  clear -Ha Hq''. induction Ha; inversion Hq''; subst; constructor; auto.
Qed.

Lemma parsed_Object_assign target source :
  Forall (fun member => Url.plain (fst member) = true) source ->
  Url.parsed target -> Url.parsed (Url.Object_assign target source).
Proof.
  intros H. revert target. unfold Url.Object_assign.
  induction H as [|[name value] source Hname _ IH]; intros target Ht; [exact Ht |].
  cbn [fold_left]. apply IH. by apply parsed_assign.
Qed.

Lemma serialize_written entries :
  Url.serialize encodeURIComponent entries =
  Url.join "&" (map (Url.written encodeURIComponent) entries).
Proof.
  unfold Url.serialize. f_equal. apply map_ext. by intros [name value].
Qed.

Lemma written_free c member :
  c <> "="%char -> Url.free c (fst member) = true ->
  Url.free c (encodeURIComponent (snd member)) = true ->
  Url.free c (Url.written encodeURIComponent member) = true.
Proof.
  intros Hc Hn Hv. unfold Url.written. rewrite !free_app, Hn, Hv.
  cbn [Url.free andb]. apply Ascii.eqb_neq in Hc. rewrite Ascii.eqb_sym in Hc.
  by rewrite Hc.
Qed.

Lemma plain_free s :
  Url.plain s = true ->
  Url.free "?" s = true /\ Url.free "&" s = true /\ Url.free "=" s = true.
Proof.
  unfold Url.plain. intros H. apply andb_prop in H as [H He].
  apply andb_prop in H as [Hq Ha]. done.
Qed.

Lemma join_free c sep pieces :
  Url.free c sep = true -> Forall (fun piece => Url.free c piece = true) pieces ->
  Url.free c (Url.join sep pieces) = true.
Proof.
  intros Hsep H. induction H as [|piece pieces Hp _ IH]; [reflexivity |].
  destruct pieces as [|piece' pieces]; [exact Hp |].
  change (Url.join sep (piece :: piece' :: pieces))
    with (piece ++ sep ++ Url.join sep (piece' :: pieces))%string.
  by rewrite !free_app, Hp, Hsep, IH.
Qed.

Lemma addPair_written params member :
  Url.plain (fst member) = true ->
  Url.addPair decodeURIComponent (Some params)
              (Url.written encodeURIComponent member) =
    Some (Url.assign (fst member) (snd member) params).
Proof.
  intros Hname. destruct (plain_free _ Hname) as (_ & _ & He).
  destruct (plain_free _ (encode_plain (snd member))) as (_ & _ & He').
  unfold Url.addPair, Url.written. cbv zeta.
  change ("=" ++ ?s)%string with (String "=" s).
  rewrite (split_app _ _ _ He), (split_free _ _ He'). cbn [hd nth_error default].
  unfold id. by rewrite decode_encode.
Qed.

Lemma fold_written entries params :
  Forall (fun member => Url.plain (fst member) = true) entries ->
  fold_left (Url.addPair decodeURIComponent)
            (map (Url.written encodeURIComponent) entries) (Some params) =
    Some (Url.Object_assign params entries).
Proof.
  intros H. revert params. unfold Url.Object_assign.
  induction H as [|[name value] entries Hname _ IH]; intros params; [reflexivity |].
  cbn [map fold_left]. rewrite (addPair_written params (name, value) Hname). apply IH.
Qed.

Lemma Object_assign_entries (entries : list (string * string)) object :
  entries ≡ₚ map_to_list object ->
  object !! "__proto__" = None ->
  Url.Object_assign ∅ entries = object.
Proof.
  intros Hperm Hproto.
  assert (Hkeys : Forall (fun member => fst member <> "__proto__") entries).
  { apply Forall_forall. intros [name value] Hin Heq. cbn in Heq. subst name.
    apply list_elem_of_In in Hin. rewrite Hperm in Hin.
    apply elem_of_map_to_list in Hin. congruence. }
  assert (Hfold : forall target : gmap string string,
            Url.Object_assign target entries =
            foldr (fun member object => <[fst member := snd member]> object)
                  target (rev entries)).
  { unfold Url.Object_assign. clear Hperm. induction Hkeys as [|[name value] l Hk _ IH];
      intros target; [reflexivity |].
    cbn [fold_left rev]. rewrite foldr_app. cbn [foldr fst snd].
    rewrite IH. unfold Url.assign. cbn in Hk. apply String.eqb_neq in Hk. by rewrite Hk. }
  rewrite Hfold.
  transitivity (list_to_map (M := gmap string string) (rev entries)).
  { clear. induction (rev entries) as [|[name value] l IH]; [reflexivity |].
    cbn. by rewrite IH. }
  rewrite <- (list_to_map_to_list object). apply list_to_map_proper.
  - rewrite <- Permutation_rev, Hperm. apply NoDup_fst_map_to_list.
  - by rewrite <- Permutation_rev.
Qed.
Lemma join_written_truthy member entries :
  truthy_string (Url.join "&" (map (Url.written encodeURIComponent) (member :: entries))) =
  true.
Proof.
  destruct member as [[|a name] value], entries as [|member' entries]; reflexivity.
Qed.

Lemma getUrlParams_serialize entries :
  Forall (fun member => Url.plain (fst member) = true) entries ->
  Url.getUrlParams decodeURIComponent
    ("?" ++ Url.serialize encodeURIComponent entries)%string =
  Some (Url.Object_assign ∅ entries).
Proof.
  intros Hplain. rewrite serialize_written.
  set (pieces := map (Url.written encodeURIComponent) entries).
  assert (Hfree : forall c, c <> "="%char ->
            (forall s, Url.plain s = true -> Url.free c s = true) ->
            Forall (fun piece => Url.free c piece = true) pieces).
  { intros c Hc Hsub. subst pieces. apply Forall_map.
    eapply List.Forall_impl; [| exact Hplain]. intros member Hm.
    apply written_free; [exact Hc | by apply Hsub | apply Hsub, encode_plain]. }
  assert (Hq : Url.free "?" (Url.join "&" pieces) = true).
  { apply join_free; [reflexivity |]. apply Hfree; [discriminate |].
    intros s Hs. by destruct (plain_free s Hs) as (? & ? & ?). }
  unfold Url.getUrlParams. cbv zeta.
  change ("?" ++ ?s)%string with (String "?" s).
  change (Url.split "?" (String "?" (Url.join "&" pieces)))
    with (EmptyString :: Url.split "?" (Url.join "&" pieces)).
  rewrite (split_free _ _ Hq). cbn [nth_error].
  destruct entries as [|member entries]; [reflexivity |].
  subst pieces. rewrite join_written_truthy.
  rewrite split_join.
  - by apply fold_written.
  - discriminate.
  - apply Hfree; [discriminate |].
    intros s Hs. by destruct (plain_free s Hs) as (? & ? & ?).
Qed.

Lemma kept_app a b : Url.kept (a ++ b)%string = Url.kept a && Url.kept b.
Proof.
  induction a as [|x a IH]; simpl; [reflexivity |]. by rewrite IH, andb_assoc.
Qed.

Lemma kept_split c s :
  Url.kept s = true -> Forall (fun piece => Url.kept piece = true) (Url.split c s).
Proof.
  induction s as [|a s IH]; cbn [Url.split Url.kept]; [by repeat constructor |].
  intros H. apply andb_prop in H as [Ha Hs]. specialize (IH Hs).
  destruct (Ascii.eqb a c); [by constructor |].
  destruct (Url.split c s) as [|piece pieces]; [by repeat constructor; cbn; rewrite Ha |].
  inversion IH; subst. constructor; [| assumption]. cbn. by rewrite Ha.
Qed.

Lemma kept_join sep pieces :
  Url.kept sep = true -> Forall (fun piece => Url.kept piece = true) pieces ->
  Url.kept (Url.join sep pieces) = true.
Proof.
  intros Hsep H. induction H as [|piece pieces Hp _ IH]; [reflexivity |].
  destruct pieces as [|piece' pieces]; [exact Hp |].
  change (Url.join sep (piece :: piece' :: pieces))
    with (piece ++ sep ++ Url.join sep (piece' :: pieces))%string.
  by rewrite !kept_app, Hp, Hsep, IH.
Qed.

Lemma kept_free_hash s : Url.kept s = true -> Url.free "#" s = true.
Proof.
  induction s as [|a s IH]; cbn [Url.kept Url.free]; [reflexivity |].
  intros H. apply andb_prop in H as [Ha Hs]. rewrite (IH Hs), andb_true_r.
  destruct (Ascii.eqb a "#") eqn:E; [| reflexivity].
  apply Ascii.eqb_eq in E. by subst a.
Qed.

Lemma keptNames_assign name value object :
  Url.kept name = true -> Url.keptNames object -> Url.keptNames (Url.assign name value object).
Proof.
  intros Hname Hobject. unfold Url.assign.
  destruct (String.eqb name "__proto__"); [exact Hobject |].
  intros name' value'. destruct (decide (name = name')) as [<- | Hne].
  - by rewrite lookup_insert_eq.
  - rewrite lookup_insert_ne by exact Hne. apply Hobject.
Qed.

Lemma keptNames_fold nvpairs params object :
  Forall (fun nvpair => Url.kept nvpair = true) nvpairs ->
  Url.keptNames params ->
  fold_left (Url.addPair decodeURIComponent) nvpairs (Some params) = Some object ->
  Url.keptNames object.
Proof.
  intros H. revert params. induction H as [|nvpair nvpairs Hk _ IH]; intros params Hp.
  - by intros [= <-].
  - cbn [fold_left].
    destruct (Url.addPair decodeURIComponent (Some params) nvpair) as [params'|] eqn:E.
    + apply IH. revert E. unfold Url.addPair. cbv zeta.
      destruct (decodeURIComponent _) as [decoded|]; [| discriminate].
      intros [= <-]. apply keptNames_assign; [| exact Hp].
      pose proof (kept_split "=" nvpair Hk) as Hpieces.
      destruct (Url.split "=" nvpair) as [|name pieces]; [reflexivity |].
      by inversion Hpieces.
    + assert (Hnone : forall l, fold_left (Url.addPair decodeURIComponent) l None = None)
        by (by induction l).
      by rewrite Hnone.
Qed.

Lemma getUrlParams_keptNames search object :
  Url.kept search = true ->
  Url.getUrlParams decodeURIComponent search = Some object -> Url.keptNames object.
Proof.
  intros Hsearch. unfold Url.getUrlParams. cbv zeta.
  pose proof (kept_split "?" search Hsearch) as Hq.
  destruct (Url.split "?" search) as [|piece0 [|s pieces]]; cbn [nth_error];
    try (intros [= <-]; intros ? ?; by rewrite lookup_empty).
  destruct (truthy_string s); [| intros [= <-]; intros ? ?; by rewrite lookup_empty].
  apply keptNames_fold; [| intros ? ?; by rewrite lookup_empty].
  inversion Hq as [|? ? _ Hq']; subst. inversion Hq' as [|? ? Hs _]; subst.
  by apply kept_split.
Qed.

Lemma keptNames_Object_assign target source :
  Forall (fun member => Url.kept (fst member) = true) source ->
  Url.keptNames target -> Url.keptNames (Url.Object_assign target source).
Proof.
  intros H. revert target. unfold Url.Object_assign.
  induction H as [|[name value] source Hname _ IH]; intros target Ht; [exact Ht |].
  cbn [fold_left]. apply IH. by apply keptNames_assign.
Qed.

Lemma kept_serialize entries :
  Forall (fun member => Url.kept (fst member) = true /\
                        Url.kept (encodeURIComponent (snd member)) = true) entries ->
  Url.kept (Url.serialize encodeURIComponent entries) = true.
Proof.
  intros H. rewrite serialize_written. apply kept_join; [reflexivity |].
  apply Forall_map. eapply List.Forall_impl; [| exact H].
  intros [name value] [Hn Hv]. unfold Url.written. cbn [fst snd] in *.
  by rewrite !kept_app, Hn, Hv.
Qed.

(** [location.search] once [history.pushState(null, "", url)] has
    returned.  The browser's URL parser is not modelled: all that is
    assumed of it is that for a URL made of a path without "?" and "#"
    and a query of characters the parser keeps, [location.search] is "?"
    with that query, and the empty string when the query is empty. *)
Variable location_search : string -> string.
Hypothesis search_of_kept : forall pathname query,
  Url.free "?" pathname = true -> Url.free "#" pathname = true ->
  Url.kept query = true ->
  location_search (pathname ++ "?" ++ query)%string =
    if truthy_string query then ("?" ++ query)%string else EmptyString.

(** X24.  What [addUrlParams] writes, [getUrlParams] reads back from
    [location.search]: the parameters that were there with the added ones
    over them, in whatever order the members were enumerated.  This holds
    when the URL parser has nothing to rewrite in the URL handed to
    [history.pushState]: [location.search] being made of characters the
    parser keeps and [location.pathname] having no "?" and no "#", as the
    browser gives them, the names of the added parameters contain none of
    "?", "&" and "=" and only characters the parser keeps in a query (so
    no "#", no space and no apostrophe: [addUrlParams] writes the names as
    they are), and the values, once encoded, only such characters too. *)
Theorem added_parameters_are_read_back search pathname params current :
  Url.kept search = true ->
  Url.free "?" pathname = true -> Url.free "#" pathname = true ->
  Url.getUrlParams decodeURIComponent search = Some current ->
  Forall (fun member => Url.plain (fst member) = true /\
                        Url.kept (fst member) = true) params ->
  (forall name value,
     Url.Object_assign current params !! name = Some value ->
     Url.kept (encodeURIComponent value) = true) ->
  exists url,
    Url.addUrlParams decodeURIComponent encodeURIComponent Object_entries
      search pathname params = Some url /\
    Url.getUrlParams decodeURIComponent (location_search url) =
      Some (Url.Object_assign current params).
Proof.
  intros Hsearch Hpath1 Hpath2 Hcurrent Hparams Hvalues.
  assert (Hplains : Forall (fun member => Url.plain (fst member) = true) params)
    by (eapply List.Forall_impl; [| exact Hparams]; by intros ? [? ?]).
  assert (Hkepts : Forall (fun member => Url.kept (fst member) = true) params)
    by (eapply List.Forall_impl; [| exact Hparams]; by intros ? [? ?]).
  set (combined := Url.Object_assign current params) in *.
  set (query := Url.serialize encodeURIComponent (Object_entries combined)).
  exists (pathname ++ "?" ++ query)%string.
  split; [unfold Url.addUrlParams; by rewrite Hcurrent |].
  destruct (parsed_Object_assign current params Hplains
              (getUrlParams_parsed search current Hcurrent)) as [Hproto Hplain].
  pose proof (keptNames_Object_assign current params Hkepts
                (getUrlParams_keptNames search current Hsearch Hcurrent)) as Hnames.
  fold combined in Hproto, Hplain, Hnames.
  assert (Hin : forall name value, In (name, value) (Object_entries combined) ->
                                   combined !! name = Some value).
  { intros name value Hin. apply list_elem_of_In in Hin.
    rewrite entries_enumerate in Hin. by apply elem_of_map_to_list in Hin. }
  assert (Hread : Url.getUrlParams decodeURIComponent ("?" ++ query)%string =
                  Some combined).
  { subst query. rewrite getUrlParams_serialize.
    - f_equal. apply Object_assign_entries; [apply entries_enumerate | exact Hproto].
    - apply Forall_forall. intros [name value] Hm. cbn [fst].
      by apply (Hplain name value), Hin. }
  rewrite search_of_kept; [| exact Hpath1 | exact Hpath2 |].
  - destruct query as [|a query]; [| exact Hread].
    rewrite <- Hread. reflexivity.
  - subst query. apply kept_serialize. apply Forall_forall.
    intros [name value] Hm. cbn [fst snd]. apply Hin in Hm.
    split; [by apply (Hnames name value) | by apply (Hvalues name value)].
Qed.
End Uri.

Lemma decodeSeparators_encodeSeparators v :
  Url.decodeSeparators (Url.encodeSeparators v) = v.
Proof.
  induction v as [|a v IH]; [reflexivity |]. cbn [Url.encodeSeparators].
  destruct (Ascii.eqb a "?") eqn:E1;
    [apply Ascii.eqb_eq in E1; subst a; simpl;
     change ("" ++ Url.encodeSeparators v)%string with (Url.encodeSeparators v);
     by rewrite IH |].
  destruct (Ascii.eqb a "&") eqn:E2;
    [apply Ascii.eqb_eq in E2; subst a; simpl;
     change ("" ++ Url.encodeSeparators v)%string with (Url.encodeSeparators v);
     by rewrite IH |].
  destruct (Ascii.eqb a "=") eqn:E3;
    [apply Ascii.eqb_eq in E3; subst a; simpl;
     change ("" ++ Url.encodeSeparators v)%string with (Url.encodeSeparators v);
     by rewrite IH |].
  destruct (Ascii.eqb a "%") eqn:E4;
    [apply Ascii.eqb_eq in E4; subst a; simpl;
     change ("" ++ Url.encodeSeparators v)%string with (Url.encodeSeparators v);
     by rewrite IH |].
  cbn [Url.decodeSeparators]. by rewrite E4, IH.
Qed.

Lemma encodeSeparators_plain v : Url.plain (Url.encodeSeparators v) = true.
Proof.
  assert (H : forall c, (c = "?" \/ c = "&" \/ c = "=")%char ->
            Url.free c (Url.encodeSeparators v) = true).
  { intros c Hc. induction v as [|a v IH]; [reflexivity |]. cbn [Url.encodeSeparators].
    destruct (Ascii.eqb a "?") eqn:E1;
      [rewrite free_app, IH; by destruct Hc as [-> | [-> | ->]] |].
    destruct (Ascii.eqb a "&") eqn:E2;
      [rewrite free_app, IH; by destruct Hc as [-> | [-> | ->]] |].
    destruct (Ascii.eqb a "=") eqn:E3;
      [rewrite free_app, IH; by destruct Hc as [-> | [-> | ->]] |].
    destruct (Ascii.eqb a "%") eqn:E4;
      [rewrite free_app, IH; by destruct Hc as [-> | [-> | ->]] |].
    cbn [Url.free]. rewrite IH. by destruct Hc as [-> | [-> | ->]]; rewrite ?E1, ?E2, ?E3. }
  unfold Url.plain. by rewrite !H by auto.
Qed.

Lemma since_question pathname query :
  Url.free "?" pathname = true ->
  Url.since "?" (pathname ++ "?" ++ query)%string = ("?" ++ query)%string.
Proof.
  induction pathname as [|a pathname IH]; [reflexivity |].
  cbn [Url.free]. intros H. apply andb_prop in H as [Ha Hp].
  apply negb_true_iff in Ha. simpl. rewrite Ha. by apply IH.
Qed.

Lemma before_free c s : Url.free c s = true -> Url.before c s = s.
Proof.
  induction s as [|a s IH]; [reflexivity |].
  cbn [Url.free Url.before]. intros H. apply andb_prop in H as [Ha Hs].
  apply negb_true_iff in Ha. by rewrite Ha, (IH Hs).
Qed.

(** [Url.searchOf] is a [location.search] of the kind assumed. *)
Lemma searchOf_of_kept pathname query :
  Url.free "?" pathname = true -> Url.free "#" pathname = true ->
  Url.kept query = true ->
  Url.searchOf (pathname ++ "?" ++ query)%string =
    if truthy_string query then ("?" ++ query)%string else EmptyString.
Proof.
  intros Hq _ Hk. unfold Url.searchOf. cbv zeta. rewrite (since_question _ _ Hq).
  change ("?" ++ query)%string with (String "?" query).
  rewrite before_free by (cbn [Url.free]; by rewrite (kept_free_hash _ Hk)).
  by destruct query.
Qed.

Lemma added_parameters_are_read_back_witness :
  exists url,
    Url.addUrlParams (fun s => Some (Url.decodeSeparators s)) Url.encodeSeparators
      map_to_list "?room=daily" "/call" [("name", "a&b")] = Some url /\
    Url.getUrlParams (fun s => Some (Url.decodeSeparators s)) (Url.searchOf url) =
      Some (<["name" := "a&b"]> (<["room" := "daily"]> ∅)).
Proof.
  apply (added_parameters_are_read_back
           (fun s => Some (Url.decodeSeparators s)) Url.encodeSeparators map_to_list
           (fun v => f_equal Some (decodeSeparators_encodeSeparators v))
           encodeSeparators_plain (fun m => reflexivity _)
           Url.searchOf searchOf_of_kept
           "?room=daily" "/call" [("name", "a&b")] (<["room" := "daily"]> ∅)).
  - reflexivity.
  - reflexivity.
  - reflexivity.
  - vm_compute. reflexivity.
  - repeat constructor.
  - intros name value. unfold Url.Object_assign. cbn [fold_left].
    change (Url.assign "name" "a&b" (<["room" := "daily"]> ∅))
      with (<["name" := "a&b"]> (<["room" := "daily"]> ∅) : gmap string string).
    destruct (decide (name = "name")) as [-> | Hn];
      [rewrite lookup_insert_eq; by intros [= <-] |].
    rewrite lookup_insert_ne by congruence.
    destruct (decide (name = "room")) as [-> | Hr];
      [rewrite lookup_insert_eq; by intros [= <-] |].
    rewrite lookup_insert_ne by congruence. by rewrite lookup_empty.
Defined.

Lemma split_app_any c a b :
  Url.split c (a ++ String c b)%string = Url.split c a ++ Url.split c b.
Proof.
  induction a as [|x a IH]; simpl.
  - by rewrite Ascii.eqb_refl.
  - destruct (Ascii.eqb x c); [by rewrite IH |].
    rewrite IH. pose proof (split_nonempty c a) as Hne.
    by destruct (Url.split c a).
Qed.

Lemma getUrlParams_query decode query :
  truthy_string query = true -> Url.free "?" query = true ->
  Url.getUrlParams decode ("?" ++ query)%string =
  fold_left (Url.addPair decode) (Url.split "&" query) (Some ∅).
Proof.
  intros Ht Hq. unfold Url.getUrlParams. cbv zeta.
  change ("?" ++ query)%string with (String "?" query).
  change (Url.split "?" (String "?" query)) with (EmptyString :: Url.split "?" query).
  rewrite (split_free _ _ Hq). cbn [nth_error]. by rewrite Ht.
Qed.

Lemma addPair_bare decode params name :
  decode "undefined" = Some "undefined" ->
  Url.free "=" name = true ->
  Url.addPair decode params name = option_map (Url.assign name "undefined") params.
Proof.
  intros Hdecode Hname. destruct params as [params|]; [| reflexivity].
  unfold Url.addPair. cbv zeta. rewrite (split_free _ _ Hname).
  cbn [hd nth_error default option_map]. by rewrite Hdecode.
Qed.

(** X25.  A parameter written without "=" has no value to decode:
    [getUrlParams] gives it the string "undefined".  This holds for a
    query string made of the name alone and for a name that follows other
    parameters, whose reading is not affected. *)
Theorem parameter_without_value_reads_undefined decode name :
  decode "undefined" = Some "undefined" ->
  Url.plain name = true ->
  (truthy_string name = true ->
     Url.getUrlParams decode ("?" ++ name)%string =
       Some (Url.assign name "undefined" ∅)) /\
  (forall query,
     truthy_string query = true -> Url.free "?" query = true ->
     Url.getUrlParams decode ("?" ++ query ++ "&" ++ name)%string =
       option_map (Url.assign name "undefined")
                  (Url.getUrlParams decode ("?" ++ query)%string)).
Proof.
  intros Hdecode Hname. destruct (plain_free name Hname) as (Hq & Ha & He). split.
  - intros Ht. rewrite (getUrlParams_query decode name Ht Hq), (split_free _ _ Ha).
    cbn [fold_left]. by rewrite (addPair_bare decode _ name Hdecode He).
  - intros query Ht Hfree.
    assert (Ht' : truthy_string (query ++ "&" ++ name)%string = true)
      by (by destruct query).
    assert (Hfree' : Url.free "?" (query ++ "&" ++ name)%string = true)
      by (by rewrite !free_app, Hfree, Hq).
    rewrite (getUrlParams_query decode _ Ht' Hfree'),
      (getUrlParams_query decode _ Ht Hfree).
    change ("&" ++ name)%string with (String "&" name).
    rewrite split_app_any, (split_free _ _ Ha), fold_left_app. cbn [fold_left].
    by apply addPair_bare.
Qed.

Lemma parameter_without_value_reads_undefined_witness :
  Url.getUrlParams (fun s => Some (Url.decodeSeparators s)) "?room=daily&debug" =
  Some (<["debug" := "undefined"]> (<["room" := "daily"]> ∅)).
Proof.
  refine (eq_trans
            (proj2 (parameter_without_value_reads_undefined
                      (fun s => Some (Url.decodeSeparators s)) "debug" eq_refl eq_refl)
                   "room=daily" eq_refl eq_refl) _).
  vm_compute. reflexivity.
Defined.
